(** * science/exe.py: the command line driver of the scie assembly engine

    A shallow embedding of [science/exe.py] (the [lift], [export] and
    [build] commands, the fatal error hook) together with the parts of the
    engine the driver hands its work to.  Python values become Rocq values:
    [frozenset] is [gset], a tuple or list is [list], [str | None] is
    [option string], a raised exception is the [Raised] outcome of a small
    state and exception monad over the file system and the console. *)

From Stdlib Require Import Ascii String.
From stdpp Require Import base option list sets gmap strings pretty sorting.

Local Open Scope string_scope.
Local Open Scope list_scope.
Local Open Scope stdpp_scope.

(** ** Python run-time values used by the driver *)

Module Py.

(** The line feed character, Python's ["\n"]. *)
Definition nl : string := String "010"%char EmptyString.

(** [sep.join(parts)]. *)
Fixpoint join (sep : string) (parts : list string) : string :=
  match parts with
  | [] => EmptyString
  | [p] => p
  | p :: rest => p +:+ sep +:+ join sep rest
  end.

(** [bool(s)] for a [str]: the empty string is falsy. *)
Definition truthy_str (s : string) : bool :=
  match s with
  | EmptyString => false
  | String _ _ => true
  end.

(** [bool(l)] for a list or tuple: the empty sequence is falsy. *)
Definition truthy_list {A} (l : list A) : bool :=
  match l with
  | [] => false
  | _ :: _ => true
  end.

(** An exception class, as far as the driver looks at it: the names
    [_log_fatal] prints and whether the class derives from
    [science.errors.InputError]. *)
Record ExcType := {
  exc_module : string;
  exc_qualname : string;
  derives_InputError : bool
}.

(** An exception instance: its class and [str(value)]. *)
Record Exc := {
  exc_type : ExcType;
  exc_str : string
}.

Definition isinstance_InputError (value : Exc) : bool :=
  derives_InputError (exc_type value).

Definition InputError_t : ExcType :=
  {| exc_module := "science.errors"; exc_qualname := "InputError";
     derives_InputError := true |}.

Definition builtin_t (qualname : string) : ExcType :=
  {| exc_module := "builtins"; exc_qualname := qualname;
     derives_InputError := false |}.

Definition InputError (msg : string) : Exc :=
  {| exc_type := InputError_t; exc_str := msg |}.

(** [sys.exit(msg)] raises [SystemExit(msg)]. *)
Definition SystemExit (msg : string) : Exc :=
  {| exc_type := builtin_t "SystemExit"; exc_str := msg |}.

Definition FileNotFoundError (msg : string) : Exc :=
  {| exc_type := builtin_t "FileNotFoundError"; exc_str := msg |}.

Definition FileExistsError (msg : string) : Exc :=
  {| exc_type := builtin_t "FileExistsError"; exc_str := msg |}.

Definition NotADirectoryError (msg : string) : Exc :=
  {| exc_type := builtin_t "NotADirectoryError"; exc_str := msg |}.

(** The result of running a piece of Python: a value or a raised
    exception. *)
Inductive Outcome (A : Type) : Type :=
| Returned (a : A)
| Raised (e : Exc).
Arguments Returned {A} a.
Arguments Raised {A} e.

End Py.
Export Py.

(** ** [_log_fatal]: the [sys.excepthook] of the tool *)

Module Fatal.

Inductive Color := Yellow | Red.

(** One [click.secho(text, fg=.., file=sys.stderr, nl=..)] call. *)
Record Secho := {
  text : string;
  fg : Color;
  newline : bool
}.

(** [traceback.format_tb(tb)] is a list of strings. *)
Definition Traceback := list string.

Definition _log_fatal (type_ : ExcType) (value : Exc) (tb : Traceback)
    (always_include_backtrace : bool) : list Secho :=
  (if always_include_backtrace || negb (isinstance_InputError value)
   then [ {| text := Py.join EmptyString tb; fg := Yellow; newline := false |};
          {| text := exc_module type_ +:+ "." +:+ exc_qualname type_ +:+ ": ";
             fg := Yellow; newline := false |} ]
   else [])
  ++ [ {| text := exc_str value; fg := Red; newline := true |} ].

(** The message-only rendering. *)
Definition message_only (value : Exc) : list Secho :=
  [ {| text := exc_str value; fg := Red; newline := true |} ].

(** The rendering with the originating cause. *)
Definition with_cause (type_ : ExcType) (value : Exc) (tb : Traceback)
    : list Secho :=
  [ {| text := Py.join EmptyString tb; fg := Yellow; newline := false |};
    {| text := exc_module type_ +:+ "." +:+ exc_qualname type_ +:+ ": ";
       fg := Yellow; newline := false |};
    {| text := exc_str value; fg := Red; newline := true |} ].

End Fatal.

(** ** Paths ([pathlib.Path]) *)

Module Paths.

(** An absolute path as the list of its components. *)
Abbreviation Path := (list string).

(** [path.name]: the final component, the empty string for the root. *)
Definition path_name (p : Path) : string := List.last p EmptyString.

(** [path.parent]: the root is its own parent. *)
Definition parent (p : Path) : Path := removelast p.

(** [path / segment]; joining the empty string gives the path back. *)
Definition join_path (p : Path) (segment : string) : Path :=
  match segment with
  | EmptyString => p
  | _ => p ++ [segment]
  end.

(** [str(path)]. *)
Definition path_str (p : Path) : string :=
  match p with
  | [] => "/"
  | _ => "/" +:+ Py.join "/" p
  end.

End Paths.
Export Paths.

(** ** Versions ([packaging.version.Version])

    The driver compares the requested scie-jump version with
    [version.parse("0.9.0")] and prints it; both follow the library:
    comparison is the lexicographic order of [_cmpkey], printing is
    [Version.__str__]. *)

Module Version.

Inductive PreTag := TagA | TagB | TagRC.

Inductive LocalSeg := LInt (n : N) | LStr (s : string).

Record t := {
  epoch : N;
  release : list N;
  pre : option (PreTag * N);
  post : option N;
  dev : option N;
  local : option (list LocalSeg)
}.

(** The library's [Infinity] and [NegativeInfinity] sentinels. *)
Inductive Ext (A : Type) : Type :=
| NegativeInfinity
| Finite (a : A)
| Infinity.
Arguments NegativeInfinity {A}.
Arguments Finite {A} a.
Arguments Infinity {A}.

Definition lex (c1 c2 : comparison) : comparison :=
  match c1 with
  | Eq => c2
  | _ => c1
  end.

Definition cmp_ext {A} (cmp : A -> A -> comparison) (x y : Ext A) : comparison :=
  match x, y with
  | NegativeInfinity, NegativeInfinity => Eq
  | NegativeInfinity, _ => Lt
  | _, NegativeInfinity => Gt
  | Infinity, Infinity => Eq
  | Infinity, _ => Gt
  | _, Infinity => Lt
  | Finite a, Finite b => cmp a b
  end.

(** Tuple comparison: the first difference decides, a proper prefix is
    smaller. *)
Fixpoint cmp_tuple {A} (cmp : A -> A -> comparison) (l1 l2 : list A) : comparison :=
  match l1, l2 with
  | [], [] => Eq
  | [], _ :: _ => Lt
  | _ :: _, [] => Gt
  | x :: xs, y :: ys => lex (cmp x y) (cmp_tuple cmp xs ys)
  end.

Definition tag_str (tag : PreTag) : string :=
  match tag with
  | TagA => "a"
  | TagB => "b"
  | TagRC => "rc"
  end.

Definition cmp_pre (x y : PreTag * N) : comparison :=
  lex (String.compare (tag_str x.1) (tag_str y.1)) (N.compare x.2 y.2).

Definition cmp_local_seg (x y : Ext N * string) : comparison :=
  lex (cmp_ext N.compare x.1 y.1) (String.compare x.2 y.2).

Fixpoint drop_leading_zeros (l : list N) : list N :=
  match l with
  | 0%N :: rest => drop_leading_zeros rest
  | _ => l
  end.

(** The components of [_cmpkey(epoch, release, pre, post, dev, local)]. *)
Definition key_release (v : t) : list N :=
  rev (drop_leading_zeros (rev (release v))).

Definition key_pre (v : t) : Ext (PreTag * N) :=
  match pre v, post v, dev v with
  | None, None, Some _ => NegativeInfinity
  | None, _, _ => Infinity
  | Some p, _, _ => Finite p
  end.

Definition key_post (v : t) : Ext N :=
  match post v with
  | None => NegativeInfinity
  | Some n => Finite n
  end.

Definition key_dev (v : t) : Ext N :=
  match dev v with
  | None => Infinity
  | Some n => Finite n
  end.

Definition key_local (v : t) : Ext (list (Ext N * string)) :=
  match local v with
  | None => NegativeInfinity
  | Some segs =>
      Finite (map (fun seg => match seg with
                              | LInt i => (Finite i, EmptyString)
                              | LStr s => (NegativeInfinity, s)
                              end) segs)
  end.

Definition compare (v w : t) : comparison :=
  lex (N.compare (epoch v) (epoch w))
 (lex (cmp_tuple N.compare (key_release v) (key_release w))
 (lex (cmp_ext cmp_pre (key_pre v) (key_pre w))
 (lex (cmp_ext N.compare (key_post v) (key_post w))
 (lex (cmp_ext N.compare (key_dev v) (key_dev w))
      (cmp_ext (cmp_tuple cmp_local_seg) (key_local v) (key_local w)))))).

(** [v < w]. *)
Definition ltb (v w : t) : bool :=
  match compare v w with
  | Lt => true
  | _ => false
  end.

Definition local_seg_str (seg : LocalSeg) : string :=
  match seg with
  | LInt i => pretty i
  | LStr s => s
  end.

(** [str(v)]. *)
Definition str (v : t) : string :=
  (if (epoch v =? 0)%N then EmptyString else pretty (epoch v) +:+ "!")
  +:+ Py.join "." (map pretty (release v))
  +:+ match pre v with
      | None => EmptyString
      | Some (tag, n) => tag_str tag +:+ pretty n
      end
  +:+ match post v with
      | None => EmptyString
      | Some n => ".post" +:+ pretty n
      end
  +:+ match dev v with
      | None => EmptyString
      | Some n => ".dev" +:+ pretty n
      end
  +:+ match local v with
      | None => EmptyString
      | Some segs => "+" +:+ Py.join "." (map local_seg_str segs)
      end.

(** A final release [a.b.c]. *)
Definition final (segments : list N) : t :=
  {| epoch := 0; release := segments; pre := None; post := None;
     dev := None; local := None |}.

(** [version.parse("0.9.0")]. *)
Definition v0_9_0 : t := final [0; 9; 0]%N.

End Version.

(** ** The manifest model ([science.model], [science.platform]) *)

Module Model.

(** Modelled from the spec: the [Platform] enumeration of
    [science/platform.py] is not part of the sources at hand.  Section 3:
    one of a fixed enumeration of (OS, architecture) pairs; the driver
    reads a member's [value], its platform suffix (for example
    [linux-x86_64]).  A member is identified by that value; nothing below
    depends on which members exist. *)
Record Platform := { value : string }.

#[export] Instance Platform_eq_dec : EqDecision Platform.
Proof. solve_decision. Defined.

#[export] Instance Platform_countable : Countable Platform :=
  inj_countable' value Build_Platform (fun p => match p with Build_Platform _ => eq_refl end).

(** Modelled from the spec: the source of a declared file (section 3):
    none, a URL carrying a [lazy] flag, or a binding command. *)
Inductive Source :=
| NoSource
| Fetch (url : string) (lazy : bool)
| Binding (command : string).

(** Modelled from the spec: [Digest] (section 3), a size and a
    fingerprint. *)
Record Digest := { digest_size : N; fingerprint : string }.

(** Modelled from the spec: a declared interpreter (sections 3 and 4.4):
    its id, provider, version and declared laziness. *)
Record Interpreter := {
  interpreter_id : string;
  provider : string;
  interpreter_version : string;
  interpreter_lazy : bool
}.

(** Modelled from the spec: a declared file (section 3): its name, an
    id that defaults to the name, an optional digest and its source. *)
Record File := {
  file_name : string;
  file_key : option string;
  file_digest : option Digest;
  file_source : Source
}.

(** [file.id]: the key when declared, the name otherwise. *)
Definition file_id (f : File) : string := default (file_name f) (file_key f).

(** Modelled from the spec: [ScieJumpSpec] (section 3), the required
    assembler version; the driver reads [version]. *)
Record ScieJump := {
  version : option Version.t;
  scie_jump_digest : option Digest
}.

(** Modelled from the spec: the [Application] dataclass of
    [science/model.py] is not part of the sources at hand; its fields
    are those of section 3 (name, optional description, interpreters,
    files, target platforms, optional scie-jump requirement, optional
    provenance table).  The driver reads [name], [platforms] and
    [scie_jump]. *)
Record Application := {
  name : string;
  description : option string;
  interpreters : list Interpreter;
  files : list File;
  platforms : gset Platform;
  scie_jump : option ScieJump;
  app_info : list (string * string)
}.

(** [dataclasses.replace(application, name=new_name)]. *)
Definition replace_name (application : Application) (new_name : string) : Application :=
  {| name := new_name;
     description := description application;
     interpreters := interpreters application;
     files := files application;
     platforms := platforms application;
     scie_jump := scie_jump application;
     app_info := app_info application |}.

End Model.
Export Model.

(** ** The [lift] command group: [_lift] and [parse_application] *)

Module Lift.

(** Modelled from the spec: [FileMapping] of
    [science/commands/lift.py], one [--file NAME=LOCATION] option
    (section 3: name to filesystem location). *)
Record FileMapping := { fm_id : string; fm_path : Path }.

(** Modelled from the spec: [AppInfo] of [science/commands/lift.py],
    one [--app-info KEY=VALUE] option (section 3: key to value). *)
Record AppInfo := { ai_key : string; ai_value : string }.

(** [LiftConfig], with the fields [_lift] fills in. *)
Record LiftConfig := {
  file_mappings : list FileMapping;
  invert_lazy_ids : gset string;
  include_provenance : bool;
  app_info : list AppInfo;
  app_name : option string
}.

(** [_lift] stores the configuration in [ctx.obj]; every sub-command
    receives exactly this value. *)
Definition _lift (file_mappings : list FileMapping)
    (invert_lazy_ids : list string) (include_provenance : bool)
    (app_name : option string) (app_info : list AppInfo) : LiftConfig :=
  {| file_mappings := file_mappings;
     invert_lazy_ids := list_to_set invert_lazy_ids;
     include_provenance := include_provenance || Py.truthy_list app_info;
     app_info := app_info;
     app_name := app_name |}.

(** The open manifest file ([BinaryIO]). *)
Record BinaryIO := { io_name : string; io_bytes : string }.

Section ParseApplication.

(** [science.config.parse_config(config, source=...)]: a parsed
    application or an input error. *)
Variable parse_config : BinaryIO -> string -> Outcome Application.

Definition parse_application (lift_config : LiftConfig) (config : BinaryIO)
    : Outcome Application :=
  match parse_config config (io_name config) with
  | Raised e => Raised e
  | Returned application =>
      match app_name lift_config with
      | Some new_name =>
          if Py.truthy_str new_name
          then Returned (replace_name application new_name)
          else Returned application
      | None => Returned application
      end
  end.

End ParseApplication.

End Lift.
Export Lift.

(** ** The world the driver acts on: files, directories, console *)

Module World.

Inductive Node :=
| RegularFile (data : string)
| Symlink (target : Path).

(** The file system: the non-directory entries and the directories. *)
Record FS := {
  fs_files : gmap Path Node;
  fs_dirs : gset Path
}.

Definition exists_path (store : FS) (p : Path) : bool :=
  bool_decide (is_Some (fs_files store !! p)) || bool_decide (p ∈ fs_dirs store).

(** [PlatformInfo] of [science/commands/lift.py]: the fields the driver
    reads. *)
Record PlatformInfo := { current : Platform; use_suffix : bool }.

(** [ScieAssembly] and [ScieAssemblyInfo] of [science/commands/build.py]:
    the fields the driver reads. *)
Record ScieAssembly := { lift_manifest : Path; scie : Path; hashes : list Path }.
Record AssemblyInfo := { native_jump : Path; scies : list ScieAssembly }.

(** The arguments of one [build.assemble_scies(...)] call. *)
Record AssembleArgs := {
  arg_lift_config : LiftConfig;
  arg_application : Application;
  arg_dest_dir : Path;
  arg_platforms : gset Platform;
  arg_platform_info : PlatformInfo;
  arg_use_jump : option Path;
  arg_hash_functions : list string
}.

(** What an observer of the process sees, in order. *)
Inductive Event :=
| LogWarning (msg : string)
| Echo (msg : string)
| SechoYellow (msg : string)
| SandboxCreated (td : Path)
| AssembleScies (args : AssembleArgs)
| MakeDirs (p : Path)
| Move (src dst : Path)
| SymlinkTo (link target : Path).

Record State := { fs : FS; events : list Event }.

(** Stateful, raising computations. *)
Definition M (A : Type) : Type := State -> Outcome A * State.

#[export] Instance M_ret : MRet M := fun A a w => (Returned a, w).

#[export] Instance M_bind : MBind M := fun A B k m w =>
  match m w with
  | (Returned a, w') => k a w'
  | (Raised e, w') => (Raised e, w')
  end.

Definition raise {A} (e : Exc) : M A := fun w => (Raised e, w).

Definition of_outcome {A} (o : Outcome A) : M A := fun w => (o, w).

Definition emit (ev : Event) : M unit := fun w =>
  (Returned tt, {| fs := fs w; events := events w ++ [ev] |}).

(** [for x in xs: body(x)]. *)
Fixpoint for_each {A} (xs : list A) (body : A -> M unit) : M unit :=
  match xs with
  | [] => mret tt
  | x :: rest => _ ← body x; for_each rest body
  end.

(** The directories at and above [p], the root excluded. *)
Definition ancestors_or_self (p : Path) : list Path :=
  map (fun n => take n p) (seq 1 (length p)).

(** [p.mkdir(parents=True, exist_ok=True)]: fails when [p] or one of
    its parents exists and is not a directory, with [FileExistsError]
    for [p] itself and [NotADirectoryError] for a parent. *)
Definition mkdir_parents_exist_ok (p : Path) : M unit := fun w =>
  let w1 := {| fs := fs w; events := events w ++ [MakeDirs p] |} in
  match List.find (fun q => bool_decide (is_Some (fs_files (fs w) !! q)))
                  (ancestors_or_self p) with
  | Some q =>
      (Raised (if bool_decide (q = p) then FileExistsError (path_str p)
               else NotADirectoryError (path_str p)), w1)
  | None =>
      (Returned tt,
       {| fs := {| fs_files := fs_files (fs w);
                   fs_dirs := fs_dirs (fs w) ∪ list_to_set (ancestors_or_self p) |};
          events := events w1 |})
  end.

(** [shutil.move(src=src, dst=dst)] for a source that is not a
    directory: into [dst] when that is a directory (refusing to
    overwrite there), onto [dst] otherwise. *)
Definition shutil_move (src dst : Path) : M unit := fun w =>
  let w1 := {| fs := fs w; events := events w ++ [Move src dst] |} in
  let into_dir := bool_decide (dst ∈ fs_dirs (fs w)) in
  let real_dst := if into_dir then join_path dst (path_name src) else dst in
  if into_dir && exists_path (fs w) real_dst
  then (Raised {| exc_type := {| exc_module := "shutil"; exc_qualname := "Error";
                                 derives_InputError := false |};
                  exc_str := "Destination path '" +:+ path_str real_dst
                             +:+ "' already exists" |}, w1)
  else match fs_files (fs w) !! src with
       | None => (Raised (FileNotFoundError (path_str src)), w1)
       | Some node =>
           (Returned tt,
            {| fs := {| fs_files := <[real_dst := node]> (delete src (fs_files (fs w)));
                        fs_dirs := fs_dirs (fs w) |};
               events := events w1 |})
       end.

(** [link.symlink_to(target)]. *)
Definition symlink_to (link target : Path) : M unit := fun w =>
  let w1 := {| fs := fs w; events := events w ++ [SymlinkTo link target] |} in
  if exists_path (fs w) link
  then (Raised (FileExistsError (path_str link)), w1)
  else (Returned tt,
        {| fs := {| fs_files := <[link := Symlink target]> (fs_files (fs w));
                    fs_dirs := fs_dirs (fs w) |};
           events := events w1 |}).

(** [shutil.rmtree(td)]: everything at or below [td] goes. *)
Definition rmtree (td : Path) (store : FS) : FS :=
  {| fs_files := filter (fun kv => ¬ td `prefix_of` kv.1) (fs_files store);
     fs_dirs := filter (fun d => ¬ td `prefix_of` d) (fs_dirs store) |}.

End World.
Export World.

(** ** The [build] command: [_build] *)

Module Build.

(** [sorted(strings)]: ascending by code point. *)
Definition str_le (x y : string) : Prop := Is_true (String.leb x y).

Definition sorted (l : list string) : list string := merge_sort str_le l.

(** [bool(use_jump)] for [Path | None]: a path is always truthy. *)
Definition truthy_path (p : option Path) : bool :=
  match p with
  | None => false
  | Some _ => true
  end.

Section Driver.

(** [Platform.current()]: the host the tool runs on. *)
Variable Platform_current : Platform.

(** [sys.argv[0]]. *)
Variable argv0 : string.

(** [science.config.parse_config]. *)
Variable parse_config : BinaryIO -> string -> Outcome Application.

(** [tempfile.mkdtemp()]: the directory chosen for the sandbox. *)
Variable mkdtemp : FS -> Path.

(** [science.commands.build.assemble_scies]: from its arguments and
    the file system, an assembly or an exception, and the file system
    it leaves behind. *)
Variable assemble_scies : AssembleArgs -> FS -> Outcome AssemblyInfo * FS.

(** Modelled from the spec: [PlatformInfo.create] of
    [science/commands/lift.py] is not part of the sources at hand.
    Section 4.2: the view holds the current host platform, and
    [use_suffix] is true iff more than one target platform is to be
    built, or the caller explicitly forced it. *)
Definition PlatformInfo_create (application : Application) (use_suffix : bool)
    : PlatformInfo :=
  {| current := Platform_current;
     use_suffix := use_suffix || bool_decide (1 < size (platforms application)) |}.

(** Modelled from the spec: [temporary_directory] of [science/fs.py]
    is not part of the sources at hand.  Sections 3 and 4.5: a fresh
    directory owned by one invocation, discarded when the block is
    left, by success or by failure, unless preservation was asked
    for. *)
Definition temporary_directory {A} (cleanup : bool) (body : Path -> M A) : M A :=
  fun w =>
    let td := mkdtemp (fs w) in
    let w1 := {| fs := {| fs_files := fs_files (fs w);
                          fs_dirs := fs_dirs (fs w) ∪ {[td]} |};
                 events := events w ++ [SandboxCreated td] |} in
    let '(r, w2) := body td w1 in
    (r, if cleanup then {| fs := rmtree td (fs w2); events := events w2 |} else w2).

(** The call [build.assemble_scies(...)], observed. *)
Definition call_assemble_scies (args : AssembleArgs) : M AssemblyInfo := fun w =>
  let '(r, store) := assemble_scies args (fs w) in
  (r, {| fs := store; events := events w ++ [AssembleScies args] |}).

Definition restricting_message (platforms : gset Platform)
    (platform_info : PlatformInfo) : string :=
  "Restricting requested platforms of "
  +:+ Py.join ", " (sorted (value <$> elements platforms))
  +:+ " to " +:+ value (current platform_info).

(** Lines 461-469: the platforms to build for. *)
Definition select_platforms (application : Application)
    (platform_info : PlatformInfo) (use_jump : option Path)
    (use_platform_suffix : bool) : M (gset Platform) :=
  let platforms := platforms application in
  if truthy_path use_jump && use_platform_suffix
  then
    _ ← emit (LogWarning
           "Cannot use a custom scie jump build with a multi-platform configuration.");
    _ ← emit (LogWarning (restricting_message platforms platform_info));
    mret ({[ current platform_info ]} : gset Platform)
  else mret platforms.

Definition version_message (scie_jump_version : Version.t) : string :=
  "A scie-jump version of " +:+ Version.str scie_jump_version
  +:+ " was requested but " +:+ argv0 +:+ " requires at least 0.9.0.".

(** Line 471: the scie-jump version the manifest asks for, if any. *)
Definition scie_jump_version (application : Application) : option Version.t :=
  match scie_jump application with
  | Some sj => version sj
  | None => None
  end.

(** Lines 472-478: the scie-jump version gate. *)
Definition check_scie_jump_version (application : Application) : M unit :=
  match scie_jump_version application with
  | Some v =>
      if Version.ltb v Version.v0_9_0
      then raise (SystemExit (version_message v))
      else mret tt
  | None => mret tt
  end.

(** The local function [move] of [_build]. *)
Definition move (dest_dir : Path) (path : Path) : M unit :=
  let dst := join_path dest_dir (path_name path) in
  _ ← shutil_move path dst;
  emit (Echo (path_str dst)).

(** Lines 490-508: the destination directory is made and every scie
    and its checksum files are moved there. *)
Definition deliver (dest_dir : Path) (preserve_sandbox : bool)
    (assembly_info : AssemblyInfo) : M unit :=
  _ ← mkdir_parents_exist_ok dest_dir;
  for_each (scies assembly_info) (fun scie_assembly =>
    _ ← move dest_dir (scie scie_assembly);
    _ ← for_each (hashes scie_assembly) (move dest_dir);
    if preserve_sandbox
    then
      _ ← symlink_to
            (join_path (parent (lift_manifest scie_assembly))
                       (path_name (native_jump assembly_info)))
            (native_jump assembly_info);
      emit (SechoYellow ("Sandbox preserved at "
                         +:+ path_str (parent (lift_manifest scie_assembly))))
    else mret tt).

(** Lines 480-508: assembly in the sandbox, then delivery. *)
Definition assemble_and_deliver (lift_config : LiftConfig)
    (application : Application) (dest_dir : Path)
    (platforms : gset Platform) (platform_info : PlatformInfo)
    (preserve_sandbox : bool) (use_jump : option Path)
    (hash_functions : list string) : M unit :=
  temporary_directory (negb preserve_sandbox) (fun td =>
    assembly_info ← call_assemble_scies
      {| arg_lift_config := lift_config;
         arg_application := application;
         arg_dest_dir := td;
         arg_platforms := platforms;
         arg_platform_info := platform_info;
         arg_use_jump := use_jump;
         arg_hash_functions := hash_functions |};
    deliver dest_dir preserve_sandbox assembly_info).

Definition _build (lift_config : LiftConfig) (config : BinaryIO)
    (dest_dir : Path) (use_platform_suffix preserve_sandbox : bool)
    (use_jump : option Path) (hash_functions : list string) : M unit :=
  application ← of_outcome (parse_application parse_config lift_config config);
  let platform_info := PlatformInfo_create application use_platform_suffix in
  platforms ← select_platforms application platform_info use_jump use_platform_suffix;
  _ ← check_scie_jump_version application;
  assemble_and_deliver lift_config application dest_dir platforms platform_info
                       preserve_sandbox use_jump hash_functions.

End Driver.

End Build.
Export Build.

(** ** The laziness classifier *)

Module Laziness.

Inductive SourceKind :=
| KInterpreter
| KUrl
| KNoSource
| KBinding.

(** Modelled from the spec: one declared artifact of section 4.4: its
    id, what it is, its declared laziness. *)
Record Entry := {
  entry_id : string;
  entry_kind : SourceKind;
  declared_lazy : bool
}.

Definition entry_of_interpreter (i : Interpreter) : Entry :=
  {| entry_id := interpreter_id i; entry_kind := KInterpreter;
     declared_lazy := interpreter_lazy i |}.

Definition entry_of_file (f : File) : Entry :=
  match file_source f with
  | Fetch _ lazy => {| entry_id := file_id f; entry_kind := KUrl; declared_lazy := lazy |}
  | NoSource => {| entry_id := file_id f; entry_kind := KNoSource; declared_lazy := false |}
  | Binding _ => {| entry_id := file_id f; entry_kind := KBinding; declared_lazy := false |}
  end.

(** Modelled from the spec: the declared flags the classifier starts
    from (section 4.4): interpreters and URL-sourced files as declared,
    no-source and binding-command files always eager. *)
Definition entries (application : Application) : list Entry :=
  map entry_of_interpreter (interpreters application)
  ++ map entry_of_file (files application).

Definition toggleable (k : SourceKind) : bool :=
  match k with
  | KInterpreter | KUrl => true
  | KNoSource | KBinding => false
  end.

(** The declaration an id resolves to. *)
Definition resolve (application : Application) (id : string) : option Entry :=
  List.find (fun e => bool_decide (entry_id e = id)) (entries application).

(** Modelled from the spec: an id is toggle-eligible when it resolves
    to an interpreter or to a URL-sourced file (section 3,
    LaziesOverride). *)
Definition eligible (application : Application) (id : string) : bool :=
  match resolve application id with
  | Some e => toggleable (entry_kind e)
  | None => false
  end.

(** Modelled from the spec: the rejection of section 4.4, naming the
    offending id and its source kind ([None] when the id matches
    nothing). *)
Record ToggleError := { bad_id : string; bad_kind : option SourceKind }.

Definition kind_str (k : option SourceKind) : string :=
  match k with
  | None => "no such interpreter or file"
  | Some KInterpreter => "interpreter"
  | Some KUrl => "url source"
  | Some KNoSource => "no source"
  | Some KBinding => "binding command source"
  end.

Definition toggle_error_exc (err : ToggleError) : Exc :=
  InputError ("Cannot toggle the laziness of " +:+ bad_id err +:+ ": "
              +:+ kind_str (bad_kind err)).

Definition check_override (application : Application) (id : string)
    : option ToggleError :=
  if eligible application id then None
  else Some {| bad_id := id; bad_kind := entry_kind <$> resolve application id |}.

(** Modelled from the spec: the laziness classifier lives in
    [science/commands/lift.py], which is not part of the sources at
    hand.  Section 4.4: start from the declared flags (no-source and
    binding-command files are always eager). *)
Definition declared_flags (application : Application) : list (string * bool) :=
  map (fun e => (entry_id e, declared_lazy e)) (entries application).

(** Inverting the flag of one id. *)
Definition invert (id : string) (flags : list (string * bool)) : list (string * bool) :=
  map (fun f => (f.1, if bool_decide (f.1 = id) then negb f.2 else f.2)) flags.

(** Modelled from the spec: section 4.4: for each id present in the
    override set, invert the flag; if an override id is not
    toggle-eligible, fail immediately with an error naming the id and
    its source kind. *)
Fixpoint apply_overrides (application : Application) (ids : list string)
    (flags : list (string * bool)) : ToggleError + list (string * bool) :=
  match ids with
  | [] => inr flags
  | id :: rest =>
      match check_override application id with
      | Some err => inl err
      | None => apply_overrides application rest (invert id flags)
      end
  end.

(** Modelled from the spec: the classifier of section 4.4, from the
    declared flags and the override set to the final flags. *)
Definition classify (application : Application) (overrides : gset string)
    : ToggleError + list (string * bool) :=
  apply_overrides application (elements overrides) (declared_flags application).

End Laziness.

(** ** The post-processor: checksum sidecar files *)

Module PostProcess.

Definition is_hex_digit (c : ascii) : bool :=
  let n := nat_of_ascii c in
  ((48 <=? n) && (n <=? 57) || (97 <=? n) && (n <=? 102))%nat.

Fixpoint is_hex (s : string) : bool :=
  match s with
  | EmptyString => true
  | String c rest => is_hex_digit c && is_hex rest
  end.

(** The text of a line up to its first space, and what follows it. *)
Fixpoint split_at_space (s : string) : string * string :=
  match s with
  | EmptyString => (EmptyString, EmptyString)
  | String c rest =>
      if Ascii.eqb c " "%char then (EmptyString, rest)
      else let '(field, tail) := split_at_space rest in (String c field, tail)
  end.

(** A string without its final line feed, when it ends in one. *)
Fixpoint strip_newline (s : string) : option string :=
  match s with
  | EmptyString => None
  | String c EmptyString => if Ascii.eqb c "010"%char then Some EmptyString else None
  | String c rest => String c <$> strip_newline rest
  end.

(** How the [shasum] family reads a binary-mode checksum line: the
    digest, a space, an asterisk, the file name. *)
Definition parse_checksum_line (line : string) : option (string * string) :=
  match split_at_space line with
  | (digest, String "*"%char rest) => pair digest <$> strip_newline rest
  | _ => None
  end.

Section Checksums.

(** [hashlib.new(algorithm, data).hexdigest()]. *)
Variable hexdigest : string -> string -> string.

(** Modelled from the spec: the sidecar's name,
    [<output-name>.<algorithm>] (section 6). *)
Definition sidecar_name (output algorithm : string) : string :=
  output +:+ "." +:+ algorithm.

(** Modelled from the spec: the sidecar's content,
    [<hex-digest> *<output-name>] and a line feed (section 6). *)
Definition sidecar_content (output algorithm data : string) : string :=
  hexdigest algorithm data +:+ " *" +:+ output +:+ Py.nl.

Definition write_sidecar (dir : Path) (output data : string)
    (store : gmap Path Node) (algorithm : string) : gmap Path Node :=
  <[dir ++ [sidecar_name output algorithm] :=
      RegularFile (sidecar_content output algorithm data)]> store.

(** Modelled from the spec: checksum generation lives in
    [science/commands/build.py], which is not part of the sources at
    hand.  Sections 4.7 and 6: for each requested hash algorithm,
    compute the digest of the final binary bytes and write a sidecar
    file named [<output-name>.<algorithm>] with the content
    [<hex-digest> *<output-name>] and a line feed; the [--hash] help
    of the driver asks for one file per unique algorithm.  The result
    is the store and the sidecar paths, the [hashes] of the
    [ScieAssembly]. *)
Definition write_checksums (dir : Path) (output : string)
    (hash_functions : list string) (store : gmap Path Node)
    : option (gmap Path Node * list Path) :=
  match store !! (dir ++ [output]) with
  | Some (RegularFile data) =>
      let algorithms := remove_dups hash_functions in
      Some (foldl (write_sidecar dir output data) store algorithms,
            map (fun algorithm => dir ++ [sidecar_name output algorithm]) algorithms)
  | _ => None
  end.

(** [shasum -c]: read the sidecar, hash the named file again, compare. *)
Definition verify_sidecar (dir : Path) (algorithm : string) (sidecar : Path)
    (store : gmap Path Node) : bool :=
  match store !! sidecar with
  | Some (RegularFile line) =>
      match parse_checksum_line line with
      | Some (digest, file) =>
          match store !! (dir ++ [file]) with
          | Some (RegularFile data) => bool_decide (hexdigest algorithm data = digest)
          | _ => false
          end
      | None => false
      end
  | _ => false
  end.

End Checksums.

End PostProcess.

(** ** Reading the event trace *)

Module Trace.

Definition is_warning (ev : Event) : Prop :=
  match ev with
  | LogWarning _ => True
  | _ => False
  end.

(** The files an assembly hands over: each scie and its checksum
    files. *)
Definition artifacts (info : AssemblyInfo) : list Path :=
  flat_map (fun scie_assembly => scie scie_assembly :: hashes scie_assembly) (scies info).

(** What delivery may do: make the destination directory, move an
    artifact to its name there, report, and link the native jump into a
    preserved sandbox. *)
Definition delivery_event (dest_dir : Path) (preserve_sandbox : bool)
    (info : AssemblyInfo) (ev : Event) : Prop :=
  match ev with
  | MakeDirs p => p = dest_dir
  | Move src dst => src ∈ artifacts info ∧ dst = join_path dest_dir (path_name src)
  | Echo _ => True
  | SechoYellow _ => preserve_sandbox = true
  | SymlinkTo link target =>
      preserve_sandbox = true ∧ target = native_jump info ∧
      ∃ scie_assembly, scie_assembly ∈ scies info ∧
        link = join_path (parent (lift_manifest scie_assembly))
                         (path_name (native_jump info))
  | LogWarning _ | SandboxCreated _ | AssembleScies _ => False
  end.

(** A computation that only adds events satisfying [P] to the trace. *)
Definition appends {A} (P : Event -> Prop) (m : M A) : Prop :=
  ∀ w r w', m w = (r, w') → ∃ evs, events w' = events w ++ evs ∧ Forall P evs.

(** Two stores agree at a path. *)
Definition same_at (p : Path) (s1 s2 : FS) : Prop :=
  fs_files s1 !! p = fs_files s2 !! p ∧ (p ∈ fs_dirs s1 ↔ p ∈ fs_dirs s2).

(** The sandbox with its directory made, as [temporary_directory]
    hands it to its block. *)
Definition with_sandbox (td : Path) (store : FS) : FS :=
  {| fs_files := fs_files store; fs_dirs := fs_dirs store ∪ {[td]} |}.

End Trace.
Export Trace.

(** ** The [export] command *)

Module ExportCommand.

Definition ValueError (msg : string) : Exc :=
  {| exc_type := builtin_t "ValueError"; exc_str := msg |}.

Definition IsADirectoryError (msg : string) : Exc :=
  {| exc_type := builtin_t "IsADirectoryError"; exc_str := msg |}.

(** What a [for] loop iterates over: each [next] may work on the file
    system and then yields an item and the rest, ends, or raises. *)
#[local] Unset Elimination Schemes.
Inductive Generator (A : Type) : Type :=
| Gen (next : FS -> Outcome (option (A * Generator A)) * FS).
#[local] Set Elimination Schemes.
Arguments Gen {A} next.

(** [for x in generator: body(x)]; an exception of the generator or of
    the body leaves the loop. *)
Fixpoint for_generator {A} (generator : Generator A) (body : A -> M unit) : M unit :=
  match generator with
  | Gen next => fun w =>
      match next (fs w) with
      | (Raised e, store) => (Raised e, {| fs := store; events := events w |})
      | (Returned None, store) => (Returned tt, {| fs := store; events := events w |})
      | (Returned (Some (x, rest)), store) =>
          match body x {| fs := store; events := events w |} with
          | (Returned _, w') => for_generator rest body w'
          | (Raised e, w') => (Raised e, w')
          end
      end
  end.

(** [path.relative_to(base)]: the part of [path] below [base], a
    [ValueError] when [base] is not at or above [path]. *)
Definition relative_to (path base : Path) : Outcome Path :=
  if decide (base `prefix_of` path)
  then Returned (drop (length base) path)
  else Raised (ValueError ("'" +:+ path_str path +:+ "' is not in the subpath of '"
                           +:+ path_str base +:+ "'")).

(** Lines 366-368: where a manifest goes. *)
Definition export_destination (dest_dir td : Path) (use_suffix : bool)
    (manifest_path : Path) : Outcome Path :=
  if use_suffix
  then match relative_to manifest_path td with
       | Returned relative => Returned (dest_dir ++ relative)
       | Raised e => Raised e
       end
  else Returned (join_path dest_dir (path_name manifest_path)).

(** [os.replace(src, dst)] for a source that is not a directory: the
    source takes the place of [dst], which must not be a directory. *)
Definition os_replace (src dst : Path) : M unit := fun w =>
  let w1 := {| fs := fs w; events := events w ++ [Move src dst] |} in
  match fs_files (fs w) !! src with
  | None => (Raised (FileNotFoundError (path_str src)), w1)
  | Some node =>
      if bool_decide (dst ∈ fs_dirs (fs w))
      then (Raised (IsADirectoryError (path_str dst)), w1)
      else (Returned tt,
            {| fs := {| fs_files := <[dst := node]> (delete src (fs_files (fs w)));
                        fs_dirs := fs_dirs (fs w) |};
               events := events w1 |})
  end.

Section Driver.

Variable Platform_current : Platform.
Variable parse_config : BinaryIO -> string -> Outcome Application.
Variable mkdtemp : FS -> Path.

(** [science.commands.lift.export_manifest]: the manifests it produces,
    one per iteration, as pairs of a platform and a path. *)
Variable export_manifest :
  LiftConfig -> Application -> Path -> Generator (Platform * Path).

(** Lines 366-374: the body of the loop. *)
Definition export_one (dest_dir td : Path) (platform_info : PlatformInfo)
    (item : Platform * Path) : M unit :=
  let manifest_path := item.2 in
  lift_manifest ← of_outcome
    (export_destination dest_dir td (use_suffix platform_info) manifest_path);
  _ ← mkdir_parents_exist_ok (parent lift_manifest);
  _ ← os_replace manifest_path lift_manifest;
  emit (Echo (path_str lift_manifest)).

Definition export (lift_config : LiftConfig) (config : BinaryIO)
    (dest_dir : Path) (use_platform_suffix : bool) : M unit :=
  application ← of_outcome (parse_application parse_config lift_config config);
  let platform_info := PlatformInfo_create Platform_current application use_platform_suffix in
  temporary_directory mkdtemp true (fun td =>
    for_generator (export_manifest lift_config application td)
                  (export_one dest_dir td platform_info)).

End Driver.

(** What [export] may add to the trace besides the sandbox: the making
    of a destination's parent directory, the move of a manifest to a
    destination at or below [dest_dir], and the report. *)
Definition export_event (dest_dir : Path) (ev : Event) : Prop :=
  match ev with
  | MakeDirs p => ∃ destination, dest_dir `prefix_of` destination ∧ p = parent destination
  | Move src dst => dest_dir `prefix_of` dst
  | Echo _ => True
  | _ => False
  end.

End ExportCommand.

(** ** The classifier in front of staging *)

Module Staging.
Import Laziness ExportCommand.

Section Checked.

(** What the assembler does once the flags are final: staging each
    sandbox, running the native assembler and post-processing. *)
Variable stage_and_assemble :
  list (string * bool) -> AssembleArgs -> FS -> Outcome AssemblyInfo * FS.

(** What the manifest export does once the flags are final. *)
Variable stage_and_export :
  list (string * bool) -> LiftConfig -> Application -> Path -> Generator (Platform * Path).

(** Modelled from the spec: [assemble_scies] of
    [science/commands/build.py] is not part of the sources at hand.
    Section 4.4: the classifier's check comes before any download or
    staging and fails at once with the error naming the id; otherwise
    the work is done with the final flags. *)
Definition assemble_scies (args : AssembleArgs) (store : FS)
    : Outcome AssemblyInfo * FS :=
  match classify (arg_application args) (invert_lazy_ids (arg_lift_config args)) with
  | inl err => (Raised (toggle_error_exc err), store)
  | inr flags => stage_and_assemble flags args store
  end.

(** Modelled from the spec: [export_manifest] of
    [science/commands/lift.py] is not part of the sources at hand.
    Section 4.4, as for [assemble_scies]: the check comes first, when
    the iteration starts. *)
Definition export_manifest (lift_config : LiftConfig) (application : Application)
    (dest_dir : Path) : Generator (Platform * Path) :=
  Gen (fun store =>
         match classify application (invert_lazy_ids lift_config) with
         | inl err => (Raised (toggle_error_exc err), store)
         | inr flags =>
             match stage_and_export flags lift_config application dest_dir with
             | Gen next => next store
             end
         end).

End Checked.

End Staging.

(** ** The entry point [_main] and the option help *)

Module MainCommand.

(** [ScienceConfig(verbosity=..., cache_dir=...)], as [_main] builds it. *)
Record ScienceConfig := { verbosity : Z; cache_dir : Path }.

Section Main.

(** The [verbose] property of [ScienceConfig] ([science/context.py]). *)
Variable verbose : ScienceConfig -> bool.

(** [_main]: the configuration stored in [ctx.obj] and the hook stored
    in [sys.excepthook]; [-v] and [-q] are counted options. *)
Definition _main (verbose_count quiet_count : nat) (cache_dir : Path)
    : ScienceConfig * (ExcType -> Exc -> Fatal.Traceback -> list Fatal.Secho) :=
  let science_config :=
    {| verbosity := Z.of_nat verbose_count - Z.of_nat quiet_count;
       cache_dir := cache_dir |} in
  (science_config,
   fun type_ value tb => Fatal._log_fatal type_ value tb (verbose science_config)).

End Main.

(** Lines 334-337: one line of the [--use-platform-suffix] help per
    member of the [Platform] enumeration, the current one starred. *)
Definition suffix_line (current platform : Platform) : string :=
  (if bool_decide (platform = current) then "*" else " ") +:+ " " +:+ value platform.

Definition suffix_lines (members : list Platform) (current : Platform) : list string :=
  map (suffix_line current) members.

Definition suffixes (members : list Platform) (current : Platform) : string :=
  Py.join (Py.nl +:+ " ") (suffix_lines members current).

(** A help line that carries the star. *)
Definition starred (line : string) : bool :=
  match line with
  | String "*" _ => true
  | _ => false
  end.

End MainCommand.

(** ** Reading a delivery *)

Module Delivery.

(** Where [move] puts a path: its file name in the destination
    directory. *)
Definition destination (dest_dir path : Path) : Path :=
  join_path dest_dir (path_name path).

(** The trace of moving the given paths in order. *)
Definition move_events (dest_dir : Path) (paths : list Path) : list Event :=
  flat_map (fun path => [Move path (destination dest_dir path);
                         Echo (path_str (destination dest_dir path))]) paths.

Definition is_assemble_call (ev : Event) : bool :=
  match ev with
  | AssembleScies _ => true
  | _ => false
  end.

Definition is_sandbox_creation (ev : Event) : bool :=
  match ev with
  | SandboxCreated _ => true
  | _ => false
  end.

(** The two warnings of lines 463-468. *)
Definition narrowing_warnings (application : Application)
    (platform_info : PlatformInfo) : list Event :=
  [ LogWarning "Cannot use a custom scie jump build with a multi-platform configuration.";
    LogWarning (restricting_message (platforms application) platform_info) ].

End Delivery.

(** ** The build automation: [noxfile.py] *)

Module Nox.

(** The disk as the automation sees it: files with their bytes, and
    directories. *)
Record Disk := {
  disk_files : gmap Path string;
  disk_dirs : gset Path
}.

(** [path.exists()]. *)
Definition disk_exists (d : Disk) (p : Path) : bool :=
  bool_decide (is_Some (disk_files d !! p)) || bool_decide (p ∈ disk_dirs d).

(** One [session.run(...)] call. *)
Record RunCall := {
  run_args : list string;
  run_env : gmap string string;
  run_silent : bool;
  run_external : bool
}.

(** What the automation does to the outside, in order. *)
Inductive NoxEvent :=
| Warn (msg : string)
| Installed (args : list string)
| Ran (call : RunCall)
| UrlOpened (url : string).

Record NoxState := { disk : Disk; log : list NoxEvent }.

Definition N (A : Type) : Type := NoxState -> Outcome A * NoxState.

#[export] Instance N_ret : MRet N := fun A a st => (Returned a, st).

#[export] Instance N_bind : MBind N := fun A B k m st =>
  match m st with
  | (Returned a, st') => k a st'
  | (Raised e, st') => (Raised e, st')
  end.

Definition nraise {A} (e : Exc) : N A := fun st => (Raised e, st).

Definition nlift {A} (o : Outcome A) : N A := fun st => (o, st).

(** [session.warn(msg)]. *)
Definition warn (msg : string) : N unit := fun st =>
  (Returned tt, {| disk := disk st; log := log st ++ [Warn msg] |}).

(** [try: body except (IOError, ValueError, KeyError) as e: handler(e)
    else: orelse(result)]. *)
Definition try_except_else {A B} (body : N A) (catches : Exc -> bool)
    (handler : Exc -> N B) (orelse : A -> N B) : N B := fun st =>
  match body st with
  | (Returned a, st') => orelse a st'
  | (Raised e, st') => if catches e then handler e st' else (Raised e, st')
  end.

Definition TypeError (msg : string) : Exc :=
  {| exc_type := builtin_t "TypeError"; exc_str := msg |}.

Definition KeyError (key : string) : Exc :=
  {| exc_type := builtin_t "KeyError"; exc_str := "'" +:+ key +:+ "'" |}.

Definition IsADirectoryError (msg : string) : Exc :=
  {| exc_type := builtin_t "IsADirectoryError"; exc_str := msg |}.

Definition OSError (msg : string) : Exc :=
  {| exc_type := builtin_t "OSError"; exc_str := msg |}.

Definition ValueError (msg : string) : Exc :=
  {| exc_type := builtin_t "ValueError"; exc_str := msg |}.

(** The base class of the exception classes that reading, decoding
    and parsing a file and indexing the result can raise. *)
Definition base_class (qualname : string) : option string :=
  if bool_decide (qualname ∈ ["FileNotFoundError"; "IsADirectoryError";
                              "NotADirectoryError"; "PermissionError";
                              "FileExistsError"])
  then Some "OSError"
  else if bool_decide (qualname ∈ ["JSONDecodeError"; "UnicodeError"])
  then Some "ValueError"
  else if bool_decide (qualname = "UnicodeDecodeError") then Some "UnicodeError"
  else if bool_decide (qualname = "KeyError") then Some "LookupError"
  else None.

(** [isinstance(e, cls)] along at most three steps of [base_class]. *)
Definition isinstance (e : Exc) (cls : string) : bool :=
  let q0 := exc_qualname (exc_type e) in
  bool_decide (q0 = cls)
  || match base_class q0 with
     | None => false
     | Some q1 =>
         bool_decide (q1 = cls)
         || match base_class q1 with
            | None => false
            | Some q2 => bool_decide (q2 = cls)
            end
     end.

(** [path.read_bytes()]. *)
Definition read_bytes (p : Path) : N string := fun st =>
  match disk_files (disk st) !! p with
  | Some data => (Returned data, st)
  | None =>
      if bool_decide (p ∈ disk_dirs (disk st))
      then (Raised (IsADirectoryError (path_str p)), st)
      else (Raised (FileNotFoundError (path_str p)), st)
  end.

(** [path.write_text(text)]: the parent directory must exist and the
    path must not be a directory. *)
Definition write_text (p : Path) (text : string) : N unit := fun st =>
  if bool_decide (p ∈ disk_dirs (disk st))
  then (Raised (IsADirectoryError (path_str p)), st)
  else if bool_decide (parent p = [] ∨ parent p ∈ disk_dirs (disk st))
  then (Returned tt,
        {| disk := {| disk_files := <[p := text]> (disk_files (disk st));
                      disk_dirs := disk_dirs (disk st) |};
           log := log st |})
  else if bool_decide (is_Some (disk_files (disk st) !! parent p))
  then (Raised (NotADirectoryError (path_str p)), st)
  else (Raised (FileNotFoundError (path_str p)), st).

(** [path.mkdir(parents=True, exist_ok=True)]. *)
Definition disk_mkdir_parents (p : Path) : N unit := fun st =>
  match List.find (fun q => bool_decide (is_Some (disk_files (disk st) !! q)))
                  (ancestors_or_self p) with
  | Some q =>
      (Raised (if bool_decide (q = p) then FileExistsError (path_str p)
               else NotADirectoryError (path_str p)), st)
  | None =>
      (Returned tt,
       {| disk := {| disk_files := disk_files (disk st);
                     disk_dirs := disk_dirs (disk st) ∪ list_to_set (ancestors_or_self p) |};
          log := log st |})
  end.

(** Removing a directory tree; nothing happens when it is not there. *)
Definition disk_rmtree (td : Path) (d : Disk) : Disk :=
  {| disk_files := filter (fun kv => ¬ td `prefix_of` kv.1) (disk_files d);
     disk_dirs := filter (fun q => ¬ td `prefix_of` q) (disk_dirs d) |}.

(** A path of the tree at [src], seen in the tree at [dst]. *)
Definition reroot (src dst p : Path) : Path :=
  if decide (src `prefix_of` p) then dst ++ drop (length src) p else p.

(** [os.replace(src, dst)] for a directory [src]: [dst] may be an empty
    directory or absent. *)
Definition replace_dir (src dst : Path) : N unit := fun st =>
  let d := disk st in
  if negb (bool_decide (src ∈ disk_dirs d))
  then (Raised (FileNotFoundError (path_str src)), st)
  else if bool_decide (is_Some (disk_files d !! dst))
  then (Raised (NotADirectoryError (path_str dst)), st)
  else if bool_decide (Exists (fun q => dst `prefix_of` q ∧ q ≠ dst)
                              ((map_to_list (disk_files d)).*1 ++ elements (disk_dirs d)))
  then (Raised (OSError ("Directory not empty: " +:+ path_str dst)), st)
  else (Returned tt,
        {| disk := {| disk_files :=
                        list_to_map ((fun kv => (reroot src dst kv.1, kv.2))
                                       <$> map_to_list (disk_files d));
                      disk_dirs := set_map (reroot src dst) (disk_dirs d) |};
           log := log st |}).

(** A value decoded from JSON. *)
#[local] Unset Elimination Schemes.
Inductive Json :=
| JNull
| JBool (b : bool)
| JInt (literal : string)
| JFloat (literal : string)
| JString (s : string)
| JArray (items : list Json)
| JObject (fields : list (string * Json)).
#[local] Set Elimination Schemes.

(** [d[key]] for a decoded object, whose later fields override earlier
    ones of the same name. *)
Fixpoint object_get (fields : list (string * Json)) (key : string) : option Json :=
  match fields with
  | [] => None
  | (k, v) :: rest =>
      match object_get rest key with
      | Some later => Some later
      | None => if bool_decide (k = key) then Some v else None
      end
  end.

(** [value[key]] with a string key: only an object can be indexed so. *)
Definition subscript (value : Json) (key : string) : Outcome Json :=
  match value with
  | JObject fields =>
      match object_get fields key with
      | Some v => Returned v
      | None => Raised (KeyError key)
      end
  | JArray _ => Raised (TypeError "list indices must be integers or slices, not str")
  | JString _ => Raised (TypeError "string indices must be integers, not 'str'")
  | JNull => Raised (TypeError "'NoneType' object is not subscriptable")
  | JBool _ => Raised (TypeError "'bool' object is not subscriptable")
  | JInt _ => Raised (TypeError "'int' object is not subscriptable")
  | JFloat _ => Raised (TypeError "'float' object is not subscriptable")
  end.

(** [text == value] for a [str] against a decoded value. *)
Definition str_eq_json (text : string) (value : Json) : bool :=
  match value with
  | JString s => bool_decide (text = s)
  | _ => false
  end.

Definition PBS_RELEASE : string := "20241206".
Definition PBS_VERSION : string := "3.12.8".
Definition PBS_FLAVOR : string := "install_only_stripped".

(** [text.split(sep)] for a one-character separator. *)
Fixpoint split_on (sep : ascii) (text : string) : list string :=
  match text with
  | EmptyString => [EmptyString]
  | String c rest =>
      if Ascii.eqb c sep then EmptyString :: split_on sep rest
      else match split_on sep rest with
           | [] => [String c EmptyString]
           | first :: more => String c first :: more
           end
  end.

Definition REQUIRES_PYTHON_VERSION : string :=
  Py.join "." (take 2 (split_on "." PBS_VERSION)).

Definition PEX_REQUIREMENT : string := "pex==2.25.2".

Section Automation.

(** [Path().resolve()] at import time. *)
Variable BUILD_ROOT : Path.

(** [session.cache_dir]. *)
Variable cache_dir : Path.

(** [hashlib.sha1(data).hexdigest()] and
    [hashlib.sha256(data).hexdigest()]. *)
Variable sha1_hexdigest : string -> string.
Variable sha256_hexdigest : string -> string.

(** [session.install] and [session.run]: an external command that may
    change the disk, fails by raising, and whose output is returned when
    silent. *)
Variable session_install : list string -> Disk -> Outcome unit * Disk.
Variable session_run : RunCall -> Disk -> Outcome (option string) * Disk.

(** [sorted(glob.glob(pattern))], as paths. *)
Variable sorted_glob : string -> Disk -> list Path.

(** [path.with_suffix(suffix)]. *)
Variable with_suffix : Path -> string -> Path.

(** [urllib.request.urlopen(url).read()], the whole body. *)
Variable url_read : string -> Outcome string.

(** [body.decode().strip()]. *)
Variable decode_strip : string -> Outcome string.

(** The name [tempfile] picks for a directory below [dir] with the
    given prefix. *)
Variable mkdtemp_in : Path -> string -> Disk -> Path.

(** [tarfile.open(fileobj=archive).extractall(chroot)]. *)
Variable extractall : string -> Path -> Disk -> Outcome unit * Disk.

(** [textwrap.dedent(text)]. *)
Variable dedent : string -> string.

(** Decoding the bytes of a text file, [json.loads] and [json.dumps(...,
    indent=2, sort_keys=True)], and [str(value)] in an f-string. *)
Variable decode : string -> Outcome string.
Variable json_loads : string -> Outcome Json.
Variable json_dumps : Json -> string.
Variable format_value : Json -> string.

Definition PEX_PEX : string :=
  "pex-" +:+ sha1_hexdigest PEX_REQUIREMENT +:+ ".pex".

Definition LOCK_FILE : Path := BUILD_ROOT ++ ["lock.json"].

Definition WINDOWS_AMD64_COMPLETE_PLATFORM : Path :=
  BUILD_ROOT ++ ["complete-platform.windows-amd64-py3.12.json"].

Definition NOX_SUPPORT_DIR : Path := BUILD_ROOT ++ ["nox-support"].

Definition install (args : list string) : N unit := fun st =>
  let '(r, d) := session_install args (disk st) in
  (r, {| disk := d; log := log st ++ [Installed args] |}).

Definition run (call : RunCall) : N (option string) := fun st =>
  let '(r, d) := session_run call (disk st) in
  (r, {| disk := d; log := log st ++ [Ran call] |}).

Definition plain_run (args : list string) : RunCall :=
  {| run_args := args; run_env := ∅; run_silent := false; run_external := false |}.

(** Lines 123-136. *)
Definition run_pex (script : string) (args : list string) (silent : bool)
    (env : gmap string string) : N (option string) :=
  let pex_pex := cache_dir ++ [PEX_PEX] in
  exists_already ← (fun st => (Returned (disk_exists (disk st) pex_pex), st));
  _ ← (if negb exists_already
       then
         _ ← install [PEX_REQUIREMENT];
         _ ← run (plain_run ["pex"; PEX_REQUIREMENT; "--venv"; "--sh-boot"; "-o";
                             path_str pex_pex]);
         _ ← run (plain_run ["python"; "-m"; "pip"; "uninstall"; "-y"; "pex"]);
         mret tt
       else mret tt);
  run {| run_args := "python" :: path_str pex_pex :: args;
         run_env := env ∪ {[ "PEX_SCRIPT" := script ]};
         run_silent := silent;
         run_external := false |}.

(** [for x in xs: body(x)]. *)
Fixpoint nfor_each {A} (xs : list A) (body : A -> N unit) : N unit :=
  match xs with
  | [] => mret tt
  | x :: rest => _ ← body x; nfor_each rest body
  end.

(** The digest loop of lines 144-147: the bytes of the files, one
    after the other. *)
Fixpoint read_all (paths : list Path) : N string :=
  match paths with
  | [] => mret EmptyString
  | p :: rest => data ← read_bytes p; more ← read_all rest; mret (data +:+ more)
  end.

(** Lines 140-143. *)
Definition all_requirements (d : Disk) : list Path :=
  (BUILD_ROOT ++ ["requirements.txt"])
  :: sorted_glob (path_str (NOX_SUPPORT_DIR ++ ["*-reqs.txt"])) d.

Definition lock_checksum_file : Path := NOX_SUPPORT_DIR ++ ["lock.checksums"].

(** Lines 152-155: the recorded checksums. *)
Definition load_checksums : N (Json * Json) :=
  bytes ← read_bytes lock_checksum_file;
  text ← nlift (decode bytes);
  checksum_data ← nlift (json_loads text);
  expected_requirements_checksum ← nlift (subscript checksum_data "requirements_checksum");
  expected_lock_checksum ← nlift (subscript checksum_data "lock_checksum");
  mret (expected_requirements_checksum, expected_lock_checksum).

(** Lines 149-179: whether the lock must be created. *)
Definition decide_create_lock (requirements_checksum : string) : N bool := fun st =>
  if disk_exists (disk st) LOCK_FILE && disk_exists (disk st) lock_checksum_file
  then
    try_except_else load_checksums
      (fun e => isinstance e "OSError" || isinstance e "ValueError"
                || isinstance e "KeyError")
      (fun e =>
         _ ← warn ("Failed to load lock checksum file at "
                   +:+ path_str lock_checksum_file +:+ ": " +:+ exc_str e);
         mret true)
      (fun expected =>
         if str_eq_json requirements_checksum expected.1
         then
           lock_bytes ← read_bytes LOCK_FILE;
           let lock_checksum := sha256_hexdigest lock_bytes in
           if str_eq_json lock_checksum expected.2
           then mret false
           else
             _ ← warn ("Lock checksum changed from " +:+ format_value expected.2
                       +:+ " to " +:+ lock_checksum +:+ ", re-generating lock...");
             mret true
         else
           _ ← warn ("Requirements checksum changed from " +:+ format_value expected.1
                     +:+ " to " +:+ requirements_checksum +:+ ", re-generating lock...");
           mret true)
      st
  else if disk_exists (disk st) LOCK_FILE
  then
    (_ ← warn ("The lock checksum file " +:+ path_str lock_checksum_file
               +:+ " does not exist, re-generating lock...");
     mret true) st
  else
    (_ ← warn ("The lock file " +:+ path_str LOCK_FILE
               +:+ " does not exist, re-generating lock...");
     mret true) st.

(** What [json.dumps] is given at lines 203-208, keys sorted. *)
Definition checksums_object (requirements_checksum lock_checksum : string) : Json :=
  JObject [("lock_checksum", JString lock_checksum);
           ("requirements_checksum", JString requirements_checksum)].

(** Lines 180-208: creating the lock and recording the checksums. *)
Definition create_lock_file (requirements : list Path) (requirements_checksum : string)
    : N unit :=
  _ ← run_pex "pex3"
        (["lock"; "create"]
         ++ flat_map (fun req => ["-r"; path_str req]) requirements
         ++ ["--interpreter-constraint"; "==" +:+ REQUIRES_PYTHON_VERSION +:+ ".*";
             "--style"; "universal"; "--pip-version"; "latest";
             "--resolver-version"; "pip-2020-resolver";
             "--elide-unused-requires-dist"; "--indent"; "2";
             "-o"; path_str LOCK_FILE])
        false ∅;
  lock_bytes ← read_bytes LOCK_FILE;
  write_text lock_checksum_file
    (json_dumps (checksums_object requirements_checksum (sha256_hexdigest lock_bytes))).

(** Lines 210-227: one subset lock per requirements file. *)
Definition export_subset (create_lock : bool) (subset : Path) : N unit :=
  let subset_lock := with_suffix subset ".windows-amd64.lock.txt" in
  present ← (fun st => (Returned (disk_exists (disk st) subset_lock), st));
  if negb create_lock && present
  then mret tt
  else
    _ ← run_pex "pex3"
          ["lock"; "export-subset"; "--lock"; path_str LOCK_FILE;
           "-r"; path_str subset;
           "--complete-platform"; path_str WINDOWS_AMD64_COMPLETE_PLATFORM;
           "-o"; path_str subset_lock]
          false ∅;
    mret tt.

(** Lines 139-229. *)
Definition maybe_create_lock : N bool :=
  requirements ← (fun st => (Returned (all_requirements (disk st)), st));
  requirements_bytes ← read_all requirements;
  let requirements_checksum := sha256_hexdigest requirements_bytes in
  create_lock ← decide_create_lock requirements_checksum;
  _ ← (if create_lock
       then create_lock_file requirements requirements_checksum
       else mret tt);
  _ ← nfor_each requirements (export_subset create_lock);
  mret create_lock.

(** The list built at lines 342-348 of [python_session]: the
    requirements files of a session function named [name]. *)
Definition session_requirements (name : string) (extra_reqs : list string)
    (include_project : bool) (d : Disk) : list Path :=
  flat_map (fun req =>
              let session_reqs := NOX_SUPPORT_DIR ++ [req +:+ "-reqs.txt"] in
              if bool_decide (req ∈ extra_reqs)
                 || bool_decide (is_Some (disk_files d !! session_reqs))
              then [session_reqs] else [])
           (name :: extra_reqs)
  ++ (if include_project then [BUILD_ROOT ++ ["requirements.txt"]] else []).

(** [urllib.request.urlopen(url)] and reading the response. *)
Definition urlopen (url : string) : N string := fun st =>
  (url_read url, {| disk := disk st; log := log st ++ [UrlOpened url] |}).

(** [with tempfile.TemporaryDirectory(dir=dir, prefix=prefix) as td]:
    the directory is made, and removed when the block is left, if it is
    still there. *)
Definition temporary_directory_in {A} (dir : Path) (prefix : string)
    (body : Path -> N A) : N A := fun st =>
  let td := mkdtemp_in dir prefix (disk st) in
  let st1 := {| disk := {| disk_files := disk_files (disk st);
                           disk_dirs := disk_dirs (disk st) ∪ {[ td ]} |};
                log := log st |} in
  let '(r, st2) := body td st1 in
  (r, {| disk := disk_rmtree td (disk st2); log := log st2 |}).

Definition pbs_root : Path :=
  BUILD_ROOT ++ [".nox"; "PBS"; PBS_RELEASE; PBS_VERSION; PBS_FLAVOR].

Definition message_indent : string := "                            ".

Definition pbs_url (target_triple : string) : string :=
  "https://github.com/indygreg/python-build-standalone/releases/download/"
  +:+ PBS_RELEASE +:+ "/"
  +:+ "cpython-" +:+ PBS_VERSION +:+ "+" +:+ PBS_RELEASE +:+ "-" +:+ target_triple
  +:+ "-" +:+ PBS_FLAVOR +:+ ".tar.gz".

(** The f-string of lines 278-282 with its values filled in: each of
    its lines, the last one before the closing quotes too, starts with
    the 28 spaces the source indents it by. *)
Definition unexpected_contents_text (url expected_hash actual_hash : string) : string :=
  message_indent +:+ "The PBS archive downloaded from " +:+ url
  +:+ " had unexpected contents:" +:+ Py.nl
  +:+ message_indent +:+ "Expected sha256 hash: " +:+ expected_hash +:+ Py.nl
  +:+ message_indent +:+ "Actual sha256 hash:   " +:+ actual_hash +:+ Py.nl
  +:+ message_indent.

(** Lines 277-283: the message of the [ValueError], dedented after the
    values have been filled in. *)
Definition unexpected_contents (url expected_hash actual_hash : string) : string :=
  dedent (unexpected_contents_text url expected_hash actual_hash).

(** Lines 270-289: the archive is fetched into the fresh directory,
    checked and unpacked, and the directory then becomes [pbs_root]. *)
Definition prepare_PBS (url expected_hash : string) (chroot : Path) : N unit :=
  archive ← urlopen url;
  let actual_hash := sha256_hexdigest archive in
  _ ← (if bool_decide (expected_hash ≠ actual_hash)
       then nraise (ValueError (unexpected_contents url expected_hash actual_hash))
       else fun st =>
              let '(r, d) := extractall archive chroot (disk st) in
              (r, {| disk := d; log := log st |}));
  replace_dir chroot pbs_root.

(** Lines 258-290. *)
Definition ensure_PBS_python_dist (target_triple : string) : N Path :=
  present ← (fun st => (Returned (disk_exists (disk st) pbs_root), st));
  _ ← (if negb present
       then
         let url := pbs_url target_triple in
         body ← urlopen (url +:+ ".sha256");
         expected_hash ← nlift (decode_strip body);
         _ ← disk_mkdir_parents (parent pbs_root);
         temporary_directory_in (parent pbs_root) "PBS-prepare."
                                (prepare_PBS url expected_hash)
       else mret tt);
  mret pbs_root.

End Automation.

End Nox.

(** * Properties *)

(** ** Example inputs *)

Module Examples.

Definition linux_x86_64 : Platform := {| value := "linux-x86_64" |}.
Definition macos_aarch64 : Platform := {| value := "macos-aarch64" |}.

Definition cpython : Interpreter :=
  {| interpreter_id := "cpython"; provider := "PythonBuildStandalone";
     interpreter_version := "3.11"; interpreter_lazy := false |}.

Definition data_txt : File :=
  {| file_name := "data.txt"; file_key := None; file_digest := None;
     file_source := Fetch "https://example.com" false |}.

Definition local_txt : File :=
  {| file_name := "local.txt"; file_key := None; file_digest := None;
     file_source := NoSource |}.

(** A manifest for two platforms. *)
Definition example_app : Application :=
  {| name := "example"; description := None;
     interpreters := [cpython]; files := [data_txt; local_txt];
     platforms := {[ linux_x86_64; macos_aarch64 ]};
     scie_jump := None; Model.app_info := [] |}.

(** The same manifest asking for scie-jump 0.8.3. *)
Definition old_jump_app : Application :=
  {| name := "example"; description := None;
     interpreters := [cpython]; files := [data_txt; local_txt];
     platforms := {[ linux_x86_64; macos_aarch64 ]};
     scie_jump := Some {| version := Some (Version.final [0; 8; 3]%N);
                          scie_jump_digest := None |};
     Model.app_info := [] |}.

Definition lift_toml : BinaryIO := {| io_name := "lift.toml"; io_bytes := EmptyString |}.

Definition parses_to (application : Application) : BinaryIO -> string -> Outcome Application :=
  fun _ _ => Returned application.

Definition empty_fs : FS := {| fs_files := ∅; fs_dirs := ∅ |}.

Definition start : State := {| fs := empty_fs; events := [] |}.

Definition sandbox : Path := ["tmp"; "science-sandbox"].

Definition dist : Path := ["work"; "dist"].

Definition jump_clone : Path := ["src"; "jump"].

(** An assembler that gives up. *)
Definition failing_assembler (args : AssembleArgs) (store : FS) : Outcome AssemblyInfo * FS :=
  (Raised (InputError "no such provider"), store).

(** An assembler that leaves one scie and its checksum in its
    destination directory. *)
Definition one_scie_assembler (args : AssembleArgs) (store : FS) : Outcome AssemblyInfo * FS :=
  let d := arg_dest_dir args in
  (Returned {| native_jump := d ++ ["scie-jump"];
               scies := [ {| lift_manifest := d ++ ["lift.json"];
                             scie := d ++ ["example"];
                             hashes := [d ++ ["example.sha256"]] |} ] |},
   {| fs_files := <[d ++ ["example.sha256"] := RegularFile "00 *example"]>
                    (<[d ++ ["example"] := RegularFile "scie"]> (fs_files store));
      fs_dirs := fs_dirs store |}).

(** A stand-in for a hash function: one hexadecimal digit per byte. *)
Definition nibble (c : ascii) : ascii :=
  match (nat_of_ascii c mod 16)%nat with
  | 0 => "0" | 1 => "1" | 2 => "2" | 3 => "3" | 4 => "4" | 5 => "5"
  | 6 => "6" | 7 => "7" | 8 => "8" | 9 => "9" | 10 => "a" | 11 => "b"
  | 12 => "c" | 13 => "d" | 14 => "e" | _ => "f"
  end%char.

Fixpoint nibbles (data : string) : string :=
  match data with
  | EmptyString => EmptyString
  | String c rest => String (nibble c) (nibbles rest)
  end.

Definition nibble_digest (algorithm data : string) : string := nibbles data.

(** A sandbox holding the finished scie [app]. *)
Definition assembled_store : gmap Path Node :=
  {[ sandbox ++ ["app"] := RegularFile "scie bytes" ]}.

(** A build of [example_app] into [dist] with [--hash sha256], the
    sandbox at [sandbox]. *)
Definition delivered_run : Outcome unit * State :=
  _build linux_x86_64 "science" (parses_to example_app) (fun _ => sandbox)
         one_scie_assembler (_lift [] [] false None []) lift_toml dist
         false false None ["sha256"] start.

End Examples.

(** ** Example inputs for the remaining commands *)

Module MoreExamples.
Import Examples ExportCommand MainCommand.

(** A generator yielding the given manifests, writing each one first. *)
Fixpoint manifests_generator (items : list (Platform * Path)) : Generator (Platform * Path) :=
  Gen (fun store =>
         match items with
         | [] => (Returned None, store)
         | item :: rest =>
             (Returned (Some (item, manifests_generator rest)),
              {| fs_files := <[item.2 := RegularFile "{}"]> (fs_files store);
                 fs_dirs := fs_dirs store |})
         end).

(** One manifest per platform, each in the platform's directory of the
    sandbox. *)
Definition per_platform_manifests (lift_config : LiftConfig)
    (application : Application) (td : Path) : Generator (Platform * Path) :=
  manifests_generator
    (map (fun platform => (platform, td ++ [value platform; "lift.json"]))
         (elements (platforms application))).

Definition exported_run : Outcome unit * State :=
  export linux_x86_64 (parses_to example_app) (fun _ => sandbox)
         per_platform_manifests (_lift [] [] false None []) lift_toml dist false start.

(** [ScienceConfig.verbose]: more [-v] than [-q]. *)
Definition verbose_positive (science_config : ScienceConfig) : bool :=
  (0 <? verbosity science_config)%Z.

Definition windows_x86_64 : Platform := {| value := "windows-x86_64" |}.

(** A manifest for macOS only. *)
Definition macos_app : Application :=
  {| name := "example"; description := None;
     interpreters := [cpython]; files := [];
     platforms := {[ macos_aarch64 ]};
     scie_jump := None; Model.app_info := [] |}.

(** A store holding an assembled scie and its checksum in the sandbox. *)
Definition staged_store : FS :=
  {| fs_files := {[ sandbox ++ ["example"] := RegularFile "scie";
                    sandbox ++ ["example.sha256"] := RegularFile "00 *example" ]};
     fs_dirs := {[ sandbox ]} |}.

Definition staged_info : AssemblyInfo :=
  {| native_jump := sandbox ++ ["scie-jump"];
     scies := [ {| lift_manifest := sandbox ++ ["lift.json"];
                   scie := sandbox ++ ["example"];
                   hashes := [sandbox ++ ["example.sha256"]] |} ] |}.

End MoreExamples.

(** ** Example inputs for the build automation *)

Module NoxExamples.
Import Nox.

Definition repo : Path := ["repo"].

Definition pex_cache : Path := ["cache"].

(** Stand-ins for the hash functions, the decoder and the JSON codec:
    the codec writes the two checksums of the checksum file separated by
    a space. *)
Definition toy_sha (data : string) : string := Examples.nibble_digest "sha" data.

Definition toy_decode (bytes : string) : Outcome string := Returned bytes.

Definition toy_dumps (value : Json) : string :=
  match value with
  | JObject [(_, JString lock_checksum); (_, JString requirements_checksum)] =>
      lock_checksum +:+ " " +:+ requirements_checksum
  | _ => EmptyString
  end.

Definition toy_loads (text : string) : Outcome Json :=
  let '(lock_checksum, requirements_checksum) := PostProcess.split_at_space text in
  Returned (checksums_object requirements_checksum lock_checksum).

Definition toy_format (value : Json) : string :=
  match value with
  | JString s => s
  | _ => "?"
  end.

Definition toy_with_suffix (p : Path) (suffix : string) : Path :=
  parent p ++ [path_name p +:+ suffix].

Definition no_glob (pattern : string) (d : Disk) : list Path := [].

Definition toy_install (args : list string) (d : Disk) : Outcome unit * Disk :=
  (Returned tt, d).

(** A command runner under which every command leaves a lock file. *)
Definition toy_run (call : RunCall) (d : Disk) : Outcome (option string) * Disk :=
  (Returned None,
   {| disk_files := <[repo ++ ["lock.json"] := "locked"]> (disk_files d);
      disk_dirs := disk_dirs d |}).

(** A checkout without a lock. *)
Definition fresh_checkout : NoxState :=
  {| disk := {| disk_files := {[ repo ++ ["requirements.txt"] := "click" ]};
                disk_dirs := {[ repo; repo ++ ["nox-support"] ]} |};
     log := [] |}.

(** A checkout whose lock and recorded checksums are current. *)
Definition current_checkout : NoxState :=
  {| disk := {| disk_files :=
                  {[ repo ++ ["requirements.txt"] := "click";
                     repo ++ ["lock.json"] := "locked";
                     repo ++ ["nox-support"; "lock.checksums"] :=
                       toy_sha "locked" +:+ " " +:+ toy_sha "click";
                     repo ++ ["requirements.txt.windows-amd64.lock.txt"] := "pinned" ]};
                disk_dirs := {[ repo; repo ++ ["nox-support"] ]} |};
     log := [] |}.

(** A checkout whose checksum file holds a JSON array. *)
Definition array_checkout : NoxState :=
  {| disk := {| disk_files :=
                  {[ repo ++ ["lock.json"] := "locked";
                     repo ++ ["nox-support"; "lock.checksums"] := "[]" ]};
                disk_dirs := {[ repo; repo ++ ["nox-support"] ]} |};
     log := [] |}.

Definition created_run : Outcome unit * NoxState :=
  create_lock_file repo pex_cache toy_sha toy_sha toy_install toy_run toy_dumps
                   [repo ++ ["requirements.txt"]] (toy_sha "click") fresh_checkout.

(** The network: a checksum that does not belong to the archive. *)
Definition bad_network (url : string) : Outcome string :=
  Returned (if bool_decide (url = pbs_url "x86_64-unknown-linux-gnu" +:+ ".sha256")
            then "00" else "archive").

(** The network: the checksum published for the archive. *)
Definition good_network (url : string) : Outcome string :=
  Returned (if bool_decide (url = pbs_url "x86_64-unknown-linux-gnu" +:+ ".sha256")
            then toy_sha "archive" else "archive").

Definition toy_strip (body : string) : Outcome string := Returned body.

Definition toy_mkdtemp (dir : Path) (prefix : string) (d : Disk) : Path :=
  dir ++ [prefix +:+ "0"].

Definition toy_extract (archive : string) (chroot : Path) (d : Disk)
    : Outcome unit * Disk :=
  (Returned tt,
   {| disk_files := <[chroot ++ ["python"] := archive]> (disk_files d);
      disk_dirs := disk_dirs d |}).

(** A stand-in for [textwrap.dedent]: the text with its leading
    spaces removed. *)
Fixpoint toy_dedent (text : string) : string :=
  match text with
  | String " " rest => toy_dedent rest
  | _ => text
  end.

Definition empty_checkout : NoxState :=
  {| disk := {| disk_files := ∅; disk_dirs := {[ repo ]} |}; log := [] |}.

End NoxExamples.

(** ** Example inputs for the laziness overrides *)

Module StagingExamples.
Import Examples MoreExamples ExportCommand.


(** An export that, whatever the final flags, writes one manifest per
    platform. *)
Definition staged_exporter (flags : list (string * bool))
    : LiftConfig -> Application -> Path -> Generator (Platform * Path) :=
  per_platform_manifests.

(** [science lift --invert-lazy missing-id]. *)
Definition missing_id : LiftConfig := _lift [] ["missing-id"] false None [].

(** [science lift --invert-lazy data.txt]. *)
Definition toggle_data_txt : LiftConfig := _lift [] ["data.txt"] false None [].



End StagingExamples.

(** ** The fatal error hook *)

Section FatalProperties.
Import Fatal.

(** C8 does not hold as stated: with backtraces forced (verbose
    mode), an [InputError] is rendered with its traceback and type,
    not as the message only. *)
Lemma C8_verbose_input_error_counterexample :
  isinstance_InputError (InputError "bad manifest") = true ∧
  _log_fatal InputError_t (InputError "bad manifest") ["  File exe.py, line 1"] true
    ≠ message_only (InputError "bad manifest").
Proof. split; [reflexivity | discriminate]. Qed.

(** C8 (amended): an [InputError] is rendered as the message only,
    with no backtrace and no exception type, unless backtraces are
    forced by [always_include_backtrace]; every other failure, and
    every failure when backtraces are forced, is rendered with the
    traceback and the exception type before the message. *)
Theorem C8_log_fatal_rendering (type_ : ExcType) (value : Exc) (tb : Traceback)
    (always_include_backtrace : bool) :
  _log_fatal type_ value tb always_include_backtrace =
    if negb always_include_backtrace && isinstance_InputError value
    then message_only value
    else with_cause type_ value tb.
Proof.
  unfold _log_fatal, message_only, with_cause.
  destruct always_include_backtrace, (isinstance_InputError value); reflexivity.
Qed.

End FatalProperties.

(** ** The [lift] options *)

Section LiftProperties.

(** C3: when at least one [--app-info] override is given, provenance
    is included whatever [--include-provenance] says; with no override
    the inclusion is the flag's value. *)
Theorem C3_app_info_implies_provenance (file_mappings : list FileMapping)
    (invert_lazy_ids : list string) (flag : bool) (app_name : option string)
    (overrides : list AppInfo) :
  include_provenance (_lift file_mappings invert_lazy_ids flag app_name overrides) =
    match overrides with
    | [] => flag
    | _ :: _ => true
    end.
Proof. destruct overrides, flag; reflexivity. Qed.

(** C9: the configuration, which is all a sub-command gets to see of
    the [--invert-lazy] options, depends only on the set of distinct
    ids: two id lists with the same members give the same
    configuration. *)
Theorem C9_invert_lazy_ids_as_set (file_mappings : list FileMapping)
    (ids1 ids2 : list string) (flag : bool) (app_name : option string)
    (overrides : list AppInfo) :
  (∀ id, id ∈ ids1 ↔ id ∈ ids2) →
  _lift file_mappings ids1 flag app_name overrides =
  _lift file_mappings ids2 flag app_name overrides.
Proof.
  intros Hsame. unfold _lift. f_equal.
  apply set_eq. intros id. rewrite !elem_of_list_to_set. apply Hsame.
Qed.

Lemma C9_invert_lazy_ids_as_set_witness :
  _lift [] ["cpython"; "cpython"] false None [] = _lift [] ["cpython"] false None [].
Proof.
  apply (C9_invert_lazy_ids_as_set [] ["cpython"; "cpython"] ["cpython"] false None []).
  intros id. rewrite !list_elem_of_In. simpl. tauto.
Defined.

(** C5 does not hold as stated: the empty string is an override the
    command line can pass, and it leaves the parsed name in place. *)
Lemma C5_empty_override_counterexample :
  app_name (_lift [] [] false (Some EmptyString) []) = Some EmptyString ∧
  ∃ application,
    parse_application (Examples.parses_to Examples.example_app)
      (_lift [] [] false (Some EmptyString) []) Examples.lift_toml
    = Returned application ∧
    name application ≠ EmptyString.
Proof. split; [reflexivity |]. eexists. split; [reflexivity | discriminate]. Qed.

(** C5 (amended): for every parsed application and every non-empty
    [--app-name] override, the result is a new application whose name
    is the override and whose every other field is that of the parsed
    application; with no override, or with the empty string, the parsed
    application is returned unchanged. *)
Theorem C5_app_name_override
    (parse_config : BinaryIO -> string -> Outcome Application)
    (lift_config : LiftConfig) (config : BinaryIO) (application : Application) :
  parse_config config (io_name config) = Returned application →
  match app_name lift_config with
  | Some (String c rest) =>
      ∃ application',
        parse_application parse_config lift_config config = Returned application' ∧
        name application' = String c rest ∧
        description application' = description application ∧
        interpreters application' = interpreters application ∧
        files application' = files application ∧
        platforms application' = platforms application ∧
        scie_jump application' = scie_jump application ∧
        Model.app_info application' = Model.app_info application
  | Some EmptyString | None =>
      parse_application parse_config lift_config config = Returned application
  end.
Proof.
  intros Hparse. unfold parse_application. rewrite Hparse.
  destruct (app_name lift_config) as [[|c rest]|]; simpl; [done | | done].
  eexists. split; [reflexivity |]. simpl. repeat split.
Qed.

Lemma C5_app_name_override_witness :
  ∃ application',
    parse_application (Examples.parses_to Examples.example_app)
      (_lift [] [] false (Some "example-thin") []) Examples.lift_toml
    = Returned application' ∧
    name application' = "example-thin" ∧
    description application' = description Examples.example_app ∧
    interpreters application' = interpreters Examples.example_app ∧
    files application' = files Examples.example_app ∧
    platforms application' = platforms Examples.example_app ∧
    scie_jump application' = scie_jump Examples.example_app ∧
    Model.app_info application' = Model.app_info Examples.example_app.
Proof.
  apply (C5_app_name_override (Examples.parses_to Examples.example_app)
           (_lift [] [] false (Some "example-thin") []) Examples.lift_toml
           Examples.example_app).
  reflexivity.
Defined.

End LiftProperties.

(** ** The monad and the trace *)

Section TraceFacts.

Lemma appends_ret {A} (P : Event -> Prop) (a : A) : appends P (mret a).
Proof.
  intros w r w' Hrun. injection Hrun as <- <-.
  exists []. by rewrite app_nil_r.
Qed.

Lemma appends_bind {A B} (P : Event -> Prop) (m : M A) (k : A -> M B) :
  appends P m → (∀ a, appends P (k a)) → appends P (m ≫= k).
Proof.
  intros Hm Hk w r w' Hrun.
  unfold mbind, M_bind in Hrun.
  destruct (m w) as [[a|e] w1] eqn:Hmw.
  - destruct (Hm _ _ _ Hmw) as (evs1 & Hev1 & HP1).
    destruct (Hk a _ _ _ Hrun) as (evs2 & Hev2 & HP2).
    exists (evs1 ++ evs2). split.
    + by rewrite Hev2, Hev1, (assoc_L (++)).
    + by apply Forall_app.
  - injection Hrun as <- <-. by apply (Hm _ _ _ Hmw).
Qed.

Lemma appends_emit (P : Event -> Prop) (ev : Event) : P ev → appends P (emit ev).
Proof.
  intros HP w r w' Hrun. injection Hrun as <- <-.
  exists [ev]. split; [done | by repeat constructor].
Qed.

Lemma appends_for_each {A} (P : Event -> Prop) (xs : list A) (body : A -> M unit) :
  (∀ x, x ∈ xs → appends P (body x)) → appends P (for_each xs body).
Proof.
  induction xs as [|x xs IH]; intros Hbody; simpl.
  - apply appends_ret.
  - apply appends_bind.
    + apply Hbody. by left.
    + intros _. apply IH. intros y Hy. apply Hbody. by right.
Qed.

Lemma appends_mkdir (P : Event -> Prop) (p : Path) :
  P (MakeDirs p) → appends P (mkdir_parents_exist_ok p).
Proof.
  intros HP w r w' Hrun. unfold mkdir_parents_exist_ok in Hrun.
  exists [MakeDirs p]. split; [| by repeat constructor].
  destruct (List.find _ _); by injection Hrun as <- <-.
Qed.

Lemma appends_shutil_move (P : Event -> Prop) (src dst : Path) :
  P (Move src dst) → appends P (shutil_move src dst).
Proof.
  intros HP w r w' Hrun. unfold shutil_move in Hrun.
  exists [Move src dst]. split; [| by repeat constructor].
  destruct (_ && _); [by injection Hrun as <- <- |].
  destruct (_ !! _); by injection Hrun as <- <-.
Qed.

Lemma appends_symlink_to (P : Event -> Prop) (link target : Path) :
  P (SymlinkTo link target) → appends P (symlink_to link target).
Proof.
  intros HP w r w' Hrun. unfold symlink_to in Hrun.
  exists [SymlinkTo link target]. split; [| by repeat constructor].
  destruct (exists_path _ _); by injection Hrun as <- <-.
Qed.

Lemma appends_move (dest_dir : Path) (preserve_sandbox : bool)
    (info : AssemblyInfo) (path : Path) :
  path ∈ artifacts info →
  appends (delivery_event dest_dir preserve_sandbox info) (move dest_dir path).
Proof.
  intros Hin. unfold move. apply appends_bind.
  - by apply appends_shutil_move.
  - intros _. by apply appends_emit.
Qed.

Lemma scie_in_artifacts (info : AssemblyInfo) (scie_assembly : ScieAssembly) :
  scie_assembly ∈ scies info → scie scie_assembly ∈ artifacts info.
Proof.
  intros Hin. unfold artifacts. apply list_elem_of_In, in_flat_map.
  exists scie_assembly. split; [by apply list_elem_of_In | by left].
Qed.

Lemma hash_in_artifacts (info : AssemblyInfo) (scie_assembly : ScieAssembly)
    (checksum_file : Path) :
  scie_assembly ∈ scies info → checksum_file ∈ hashes scie_assembly →
  checksum_file ∈ artifacts info.
Proof.
  intros Hin Hhash. unfold artifacts. apply list_elem_of_In, in_flat_map.
  exists scie_assembly. split; [by apply list_elem_of_In |].
  right. by apply list_elem_of_In.
Qed.

(** Delivery does nothing but make the destination directory, move
    artifacts into it and report. *)
Lemma deliver_appends (dest_dir : Path) (preserve_sandbox : bool)
    (info : AssemblyInfo) :
  appends (delivery_event dest_dir preserve_sandbox info)
          (deliver dest_dir preserve_sandbox info).
Proof.
  unfold deliver. apply appends_bind; [by apply appends_mkdir |].
  intros _. apply appends_for_each. intros scie_assembly Hin.
  apply appends_bind; [apply appends_move; by apply scie_in_artifacts |].
  intros _. apply appends_bind.
  - apply appends_for_each. intros checksum_file Hhash.
    apply appends_move. by eapply hash_in_artifacts.
  - intros _. destruct preserve_sandbox eqn:Hpreserve; [| apply appends_ret].
    apply appends_bind.
    + apply appends_symlink_to. simpl. eauto.
    + intros _. by apply appends_emit.
Qed.

Lemma rmtree_same_at (td p : Path) (store : FS) :
  ¬ td `prefix_of` p → same_at p (rmtree td store) store.
Proof.
  intros Hout. split; simpl.
  - destruct (fs_files store !! p) as [node|] eqn:Hp.
    + by apply map_lookup_filter_Some.
    + apply map_lookup_filter_None. by left.
  - rewrite elem_of_filter. tauto.
Qed.

Lemma with_sandbox_same_at (td p : Path) (store : FS) :
  ¬ td `prefix_of` p → same_at p (with_sandbox td store) store.
Proof.
  intros Hout. split; simpl; [done |].
  rewrite elem_of_union, elem_of_singleton. split; [| tauto].
  intros [? | ->]; [done |]. by destruct Hout.
Qed.

Lemma same_at_trans (p : Path) (s1 s2 s3 : FS) :
  same_at p s1 s2 → same_at p s2 s3 → same_at p s1 s3.
Proof. intros [H1 H1'] [H2 H2']. split; [congruence | tauto]. Qed.

End TraceFacts.

(** ** The [build] command *)

Section BuildProperties.

Variable Platform_current : Platform.
Variable argv0 : string.
Variable parse_config : BinaryIO -> string -> Outcome Application.
Variable mkdtemp : FS -> Path.
Variable assemble_scies : AssembleArgs -> FS -> Outcome AssemblyInfo * FS.

Abbreviation build := (_build Platform_current argv0 parse_config mkdtemp assemble_scies).
Abbreviation assemble_deliver := (assemble_and_deliver mkdtemp assemble_scies).

(** Selecting the platforms never raises, leaves the file system alone
    and says nothing but warnings. *)
Lemma select_platforms_run (application : Application) (platform_info : PlatformInfo)
    (use_jump : option Path) (use_platform_suffix : bool) (w : State) :
  ∃ warnings,
    select_platforms application platform_info use_jump use_platform_suffix w =
      (Returned (if truthy_path use_jump && use_platform_suffix
                 then {[ current platform_info ]}
                 else platforms application),
       {| fs := fs w; events := events w ++ warnings |}) ∧
    Forall is_warning warnings ∧
    (truthy_path use_jump && use_platform_suffix = false → warnings = []).
Proof.
  unfold select_platforms.
  destruct (truthy_path use_jump && use_platform_suffix).
  - exists [LogWarning
              "Cannot use a custom scie jump build with a multi-platform configuration.";
            LogWarning (restricting_message (platforms application) platform_info)].
    split; [| split; [by repeat constructor | done]].
    unfold mbind, M_bind, emit, mret, M_ret. simpl.
    by rewrite <- (assoc_L (++)).
  - exists []. split; [| done].
    unfold mret, M_ret. rewrite app_nil_r. by destruct w.
Qed.

(** The sandboxed part of the build: either the assembler raises and
    nothing is delivered, or it returns and delivery follows. *)
Lemma assemble_and_deliver_run (lift_config : LiftConfig) (application : Application)
    (dest_dir : Path) (platforms : gset Platform) (platform_info : PlatformInfo)
    (preserve_sandbox : bool) (use_jump : option Path) (hash_functions : list string)
    (w : State) (out : Outcome unit) (w' : State) :
  assemble_deliver lift_config application dest_dir platforms platform_info
                   preserve_sandbox use_jump hash_functions w = (out, w') →
  let td := mkdtemp (fs w) in
  let args := {| arg_lift_config := lift_config; arg_application := application;
                 arg_dest_dir := td; arg_platforms := platforms;
                 arg_platform_info := platform_info; arg_use_jump := use_jump;
                 arg_hash_functions := hash_functions |} in
  (∃ e store',
      assemble_scies args (with_sandbox td (fs w)) = (Raised e, store') ∧
      out = Raised e ∧
      events w' = events w ++ [SandboxCreated td; AssembleScies args] ∧
      fs w' = if negb preserve_sandbox then rmtree td store' else store')
  ∨ (∃ info store' rest,
      assemble_scies args (with_sandbox td (fs w)) = (Returned info, store') ∧
      events w' = events w ++ SandboxCreated td :: AssembleScies args :: rest ∧
      Forall (delivery_event dest_dir preserve_sandbox info) rest).
Proof.
  intros Hrun td args.
  unfold assemble_and_deliver, temporary_directory in Hrun.
  fold td in Hrun. fold args in Hrun.
  unfold mbind at 1, M_bind at 1, call_assemble_scies in Hrun. simpl in Hrun.
  change {| fs_files := fs_files (fs w); fs_dirs := fs_dirs (fs w) ∪ {[td]} |}
    with (with_sandbox td (fs w)) in Hrun.
  destruct (assemble_scies args (with_sandbox td (fs w))) as [[info|e] store'] eqn:Hasm.
  - right. exists info, store'.
    destruct (deliver dest_dir preserve_sandbox info _) as [r w2] eqn:Hdeliver.
    destruct (deliver_appends _ _ _ _ _ _ Hdeliver) as (rest & Hev & Hrest).
    exists rest. split; [done |]. split; [| done].
    simpl in Hev. injection Hrun as _ <-.
    rewrite <- (assoc_L (++)), <- (assoc_L (++)) in Hev. simpl in Hev.
    by destruct (negb preserve_sandbox).
  - left. exists e, store'. injection Hrun as <- <-.
    split; [done |]. split; [done |].
    rewrite <- (assoc_L (++)). by destruct (negb preserve_sandbox).
Qed.

(** The build, step by step, up to the sandbox. *)
Lemma build_run (lift_config : LiftConfig) (config : BinaryIO) (dest_dir : Path)
    (use_platform_suffix preserve_sandbox : bool) (use_jump : option Path)
    (hash_functions : list string) (w : State) (application : Application) :
  parse_application parse_config lift_config config = Returned application →
  ∃ warnings,
    Forall is_warning warnings ∧
    (truthy_path use_jump && use_platform_suffix = false → warnings = []) ∧
    build lift_config config dest_dir use_platform_suffix preserve_sandbox
          use_jump hash_functions w =
      (_ ← check_scie_jump_version argv0 application;
       assemble_deliver lift_config application dest_dir
         (if truthy_path use_jump && use_platform_suffix
          then {[ Platform_current ]} else platforms application)
         (PlatformInfo_create Platform_current application use_platform_suffix)
         preserve_sandbox use_jump hash_functions)
        {| fs := fs w; events := events w ++ warnings |}.
Proof.
  intros Hparse.
  destruct (select_platforms_run application
              (PlatformInfo_create Platform_current application use_platform_suffix)
              use_jump use_platform_suffix w) as (warnings & Hsel & Hwarn & Hnone).
  exists warnings. split; [done |]. split; [done |].
  unfold _build. rewrite Hparse.
  unfold mbind at 1, M_bind at 1, of_outcome.
  unfold mbind at 1, M_bind at 1. by rewrite Hsel.
Qed.

Lemma build_parse_raises (lift_config : LiftConfig) (config : BinaryIO)
    (dest_dir : Path) (use_platform_suffix preserve_sandbox : bool)
    (use_jump : option Path) (hash_functions : list string) (w : State) (e : Exc) :
  parse_application parse_config lift_config config = Raised e →
  build lift_config config dest_dir use_platform_suffix preserve_sandbox
        use_jump hash_functions w = (Raised e, w).
Proof.
  intros Hparse. unfold _build. rewrite Hparse. reflexivity.
Qed.

Lemma same_at_refl (p : Path) (store : FS) : same_at p store store.
Proof. by split. Qed.

(** C2: the [use_suffix] flag of the platform view is true if and only
    if more than one target platform remains after narrowing or the
    caller forced the suffix; for one remaining platform it is the
    forcing flag, for more than one it is true. *)
Theorem C2_use_suffix_rule (application : Application) (use_jump : option Path)
    (use_platform_suffix : bool) (w : State) :
  ∃ narrowed w',
    select_platforms application
      (PlatformInfo_create Platform_current application use_platform_suffix)
      use_jump use_platform_suffix w = (Returned narrowed, w') ∧
    (use_suffix (PlatformInfo_create Platform_current application use_platform_suffix) = true
     ↔ 1 < size narrowed ∨ use_platform_suffix = true) ∧
    (size narrowed = 1 →
     use_suffix (PlatformInfo_create Platform_current application use_platform_suffix)
     = use_platform_suffix) ∧
    (1 < size narrowed →
     use_suffix (PlatformInfo_create Platform_current application use_platform_suffix)
     = true).
Proof.
  destruct (select_platforms_run application
              (PlatformInfo_create Platform_current application use_platform_suffix)
              use_jump use_platform_suffix w) as (warnings & Hsel & _ & _).
  eexists _, _. split; [exact Hsel |].
  unfold PlatformInfo_create. cbn [use_suffix current].
  destruct (truthy_path use_jump && use_platform_suffix) eqn:Hnarrow.
  - apply andb_true_iff in Hnarrow as [_ ->]. cbn [orb].
    rewrite size_singleton. repeat split; auto; lia.
  - destruct use_platform_suffix; cbn [orb].
    + repeat split; auto.
    + case_bool_decide; repeat split; intros; try done; try lia; naive_solver.
Qed.

(** C4: nothing reaches the destination directory unless the assembly
    of the scies has returned.  Staging is handed the sandbox as its
    directory.  When the build does not get past assembly it raises and
    every path outside the sandbox, the destination directory included,
    is as it was; when assembly returns, what follows is the making of
    the destination directory and the moves of the assembled scies and
    their checksum files to their names in it. *)
Theorem C4_no_partial_output (lift_config : LiftConfig) (config : BinaryIO)
    (dest_dir : Path) (use_platform_suffix preserve_sandbox : bool)
    (use_jump : option Path) (hash_functions : list string)
    (w : State) (out : Outcome unit) (w' : State) :
  (∀ args store r store' p,
      assemble_scies args store = (r, store') →
      ¬ arg_dest_dir args `prefix_of` p → same_at p store' store) →
  build lift_config config dest_dir use_platform_suffix preserve_sandbox
        use_jump hash_functions w = (out, w') →
  ((∃ e, out = Raised e) ∧
   (∀ ev, ev ∈ events w' → ev ∈ events w ∨
      match ev with
      | LogWarning _ | SandboxCreated _ | AssembleScies _ => True
      | _ => False
      end) ∧
   (∀ p, ¬ mkdtemp (fs w) `prefix_of` p → same_at p (fs w') (fs w)))
  ∨ (∃ warnings args info store' rest,
       Forall is_warning warnings ∧
       arg_dest_dir args = mkdtemp (fs w) ∧
       assemble_scies args (with_sandbox (mkdtemp (fs w)) (fs w)) = (Returned info, store') ∧
       events w' = events w ++ warnings
                   ++ SandboxCreated (mkdtemp (fs w)) :: AssembleScies args :: rest ∧
       Forall (delivery_event dest_dir preserve_sandbox info) rest).
Proof.
  intros Hframe Hrun.
  destruct (parse_application parse_config lift_config config)
    as [application|e] eqn:Hparse.
  2:{ rewrite (build_parse_raises _ _ _ _ _ _ _ _ _ Hparse) in Hrun.
      injection Hrun as <- <-. left. split; [by eexists |].
      split; [by left | intros; apply same_at_refl]. }
  destruct (build_run lift_config config dest_dir use_platform_suffix
              preserve_sandbox use_jump hash_functions w application Hparse)
    as (warnings & Hwarn & _ & Hbuild).
  rewrite Hbuild in Hrun. clear Hbuild.
  assert (Hpre : ∀ ev, ev ∈ events w ++ warnings → ev ∈ events w ∨
      match ev with
      | LogWarning _ | SandboxCreated _ | AssembleScies _ => True
      | _ => False
      end).
  { intros ev [Hin | Hin]%elem_of_app; [by left | right].
    rewrite Forall_forall in Hwarn. specialize (Hwarn _ Hin). by destruct ev. }
  unfold mbind at 1, M_bind at 1, check_scie_jump_version in Hrun.
  assert (Hgate :
    (∃ e, out = Raised e ∧ w' = {| fs := fs w; events := events w ++ warnings |})
    ∨ assemble_deliver lift_config application dest_dir
        (if truthy_path use_jump && use_platform_suffix
         then {[ Platform_current ]} else platforms application)
        (PlatformInfo_create Platform_current application use_platform_suffix)
        preserve_sandbox use_jump hash_functions
        {| fs := fs w; events := events w ++ warnings |} = (out, w')).
  { destruct (scie_jump_version application) as [v|]; [| by right].
    destruct (Version.ltb v Version.v0_9_0); [| by right].
    left. injection Hrun as <- <-. by eexists. }
  clear Hrun. destruct Hgate as [(e & -> & ->) | Hrun].
  { left. split; [by eexists |]. split; [done | intros; apply same_at_refl]. }
  apply assemble_and_deliver_run in Hrun. simpl in Hrun.
  destruct Hrun as [(e & store' & Hasm & -> & Hev & Hfs)
                   | (info & store' & rest & Hasm & Hev & Hrest)].
  - left. split; [by eexists |]. split.
    + intros ev. rewrite Hev.
      intros [Hin | Hin]%elem_of_app; [by apply Hpre | right].
      apply elem_of_cons in Hin as [-> | Hin]; [done |].
      by apply list_elem_of_singleton in Hin as ->.
    + intros p Hout. rewrite Hfs.
      assert (Hstore : same_at p store' (fs w)).
      { eapply same_at_trans; [by eapply (Hframe _ _ _ _ p Hasm) |].
        by apply with_sandbox_same_at. }
      destruct (negb preserve_sandbox); [| done].
      eapply same_at_trans; [by apply rmtree_same_at | done].
  - right.
    match type of Hasm with
    | assemble_scies ?args _ = _ => exists warnings, args, info, store', rest
    end.
    split; [done |]. split; [reflexivity |]. split; [exact Hasm |].
    split; [| done]. by rewrite Hev, <- (assoc_L (++)).
Qed.

(** C10: when the manifest asks for a scie-jump version strictly below
    0.9.0 the build exits with a message naming that version, with the
    file system untouched and nothing but warnings said: no sandbox
    exists and the assembler was not called.  When no version is asked
    for, or one that is not below 0.9.0, the sandbox is created and the
    assembler is called for the parsed application. *)
Theorem C10_scie_jump_version_gate (lift_config : LiftConfig) (config : BinaryIO)
    (dest_dir : Path) (use_platform_suffix preserve_sandbox : bool)
    (use_jump : option Path) (hash_functions : list string)
    (w : State) (application : Application) :
  parse_application parse_config lift_config config = Returned application →
  ∃ warnings,
    Forall is_warning warnings ∧
    (∀ v, scie_jump_version application = Some v →
          Version.ltb v Version.v0_9_0 = true →
          build lift_config config dest_dir use_platform_suffix preserve_sandbox
                use_jump hash_functions w =
            (Raised (SystemExit ("A scie-jump version of " +:+ Version.str v
                                 +:+ " was requested but " +:+ argv0
                                 +:+ " requires at least 0.9.0.")),
             {| fs := fs w; events := events w ++ warnings |})) ∧
    ((∀ v, scie_jump_version application = Some v →
           Version.ltb v Version.v0_9_0 = false) →
     ∃ out w' args rest,
       build lift_config config dest_dir use_platform_suffix preserve_sandbox
             use_jump hash_functions w = (out, w') ∧
       arg_application args = application ∧
       events w' = events w ++ warnings
                   ++ SandboxCreated (mkdtemp (fs w)) :: AssembleScies args :: rest).
Proof.
  intros Hparse.
  destruct (build_run lift_config config dest_dir use_platform_suffix
              preserve_sandbox use_jump hash_functions w application Hparse)
    as (warnings & Hwarn & _ & Hbuild).
  exists warnings. split; [done |]. rewrite Hbuild. clear Hbuild.
  split.
  - intros v Hv Hlt.
    unfold mbind at 1, M_bind at 1, check_scie_jump_version.
    by rewrite Hv, Hlt.
  - intros Hok.
    unfold mbind at 1, M_bind at 1, check_scie_jump_version.
    assert (Hgate :
      match scie_jump_version application with
      | Some v => if Version.ltb v Version.v0_9_0
                  then raise (SystemExit (version_message argv0 v)) else mret tt
      | None => mret tt
      end {| fs := fs w; events := events w ++ warnings |}
      = (Returned tt, {| fs := fs w; events := events w ++ warnings |})).
    { destruct (scie_jump_version application) as [v|]; [| done].
      by rewrite (Hok v eq_refl). }
    rewrite Hgate.
    match goal with
    | |- context [assemble_and_deliver ?a ?b ?c ?d ?e ?f ?g ?h ?i ?j ?k] =>
        destruct (assemble_and_deliver a b c d e f g h i j k) as [out w'] eqn:Hrun
    end.
    apply assemble_and_deliver_run in Hrun. simpl in Hrun.
    destruct Hrun as [(e & store' & _ & _ & Hev & _)
                     | (info & store' & rest & _ & Hev & _)].
    + match type of Hev with
      | _ = _ ++ [_; AssembleScies ?args] => exists out, w', args, []
      end.
      split; [done |]. split; [reflexivity |].
      by rewrite Hev, <- (assoc_L (++)).
    + match type of Hev with
      | _ = _ ++ _ :: AssembleScies ?args :: _ => exists out, w', args, rest
      end.
      split; [done |]. split; [reflexivity |].
      by rewrite Hev, <- (assoc_L (++)).
Qed.

End BuildProperties.

(** ** The [build] command on example manifests *)

Section BuildExamples.
Import Examples.

Example version_str_example : Version.str (Version.final [0; 8; 3]%N) = "0.8.3".
Proof. reflexivity. Qed.

Example version_below_examples :
  Version.ltb (Version.final [0; 8; 3]%N) Version.v0_9_0 = true ∧
  Version.ltb {| Version.epoch := 0; Version.release := [0; 9; 0]%N;
                 Version.pre := Some (Version.TagRC, 1%N); Version.post := None;
                 Version.dev := None; Version.local := None |} Version.v0_9_0 = true ∧
  Version.ltb (Version.final [0; 9]%N) Version.v0_9_0 = false ∧
  Version.ltb (Version.final [0; 10; 0]%N) Version.v0_9_0 = false.
Proof. repeat split. Qed.

Example example_app_two_platforms : size (platforms example_app) = 2.
Proof. vm_compute. reflexivity. Qed.

(** C1, where the code departs from it: [example_app] targets two
    platforms and [--use-jump] is given, but [--use-platform-suffix] is
    not.  Whatever the assembler does, it is called with the custom
    jump and with both platforms, and no warning is logged. *)
Theorem C1_use_jump_multi_platform_not_narrowed
    (assemble_scies : AssembleArgs -> FS -> Outcome AssemblyInfo * FS) :
  1 < size (platforms example_app) ∧
  ∃ out w' args rest,
    _build linux_x86_64 "science" (parses_to example_app) (fun _ => sandbox)
           assemble_scies (_lift [] [] false None []) lift_toml dist
           false false (Some jump_clone) [] start = (out, w') ∧
    events w' = SandboxCreated sandbox :: AssembleScies args :: rest ∧
    arg_use_jump args = Some jump_clone ∧
    arg_platforms args = {[ linux_x86_64; macos_aarch64 ]} ∧
    Forall (fun ev => ¬ is_warning ev) (events w').
Proof.
  split; [rewrite example_app_two_platforms; lia |].
  destruct (build_run linux_x86_64 "science" (parses_to example_app)
              (fun _ => sandbox) assemble_scies (_lift [] [] false None [])
              lift_toml dist false false (Some jump_clone) [] start example_app
              eq_refl) as (warnings & _ & Hnone & Hbuild).
  rewrite (Hnone eq_refl) in Hbuild.
  match type of Hbuild with
  | _ = ?rhs => destruct rhs as [out w'] eqn:Hrun
  end.
  unfold mbind at 1, M_bind at 1 in Hrun. simpl in Hrun.
  apply assemble_and_deliver_run in Hrun. simpl in Hrun.
  destruct Hrun as [(e & store' & _ & _ & Hev & _)
                   | (info & store' & rest & _ & Hev & Hrest)].
  - eexists out, w', _, []. split; [exact Hbuild |].
    split; [exact Hev |]. split; [reflexivity |]. split; [reflexivity |].
    rewrite Hev. repeat constructor; auto.
  - eexists out, w', _, rest. split; [exact Hbuild |].
    split; [exact Hev |]. split; [reflexivity |]. split; [reflexivity |].
    rewrite Hev. repeat (constructor; [intros []|]).
    eapply Forall_impl; [exact Hrest |].
    intros [] Hdel; simpl in *; tauto.
Qed.

(** With [--use-platform-suffix] also given, the same build is
    narrowed to the host and warns first. *)
Example forced_suffix_use_jump_narrows :
  events (_build linux_x86_64 "science" (parses_to example_app) (fun _ => sandbox)
            failing_assembler (_lift [] [] false None []) lift_toml dist
            true false (Some jump_clone) [] start).2
  = [ LogWarning "Cannot use a custom scie jump build with a multi-platform configuration.";
      LogWarning "Restricting requested platforms of linux-x86_64, macos-aarch64 to linux-x86_64";
      SandboxCreated sandbox;
      AssembleScies
        {| arg_lift_config := _lift [] [] false None [];
           arg_application := example_app;
           arg_dest_dir := sandbox;
           arg_platforms := {[ linux_x86_64 ]};
           arg_platform_info := {| current := linux_x86_64; use_suffix := true |};
           arg_use_jump := Some jump_clone;
           arg_hash_functions := [] |} ].
Proof. vm_compute. reflexivity. Qed.

(** A successful build: the scie and its checksum end up in the
    destination directory and the sandbox is gone. *)
Example delivered_run_result :
  delivered_run.1 = Returned tt ∧
  fs_files (fs delivered_run.2) !! (dist ++ ["example"]) = Some (RegularFile "scie") ∧
  fs_files (fs delivered_run.2) !! (dist ++ ["example.sha256"])
    = Some (RegularFile "00 *example") ∧
  size (fs_files (fs delivered_run.2)) = 2 ∧
  bool_decide (dist ∈ fs_dirs (fs delivered_run.2)) = true ∧
  bool_decide (sandbox ∈ fs_dirs (fs delivered_run.2)) = false.
Proof. vm_compute. repeat split. Qed.

(** A failed assembly: nothing but the sandbox was ever there. *)
Example failed_run_result :
  _build linux_x86_64 "science" (parses_to example_app) (fun _ => sandbox)
         failing_assembler (_lift [] [] false None []) lift_toml dist
         false false None ["sha256"] start
  = (Raised (InputError "no such provider"),
     {| fs := empty_fs;
        events := [ SandboxCreated sandbox;
                    AssembleScies
                      {| arg_lift_config := _lift [] [] false None [];
                         arg_application := example_app;
                         arg_dest_dir := sandbox;
                         arg_platforms := {[ linux_x86_64; macos_aarch64 ]};
                         arg_platform_info :=
                           {| current := linux_x86_64; use_suffix := true |};
                         arg_use_jump := None;
                         arg_hash_functions := ["sha256"] |} ] |}).
Proof. vm_compute. reflexivity. Qed.

Lemma one_scie_assembler_frame (args : AssembleArgs) (store : FS)
    (r : Outcome AssemblyInfo) (store' : FS) (p : Path) :
  one_scie_assembler args store = (r, store') →
  ¬ arg_dest_dir args `prefix_of` p → same_at p store' store.
Proof.
  intros Hrun Hout. injection Hrun as <- <-. split; simpl; [| done].
  rewrite !lookup_insert_ne; [done | |];
    intros <-; apply Hout; by apply prefix_app_r.
Qed.

Lemma C4_no_partial_output_witness :
  ((∃ e, delivered_run.1 = Raised e) ∧
   (∀ ev, ev ∈ events delivered_run.2 → ev ∈ events start ∨
      match ev with
      | LogWarning _ | SandboxCreated _ | AssembleScies _ => True
      | _ => False
      end) ∧
   (∀ p, ¬ sandbox `prefix_of` p → same_at p (fs delivered_run.2) (fs start)))
  ∨ (∃ warnings args info store' rest,
       Forall is_warning warnings ∧
       arg_dest_dir args = sandbox ∧
       one_scie_assembler args (with_sandbox sandbox (fs start)) = (Returned info, store') ∧
       events delivered_run.2 = events start ++ warnings
                   ++ SandboxCreated sandbox :: AssembleScies args :: rest ∧
       Forall (delivery_event dist false info) rest).
Proof.
  apply (C4_no_partial_output linux_x86_64 "science" (parses_to example_app)
           (fun _ => sandbox) one_scie_assembler (_lift [] [] false None [])
           lift_toml dist false false None ["sha256"] start).
  - exact one_scie_assembler_frame.
  - apply surjective_pairing.
Defined.

Lemma C10_scie_jump_version_gate_witness :
  ∃ w1,
    _build linux_x86_64 "science" (parses_to old_jump_app) (fun _ => sandbox)
           one_scie_assembler (_lift [] [] false None []) lift_toml dist
           false false None [] start
    = (Raised (SystemExit
         "A scie-jump version of 0.8.3 was requested but science requires at least 0.9.0."),
       w1) ∧
    fs w1 = fs start ∧ Forall is_warning (events w1).
Proof.
  destruct (C10_scie_jump_version_gate linux_x86_64 "science" (parses_to old_jump_app)
              (fun _ => sandbox) one_scie_assembler (_lift [] [] false None [])
              lift_toml dist false false None [] start old_jump_app eq_refl)
    as (warnings & Hwarn & Hexit & _).
  eexists. split; [exact (Hexit _ eq_refl eq_refl) |].
  split; [reflexivity | exact Hwarn].
Defined.

End BuildExamples.

(** ** The laziness classifier *)

Section LazinessProperties.
Import Laziness ExportCommand.

Variable Platform_current : Platform.
Variable argv0 : string.
Variable parse_config : BinaryIO -> string -> Outcome Application.
Variable mkdtemp : FS -> Path.
Variable stage_and_assemble :
  list (string * bool) -> AssembleArgs -> FS -> Outcome AssemblyInfo * FS.
Variable stage_and_export :
  list (string * bool) -> LiftConfig -> Application -> Path -> Generator (Platform * Path).

Abbreviation checked_build :=
  (_build Platform_current argv0 parse_config mkdtemp
          (Staging.assemble_scies stage_and_assemble)).
Abbreviation checked_export :=
  (export Platform_current parse_config mkdtemp
          (Staging.export_manifest stage_and_export)).








(** Whatever the assembler is, a build whose manifest parses and
    passes the version gate makes its sandbox directory and only then
    calls the assembler, the first code to receive the override set. *)
Lemma sandbox_precedes_assembler
    (assemble_scies : AssembleArgs -> FS -> Outcome AssemblyInfo * FS)
    (lift_config : LiftConfig) (config : BinaryIO) (application : Application)
    (dest_dir : Path) (use_platform_suffix preserve_sandbox : bool)
    (use_jump : option Path) (hash_functions : list string) (w : State) :
  parse_application parse_config lift_config config = Returned application →
  (∀ v, scie_jump_version application = Some v → Version.ltb v Version.v0_9_0 = false) →
  ∃ warnings args rest,
    Forall is_warning warnings ∧
    arg_lift_config args = lift_config ∧
    arg_dest_dir args = mkdtemp (fs w) ∧
    events (_build Platform_current argv0 parse_config mkdtemp assemble_scies
              lift_config config dest_dir use_platform_suffix preserve_sandbox
              use_jump hash_functions w).2
    = events w ++ warnings
      ++ SandboxCreated (mkdtemp (fs w)) :: AssembleScies args :: rest.
Proof.
  intros Hparse Hgate.
  destruct (build_run Platform_current argv0 parse_config mkdtemp assemble_scies
              lift_config config dest_dir use_platform_suffix preserve_sandbox
              use_jump hash_functions w application Hparse)
    as (warnings & Hwarn & _ & ->).
  exists warnings.
  unfold mbind at 1, M_bind at 1, check_scie_jump_version.
  assert (Hpass : (match scie_jump_version application with
                   | Some v => if Version.ltb v Version.v0_9_0
                               then raise (SystemExit (version_message argv0 v))
                               else mret tt
                   | None => mret tt
                   end) {| fs := fs w; events := events w ++ warnings |}
                  = (Returned tt, {| fs := fs w; events := events w ++ warnings |})).
  { destruct (scie_jump_version application) as [v|]; [| done].
    by rewrite (Hgate v eq_refl). }
  rewrite Hpass.
  match goal with
  | |- context [events (?run).2] => destruct run as [out w'] eqn:Hrun
  end.
  apply assemble_and_deliver_run in Hrun. cbn [fs events] in Hrun.
  destruct Hrun as [(e & store' & _ & _ & Hev & _)
                   | (info & store' & rest & _ & Hev & _)].
  - match type of Hev with
    | _ = _ ++ [_; AssembleScies ?args] => exists args, []
    end.
    split; [done |]. split; [reflexivity |]. split; [reflexivity |].
    cbn [snd]. rewrite Hev. by rewrite <- (assoc_L (++)).
  - match type of Hev with
    | _ = _ ++ _ :: AssembleScies ?args :: _ => exists args, rest
    end.
    split; [done |]. split; [reflexivity |]. split; [reflexivity |].
    cbn [snd]. rewrite Hev. by rewrite <- (assoc_L (++)).
Qed.



End LazinessProperties.

Section LazinessExamples.
Import Laziness ExportCommand Examples MoreExamples StagingExamples.



Example data_txt_scenario :
  classify example_app (invert_lazy_ids toggle_data_txt)
  = inr [("cpython", false); ("data.txt", true); ("local.txt", false)].
Proof. vm_compute. reflexivity. Qed.

Example missing_id_scenario :
  classify example_app (invert_lazy_ids missing_id)
  = inl {| bad_id := "missing-id"; bad_kind := None |}.
Proof. vm_compute. reflexivity. Qed.

(** Listing an id twice toggles it once. *)
Example double_toggle_scenario :
  classify example_app (invert_lazy_ids (_lift [] ["data.txt"; "data.txt"] false None []))
  = inr [("cpython", false); ("data.txt", true); ("local.txt", false)].
Proof. vm_compute. reflexivity. Qed.

Example local_txt_scenario :
  toggle_error_exc <$>
    (match classify example_app
             (invert_lazy_ids (_lift [] ["data.txt"; "local.txt"] false None [])) with
     | inl err => Some err
     | inr _ => None
     end)
  = Some (InputError "Cannot toggle the laziness of local.txt: no source").
Proof. vm_compute. reflexivity. Qed.

(** The export of [--invert-lazy missing-id]: only the sandbox
    directory was made, and it is gone again. *)
Example missing_id_export :
  export linux_x86_64 (parses_to example_app) (fun _ => sandbox)
         (Staging.export_manifest staged_exporter) missing_id lift_toml dist false start
  = (Raised (InputError
       "Cannot toggle the laziness of missing-id: no such interpreter or file"),
     {| fs := empty_fs; events := [SandboxCreated sandbox] |}).
Proof. vm_compute. reflexivity. Qed.

End LazinessExamples.

(** ** Checksum sidecar files *)

Section ChecksumProperties.
Import PostProcess.

Lemma append_inj_l (s a b : string) : s +:+ a = s +:+ b → a = b.
Proof. induction s as [|c s IH]; simpl; [done |]. intros [= H]. by apply IH. Qed.

Lemma length_append (s t : string) :
  String.length (s +:+ t) = (String.length s + String.length t)%nat.
Proof. induction s as [|c s IH]; simpl; [done | by rewrite IH]. Qed.

Lemma sidecar_name_inj (output a b : string) :
  sidecar_name output a = sidecar_name output b → a = b.
Proof.
  unfold sidecar_name. intros H. apply append_inj_l in H.
  by apply (append_inj_l ".") in H.
Qed.

Lemma sidecar_name_not_output (output algorithm : string) :
  sidecar_name output algorithm ≠ output.
Proof.
  unfold sidecar_name. intros H. apply (f_equal String.length) in H.
  rewrite length_append in H. simpl in H. lia.
Qed.

Lemma hex_digit_not_space (c : ascii) :
  is_hex_digit c = true → Ascii.eqb c " "%char = false.
Proof.
  destruct c as [[] [] [] [] [] [] [] []]; try reflexivity; discriminate.
Qed.

Lemma split_at_space_hex (digest rest : string) :
  is_hex digest = true →
  split_at_space (digest +:+ " " +:+ rest) = (digest, rest).
Proof.
  induction digest as [|c digest IH]; simpl; [done |].
  intros [Hc Hrest]%andb_true_iff.
  by rewrite (hex_digit_not_space c Hc), (IH Hrest).
Qed.

Lemma strip_newline_append (s : string) : strip_newline (s +:+ Py.nl) = Some s.
Proof.
  induction s as [|c s IH]; [done |].
  change (String c s +:+ Py.nl) with (String c (s +:+ Py.nl)).
  destruct s as [|c' s]; [done |].
  change (strip_newline (String c (String c' s +:+ Py.nl)))
    with (String c <$> strip_newline (String c' s +:+ Py.nl)).
  by rewrite IH.
Qed.

Section WithDigest.

Variable hexdigest : string -> string -> string.

(** A sidecar reads back as its digest and the name of its binary. *)
Lemma parse_sidecar_content (output algorithm data : string) :
  is_hex (hexdigest algorithm data) = true →
  parse_checksum_line (sidecar_content hexdigest output algorithm data)
  = Some (hexdigest algorithm data, output).
Proof.
  intros Hhex. unfold parse_checksum_line, sidecar_content.
  change (hexdigest algorithm data +:+ " *" +:+ output +:+ Py.nl)
    with (hexdigest algorithm data +:+ " " +:+ String "*" (output +:+ Py.nl)).
  rewrite (split_at_space_hex _ _ Hhex).
  by rewrite strip_newline_append.
Qed.

Lemma write_sidecars_other (dir : Path) (output data : string)
    (algorithms : list string) (store : gmap Path Node) (p : Path) :
  (∀ algorithm, algorithm ∈ algorithms →
     p ≠ dir ++ [sidecar_name output algorithm]) →
  foldl (write_sidecar hexdigest dir output data) store algorithms !! p = store !! p.
Proof.
  revert store. induction algorithms as [|a algorithms IH]; intros store Hother;
    [done |].
  simpl. rewrite IH by (intros b Hb; apply Hother; by right).
  unfold write_sidecar. apply lookup_insert_ne.
  intros Heq. by apply (Hother a); [left |].
Qed.

Lemma write_sidecars_written (dir : Path) (output data : string)
    (algorithms : list string) (store : gmap Path Node) (algorithm : string) :
  algorithm ∈ algorithms →
  foldl (write_sidecar hexdigest dir output data) store algorithms
    !! (dir ++ [sidecar_name output algorithm])
  = Some (RegularFile (sidecar_content hexdigest output algorithm data)).
Proof.
  revert store. induction algorithms as [|a algorithms IH]; intros store Hin;
    [by apply not_elem_of_nil in Hin |].
  simpl. destruct (decide (algorithm ∈ algorithms)) as [Hlater | Hnot].
  - by apply IH.
  - apply elem_of_cons in Hin as [-> | Hin]; [| done].
    rewrite write_sidecars_other.
    + unfold write_sidecar. apply lookup_insert_eq.
    + intros b Hb Heq. apply app_inv_head in Heq. injection Heq as Heq.
      apply sidecar_name_inj in Heq. by subst.
Qed.

(** C7: for a finished binary and the requested hash algorithms,
    one sidecar file named after the output and the algorithm is
    written per algorithm; it holds the hex digest of the binary, a
    space, an asterisk, the output name and a line feed; nothing else
    is written and the binary is left as it is, so that checking the
    sidecar by hashing the binary again succeeds. *)
Theorem C7_checksum_sidecars (dir : Path) (output data : string)
    (hash_functions : list string) (store : gmap Path Node) :
  (∀ algorithm bytes, is_hex (hexdigest algorithm bytes) = true) →
  store !! (dir ++ [output]) = Some (RegularFile data) →
  ∃ store' sidecars,
    write_checksums hexdigest dir output hash_functions store
      = Some (store', sidecars) ∧
    store' !! (dir ++ [output]) = Some (RegularFile data) ∧
    NoDup sidecars ∧
    (∀ p, p ∈ sidecars ↔
          ∃ algorithm, algorithm ∈ hash_functions ∧
                       p = dir ++ [output +:+ "." +:+ algorithm]) ∧
    (∀ p, p ∉ sidecars → store' !! p = store !! p) ∧
    (∀ algorithm, algorithm ∈ hash_functions →
       store' !! (dir ++ [output +:+ "." +:+ algorithm])
         = Some (RegularFile (hexdigest algorithm data +:+ " *" +:+ output +:+ Py.nl)) ∧
       verify_sidecar hexdigest dir algorithm
         (dir ++ [output +:+ "." +:+ algorithm]) store' = true).
Proof.
  intros Hhex Hbinary. unfold write_checksums. rewrite Hbinary.
  eexists _, _. split; [reflexivity |].
  assert (Hmem : ∀ p,
    p ∈ map (fun algorithm => dir ++ [sidecar_name output algorithm])
            (remove_dups hash_functions) ↔
    ∃ algorithm, algorithm ∈ hash_functions ∧
                 p = dir ++ [output +:+ "." +:+ algorithm]).
  { intros p.
    change (map ?f ?l) with (f <$> l). rewrite list_elem_of_fmap.
    split; intros (a & Ha1 & Ha2).
    - exists a. by rewrite <- (elem_of_remove_dups hash_functions).
    - exists a. by rewrite elem_of_remove_dups. }
  assert (Hkeep : foldl (write_sidecar hexdigest dir output data) store
                        (remove_dups hash_functions) !! (dir ++ [output])
                  = Some (RegularFile data)).
  { rewrite write_sidecars_other; [done |].
    intros a _ Heq. apply app_inv_head in Heq. injection Heq as Heq.
    by apply (sidecar_name_not_output output a). }
  split; [done |]. split; [| split; [done |]; split].
  - change (map ?f ?l) with (f <$> l).
    apply NoDup_fmap_2_strong; [| apply NoDup_remove_dups].
    intros a b _ _ Heq. apply app_inv_head in Heq. injection Heq as Heq.
    by apply sidecar_name_inj in Heq.
  - intros p Hnot. apply write_sidecars_other.
    intros a Ha ->. apply Hnot, Hmem. exists a.
    by rewrite <- (elem_of_remove_dups hash_functions).
  - intros a Ha.
    assert (Hwritten := write_sidecars_written dir output data
                          (remove_dups hash_functions) store a
                          (proj2 (elem_of_remove_dups _ _) Ha)).
    split; [exact Hwritten |].
    unfold verify_sidecar. unfold sidecar_name in Hwritten.
    rewrite Hwritten, (parse_sidecar_content output a data (Hhex a data)), Hkeep.
    by apply bool_decide_eq_true.
Qed.

End WithDigest.

Lemma nibble_is_hex (c : ascii) : is_hex_digit (Examples.nibble c) = true.
Proof. destruct c as [[] [] [] [] [] [] [] []]; reflexivity. Qed.

Lemma nibble_digest_is_hex (algorithm bytes : string) :
  is_hex (Examples.nibble_digest algorithm bytes) = true.
Proof.
  unfold Examples.nibble_digest.
  induction bytes as [|c bytes IH]; simpl; [done |].
  by rewrite nibble_is_hex, IH.
Qed.

(** The scenario of the specification: [--hash sha256] on an output
    named [app]. *)
Lemma C7_checksum_sidecars_witness :
  ∃ store' sidecars,
    write_checksums Examples.nibble_digest Examples.sandbox "app" ["sha256"]
      Examples.assembled_store = Some (store', sidecars) ∧
    store' !! (Examples.sandbox ++ ["app"]) = Some (RegularFile "scie bytes") ∧
    NoDup sidecars ∧
    (∀ p, p ∈ sidecars ↔
          ∃ algorithm, algorithm ∈ ["sha256"] ∧
                       p = Examples.sandbox ++ ["app" +:+ "." +:+ algorithm]) ∧
    (∀ p, p ∉ sidecars → store' !! p = Examples.assembled_store !! p) ∧
    (∀ algorithm, algorithm ∈ ["sha256"] →
       store' !! (Examples.sandbox ++ ["app" +:+ "." +:+ algorithm])
         = Some (RegularFile (Examples.nibble_digest algorithm "scie bytes"
                              +:+ " *" +:+ "app" +:+ Py.nl)) ∧
       verify_sidecar Examples.nibble_digest Examples.sandbox algorithm
         (Examples.sandbox ++ ["app" +:+ "." +:+ algorithm]) store' = true).
Proof.
  apply (C7_checksum_sidecars Examples.nibble_digest Examples.sandbox "app"
           "scie bytes" ["sha256"] Examples.assembled_store).
  - exact nibble_digest_is_hex.
  - reflexivity.
Defined.

Example sha256_sidecar_scenario :
  (fun written => (written.1 !! (Examples.sandbox ++ ["app.sha256"]), written.2))
    <$> write_checksums Examples.nibble_digest Examples.sandbox "app"
          ["sha256"; "sha256"] Examples.assembled_store
  = Some (Some (RegularFile ("3395029453" +:+ " *app" +:+ Py.nl)),
          [Examples.sandbox ++ ["app.sha256"]]).
Proof. vm_compute. reflexivity. Qed.

End ChecksumProperties.


(** ** The [export] command *)

Section ExportProperties.
Import ExportCommand.

Lemma relative_to_Returned (path base relative : Path) :
  relative_to path base = Returned relative → path = base ++ relative.
Proof.
  unfold relative_to. case_decide as Hprefix; [| done].
  intros [= <-]. destruct Hprefix as [rest ->].
  by rewrite drop_app_length.
Qed.

Lemma join_path_inj (d : Path) (n m : string) :
  join_path d n = join_path d m → n = m.
Proof.
  destruct n as [|c n], m as [|c' m]; simpl; intros Heq; try done.
  - apply (f_equal length) in Heq. rewrite length_app in Heq. simpl in Heq. lia.
  - apply (f_equal length) in Heq. rewrite length_app in Heq. simpl in Heq. lia.
  - apply app_inv_head in Heq. congruence.
Qed.

Lemma join_path_below (d : Path) (n : string) : d `prefix_of` join_path d n.
Proof. destruct n; simpl; [done | by apply prefix_app_r]. Qed.

Lemma export_destination_below (dest_dir td : Path) (use_suffix : bool)
    (manifest_path destination : Path) :
  export_destination dest_dir td use_suffix manifest_path = Returned destination →
  dest_dir `prefix_of` destination.
Proof.
  unfold export_destination. destruct use_suffix.
  - destruct (relative_to manifest_path td); [| done].
    intros [= <-]. by apply prefix_app_r.
  - intros [= <-]. apply join_path_below.
Qed.

(** With the platform suffix in use, two different manifests of the
    sandbox never get the same destination: each keeps its path relative
    to the sandbox. *)
Theorem export_suffix_destinations_distinct (dest_dir td : Path)
    (manifest1 manifest2 destination1 destination2 : Path) :
  export_destination dest_dir td true manifest1 = Returned destination1 →
  export_destination dest_dir td true manifest2 = Returned destination2 →
  manifest1 ≠ manifest2 →
  destination1 ≠ destination2.
Proof.
  unfold export_destination.
  destruct (relative_to manifest1 td) as [r1|] eqn:H1; [| done].
  destruct (relative_to manifest2 td) as [r2|] eqn:H2; [| done].
  intros [= <-] [= <-] Hne Heq.
  apply app_inv_head in Heq. subst r2.
  apply relative_to_Returned in H1, H2. congruence.
Qed.

Lemma export_suffix_destinations_distinct_witness :
  Examples.dist ++ ["linux-x86_64"; "lift.json"]
  ≠ Examples.dist ++ ["macos-aarch64"; "lift.json"].
Proof.
  apply (export_suffix_destinations_distinct Examples.dist Examples.sandbox
           (Examples.sandbox ++ ["linux-x86_64"; "lift.json"])
           (Examples.sandbox ++ ["macos-aarch64"; "lift.json"])).
  - reflexivity.
  - reflexivity.
  - discriminate.
Defined.

(** Without the platform suffix a manifest goes to its file name in the
    destination directory, so two manifests get the same destination
    exactly when their file names are equal, wherever they were. *)
Theorem export_plain_destinations_collide (dest_dir td manifest1 manifest2 : Path) :
  export_destination dest_dir td false manifest1
  = export_destination dest_dir td false manifest2
  ↔ path_name manifest1 = path_name manifest2.
Proof.
  unfold export_destination. split.
  - intros [= Heq]. by apply join_path_inj in Heq.
  - by intros ->.
Qed.

Lemma appends_for_generator {A} (P : Event -> Prop) (body : A -> M unit) :
  (∀ x, appends P (body x)) →
  ∀ generator, appends P (for_generator generator body).
Proof.
  intros Hbody. fix IH 1. intros [next] w r w' Hrun. simpl in Hrun.
  destruct (next (fs w)) as [[[[x rest]|]|e] store].
  - destruct (body x _) as [[[]|e] w1] eqn:Hx.
    + destruct (Hbody x _ _ _ Hx) as (evs1 & Hev1 & HP1).
      destruct (IH rest _ _ _ Hrun) as (evs2 & Hev2 & HP2).
      exists (evs1 ++ evs2). split; [| by apply Forall_app].
      simpl in Hev1. by rewrite Hev2, Hev1, (assoc_L (++)).
    + injection Hrun as <- <-. by apply (Hbody x _ _ _ Hx).
  - injection Hrun as <- <-. exists []. by rewrite app_nil_r.
  - injection Hrun as <- <-. exists []. by rewrite app_nil_r.
Qed.

Lemma appends_os_replace (P : Event -> Prop) (src dst : Path) :
  P (Move src dst) → appends P (os_replace src dst).
Proof.
  intros HP w r w' Hrun. unfold os_replace in Hrun.
  exists [Move src dst]. split; [| by repeat constructor].
  destruct (_ !! _); [| by injection Hrun as <- <-].
  destruct (bool_decide _); by injection Hrun as <- <-.
Qed.

Lemma appends_export_one (dest_dir td : Path) (platform_info : PlatformInfo)
    (item : Platform * Path) :
  appends (export_event dest_dir) (export_one dest_dir td platform_info item).
Proof.
  intros w r w' Hrun. unfold export_one in Hrun.
  unfold mbind at 1, M_bind at 1, of_outcome in Hrun.
  destruct (export_destination dest_dir td (use_suffix platform_info) item.2)
    as [destination|e] eqn:Hdest.
  - apply export_destination_below in Hdest.
    revert w r w' Hrun. apply appends_bind.
    + apply appends_mkdir. simpl. eauto.
    + intros _. apply appends_bind.
      * by apply appends_os_replace.
      * intros _. by apply appends_emit.
  - injection Hrun as <- <-. exists []. by rewrite app_nil_r.
Qed.

Section WithDriver.

Variable Platform_current : Platform.
Variable parse_config : BinaryIO -> string -> Outcome Application.
Variable mkdtemp : FS -> Path.
Variable export_manifest :
  LiftConfig -> Application -> Path -> Generator (Platform * Path).

(** Whatever the manifest generator does, [export] adds to the trace
    only the creation of its sandbox and, per manifest, the making of
    the destination's parent directory, the move of the manifest to a
    destination at or below the destination directory and the report of
    that destination: it never calls the assembler, never warns and never
    links. *)
Theorem export_trace (lift_config : LiftConfig) (config : BinaryIO)
    (dest_dir : Path) (use_platform_suffix : bool)
    (w : State) (out : Outcome unit) (w' : State) :
  export Platform_current parse_config mkdtemp export_manifest
         lift_config config dest_dir use_platform_suffix w = (out, w') →
  ∃ evs,
    events w' = events w ++ evs ∧
    Forall (fun ev => ev = SandboxCreated (mkdtemp (fs w)) ∨ export_event dest_dir ev) evs.
Proof.
  unfold export. unfold mbind at 1, M_bind at 1, of_outcome.
  destruct (parse_application parse_config lift_config config) as [application|e].
  2:{ intros [= <- <-]. exists []. by rewrite app_nil_r. }
  unfold temporary_directory.
  match goal with
  | |- context [for_generator ?g ?b ?s] =>
      destruct (for_generator g b s) as [r w2] eqn:Hloop
  end.
  intros [= <- <-].
  destruct (appends_for_generator (export_event dest_dir) _
              (appends_export_one dest_dir _ _) _ _ _ _ Hloop)
    as (evs & Hev & Hevs).
  exists (SandboxCreated (mkdtemp (fs w)) :: evs). split.
  - simpl in *. by rewrite Hev, <- (assoc_L (++)).
  - constructor; [by left |].
    eapply Forall_impl; [exact Hevs | by right].
Qed.

End WithDriver.

Lemma export_trace_witness :
  ∃ evs,
    events MoreExamples.exported_run.2 = events Examples.start ++ evs ∧
    Forall (fun ev => ev = SandboxCreated Examples.sandbox
                      ∨ export_event Examples.dist ev) evs.
Proof.
  apply (export_trace Examples.linux_x86_64 (Examples.parses_to Examples.example_app)
           (fun _ => Examples.sandbox) MoreExamples.per_platform_manifests
           (_lift [] [] false None []) Examples.lift_toml Examples.dist false
           Examples.start MoreExamples.exported_run.1 MoreExamples.exported_run.2).
  apply surjective_pairing.
Defined.

End ExportProperties.

(** The exported manifests of the two-platform example keep their
    platform directories. *)
Example exported_run_result :
  MoreExamples.exported_run.1 = Returned tt ∧
  fs_files (fs MoreExamples.exported_run.2)
    !! (Examples.dist ++ ["linux-x86_64"; "lift.json"]) = Some (RegularFile "{}") ∧
  fs_files (fs MoreExamples.exported_run.2)
    !! (Examples.dist ++ ["macos-aarch64"; "lift.json"]) = Some (RegularFile "{}") ∧
  size (fs_files (fs MoreExamples.exported_run.2)) = 2.
Proof. vm_compute. repeat split. Qed.

(** ** The entry point and the option help *)

Section MainProperties.
Import MainCommand.

(** The configuration and the error hook that [_main] installs depend
    only on the difference between the [-v] and [-q] counts: equal
    amounts of both cancel. *)
Theorem main_verbosity_is_difference (verbose : ScienceConfig -> bool)
    (verbose_count quiet_count verbose_count' quiet_count' : nat) (cache_dir : Path) :
  (Z.of_nat verbose_count - Z.of_nat quiet_count
   = Z.of_nat verbose_count' - Z.of_nat quiet_count')%Z →
  _main verbose verbose_count quiet_count cache_dir
  = _main verbose verbose_count' quiet_count' cache_dir.
Proof. intros Hsame. unfold _main. by rewrite Hsame. Qed.

Lemma main_verbosity_is_difference_witness :
  _main MoreExamples.verbose_positive 3 2 ["cache"]
  = _main MoreExamples.verbose_positive 1 0 ["cache"].
Proof.
  apply (main_verbosity_is_difference MoreExamples.verbose_positive 3 2 1 0 ["cache"]).
  reflexivity.
Defined.

Lemma suffix_line_starred (current platform : Platform) :
  starred (suffix_line current platform) = bool_decide (platform = current).
Proof. unfold suffix_line. by case_bool_decide. Qed.

Lemma no_star_without_current (members : list Platform) (current : Platform) :
  current ∉ members →
  filter (fun line => starred line = true) (suffix_lines members current) = [].
Proof.
  induction members as [|p members IH]; intros Hnot; [done |].
  apply not_elem_of_cons in Hnot as [Hne Hnot].
  unfold suffix_lines. simpl. rewrite filter_cons_False.
  - by apply IH.
  - rewrite suffix_line_starred. rewrite bool_decide_eq_true. congruence.
Qed.

(** In the help of [--use-platform-suffix], which lists one line per
    member of the platform enumeration, exactly one line is starred: the
    line of the current platform. *)
Theorem suffix_help_stars_current (members : list Platform) (current : Platform) :
  NoDup members →
  current ∈ members →
  filter (fun line => starred line = true) (suffix_lines members current)
  = ["* " +:+ value current].
Proof.
  induction members as [|p members IH]; intros Hnodup Hin;
    [by apply not_elem_of_nil in Hin |].
  apply NoDup_cons in Hnodup as [Hfresh Hnodup].
  unfold suffix_lines. simpl.
  destruct (decide (p = current)) as [-> | Hne].
  - rewrite filter_cons_True by (by rewrite suffix_line_starred, bool_decide_eq_true).
    change (map (suffix_line current) members) with (suffix_lines members current).
    rewrite no_star_without_current by done.
    unfold suffix_line. by rewrite bool_decide_true.
  - rewrite filter_cons_False
      by (rewrite suffix_line_starred, bool_decide_eq_true; congruence).
    apply IH; [done |].
    apply elem_of_cons in Hin as [-> | Hin]; [done | done].
Qed.

Lemma suffix_help_stars_current_witness :
  filter (fun line => starred line = true)
         (suffix_lines [Examples.linux_x86_64; Examples.macos_aarch64;
                        MoreExamples.windows_x86_64] Examples.macos_aarch64)
  = ["* macos-aarch64"].
Proof.
  apply (suffix_help_stars_current
           [Examples.linux_x86_64; Examples.macos_aarch64; MoreExamples.windows_x86_64]
           Examples.macos_aarch64).
  - repeat (apply NoDup_cons_2;
              [rewrite ?elem_of_cons, elem_of_nil; intuition discriminate |]).
    apply NoDup_nil_2.
  - rewrite !elem_of_cons. tauto.
Defined.

End MainProperties.


(** ** More on the [build] command *)

Section BuildArguments.
Import Delivery.

Variable Platform_current : Platform.
Variable argv0 : string.
Variable parse_config : BinaryIO -> string -> Outcome Application.
Variable mkdtemp : FS -> Path.
Variable assemble_scies : AssembleArgs -> FS -> Outcome AssemblyInfo * FS.

Abbreviation build' := (_build Platform_current argv0 parse_config mkdtemp assemble_scies).

Lemma select_platforms_exact (application : Application) (platform_info : PlatformInfo)
    (use_jump : option Path) (use_platform_suffix : bool) (w : State) :
  select_platforms application platform_info use_jump use_platform_suffix w =
    (Returned (if truthy_path use_jump && use_platform_suffix
               then {[ current platform_info ]}
               else platforms application),
     {| fs := fs w;
        events := events w ++
                  if truthy_path use_jump && use_platform_suffix
                  then narrowing_warnings application platform_info
                  else [] |}).
Proof.
  unfold select_platforms, narrowing_warnings.
  destruct (truthy_path use_jump && use_platform_suffix).
  - unfold mbind, M_bind, emit, mret, M_ret. simpl.
    by rewrite <- (assoc_L (++)).
  - unfold mret, M_ret. rewrite app_nil_r. by destruct w.
Qed.

(** Everything a build adds to the trace, once the manifest has parsed:
    the narrowing warnings, then either nothing more (the version gate
    closed) or the sandbox, the one assembler call and the delivery. *)
Lemma build_events (lift_config : LiftConfig) (config : BinaryIO) (dest_dir : Path)
    (use_platform_suffix preserve_sandbox : bool) (use_jump : option Path)
    (hash_functions : list string) (w : State) (out : Outcome unit) (w' : State)
    (application : Application) :
  parse_application parse_config lift_config config = Returned application →
  build' lift_config config dest_dir use_platform_suffix preserve_sandbox
         use_jump hash_functions w = (out, w') →
  ∃ rest,
    events w' =
      events w
      ++ (if truthy_path use_jump && use_platform_suffix
          then narrowing_warnings application
                 (PlatformInfo_create Platform_current application use_platform_suffix)
          else [])
      ++ rest ∧
    ((rest = [] ∧
      ∃ v, scie_jump_version application = Some v ∧
           Version.ltb v Version.v0_9_0 = true)
     ∨ ((∀ v, scie_jump_version application = Some v →
              Version.ltb v Version.v0_9_0 = false) ∧
        ∃ tail,
          rest = SandboxCreated (mkdtemp (fs w))
                 :: AssembleScies
                      {| arg_lift_config := lift_config;
                         arg_application := application;
                         arg_dest_dir := mkdtemp (fs w);
                         arg_platforms :=
                           if truthy_path use_jump && use_platform_suffix
                           then {[ Platform_current ]}
                           else platforms application;
                         arg_platform_info :=
                           PlatformInfo_create Platform_current application
                                               use_platform_suffix;
                         arg_use_jump := use_jump;
                         arg_hash_functions := hash_functions |}
                 :: tail ∧
          Forall (fun ev => ∃ info, delivery_event dest_dir preserve_sandbox info ev) tail)).
Proof.
  intros Hparse Hrun. unfold _build in Hrun. rewrite Hparse in Hrun.
  unfold mbind at 1, M_bind at 1, of_outcome in Hrun.
  unfold mbind at 1, M_bind at 1 in Hrun.
  rewrite select_platforms_exact in Hrun. cbn [current PlatformInfo_create] in Hrun.
  set (warnings := if truthy_path use_jump && use_platform_suffix
                   then narrowing_warnings application _ else []) in *.
  unfold mbind at 1, M_bind at 1, check_scie_jump_version in Hrun.
  destruct (scie_jump_version application) as [v|] eqn:Hversion.
  - destruct (Version.ltb v Version.v0_9_0) eqn:Hlt.
    + injection Hrun as <- <-. exists []. rewrite app_nil_r. split; [done |].
      left. split; [done |]. by exists v.
    + apply assemble_and_deliver_run in Hrun. cbn [fs events] in Hrun.
      destruct Hrun as [(e & store' & _ & _ & Hev & _)
                       | (info & store' & tail & _ & Hev & Htail)].
      * eexists. split; [by rewrite Hev, <- (assoc_L (++)) |].
        right. split; [by intros v' [= <-] |]. by exists [].
      * eexists. split; [by rewrite Hev, <- (assoc_L (++)) |].
        right. split; [by intros v' [= <-] |]. exists tail. split; [done |].
        eapply Forall_impl; [exact Htail |]. intros ev Hev'. by exists info.
  - apply assemble_and_deliver_run in Hrun. cbn [fs events] in Hrun.
    destruct Hrun as [(e & store' & _ & _ & Hev & _)
                     | (info & store' & tail & _ & Hev & Htail)].
    + eexists. split; [by rewrite Hev, <- (assoc_L (++)) |].
      right. split; [done |]. by exists [].
    + eexists. split; [by rewrite Hev, <- (assoc_L (++)) |].
      right. split; [done |]. exists tail. split; [done |].
      eapply Forall_impl; [exact Htail |]. intros ev Hev'. by exists info.
Qed.

Lemma delivery_event_kind (dest_dir : Path) (preserve_sandbox : bool)
    (info : AssemblyInfo) (ev : Event) :
  delivery_event dest_dir preserve_sandbox info ev →
  is_assemble_call ev = false ∧ is_sandbox_creation ev = false ∧ ¬ is_warning ev.
Proof. destruct ev; simpl; tauto. Qed.

Lemma filter_nil_Forall {A} (P : A -> Prop) `{!∀ x, Decision (P x)} (l : list A) :
  Forall (fun x => ¬ P x) l → filter P l = [].
Proof.
  induction 1 as [|x l Hx _ IH]; [done |].
  by rewrite filter_cons_False.
Qed.

(** [--use-jump] together with [--use-platform-suffix]: once the
    manifest has parsed and the version gate is passed, the two narrowing
    warnings come first and the assembler is then called for the current
    platform of the platform view alone, whatever the platforms of the
    manifest are, the current one among them or not. *)
Theorem build_forced_suffix_with_jump_targets_host (lift_config : LiftConfig)
    (config : BinaryIO) (dest_dir : Path) (preserve_sandbox : bool) (jump : Path)
    (hash_functions : list string) (w : State) (application : Application) :
  parse_application parse_config lift_config config = Returned application →
  (∀ v, scie_jump_version application = Some v → Version.ltb v Version.v0_9_0 = false) →
  ∃ args tail,
    events (build' lift_config config dest_dir true preserve_sandbox
                   (Some jump) hash_functions w).2
    = events w
      ++ [ LogWarning
             "Cannot use a custom scie jump build with a multi-platform configuration.";
           LogWarning ("Restricting requested platforms of "
                       +:+ Py.join ", " (sorted (value <$> elements (platforms application)))
                       +:+ " to " +:+ value (current (arg_platform_info args))) ]
      ++ SandboxCreated (mkdtemp (fs w)) :: AssembleScies args :: tail ∧
    arg_platforms args = {[ current (arg_platform_info args) ]} ∧
    arg_use_jump args = Some jump ∧
    Forall (fun ev => ¬ is_warning ev) tail.
Proof.
  intros Hparse Hgate.
  destruct (build' lift_config config dest_dir true preserve_sandbox
                   (Some jump) hash_functions w) as [out w'] eqn:Hrun.
  destruct (build_events _ _ _ _ _ _ _ _ _ _ _ Hparse Hrun) as (rest & Hev & Hrest).
  destruct Hrest as [(_ & v & Hv & Hlt) | (_ & tail & -> & Htail)].
  { by rewrite (Hgate v Hv) in Hlt. }
  match type of Hev with
  | context [AssembleScies ?args] => exists args, tail
  end.
  split; [exact Hev |]. split; [done |]. split; [done |].
  eapply Forall_impl; [exact Htail |].
  intros ev [info Hdel]. by apply delivery_event_kind in Hdel as (_ & _ & Hwarn).
Qed.

(** Without [--use-jump] a build never warns and never narrows: if
    the assembler is called, it is called for exactly the platforms of
    the parsed manifest, forced suffix or not. *)
Theorem build_without_jump_keeps_platforms (lift_config : LiftConfig)
    (config : BinaryIO) (dest_dir : Path) (use_platform_suffix preserve_sandbox : bool)
    (hash_functions : list string) (w : State) (application : Application) :
  parse_application parse_config lift_config config = Returned application →
  ∃ evs,
    events (build' lift_config config dest_dir use_platform_suffix preserve_sandbox
                   None hash_functions w).2 = events w ++ evs ∧
    Forall (fun ev =>
              ¬ is_warning ev ∧
              ∀ args, ev = AssembleScies args →
                      arg_platforms args = platforms application ∧
                      arg_use_jump args = None) evs.
Proof.
  intros Hparse.
  destruct (build' lift_config config dest_dir use_platform_suffix preserve_sandbox
                   None hash_functions w) as [out w'] eqn:Hrun.
  destruct (build_events _ _ _ _ _ _ _ _ _ _ _ Hparse Hrun) as (rest & Hev & Hrest).
  simpl in Hev. exists rest. split; [exact Hev |].
  destruct Hrest as [(-> & _) | (_ & tail & -> & Htail)]; [done |].
  constructor; [split; [tauto | done] |].
  constructor; [split; [tauto | by intros args [= <-]] |].
  eapply Forall_impl; [exact Htail |].
  intros ev [info Hdel]. apply delivery_event_kind in Hdel as (Hcall & _ & Hwarn).
  split; [done |]. by intros args ->.
Qed.

(** A build creates at most one sandbox and calls the assembler at most
    once, and then with the sandbox as the directory to assemble in. *)
Theorem build_assembles_at_most_once (lift_config : LiftConfig)
    (config : BinaryIO) (dest_dir : Path) (use_platform_suffix preserve_sandbox : bool)
    (use_jump : option Path) (hash_functions : list string) (w : State) :
  ∃ evs,
    events (build' lift_config config dest_dir use_platform_suffix preserve_sandbox
                   use_jump hash_functions w).2 = events w ++ evs ∧
    (length (filter (fun ev => is_assemble_call ev = true) evs) ≤ 1)%nat ∧
    (length (filter (fun ev => is_sandbox_creation ev = true) evs) ≤ 1)%nat ∧
    Forall (fun ev => ∀ args, ev = AssembleScies args →
                              arg_dest_dir args = mkdtemp (fs w)) evs.
Proof.
  destruct (build' lift_config config dest_dir use_platform_suffix preserve_sandbox
                   use_jump hash_functions w) as [out w'] eqn:Hrun.
  destruct (parse_application parse_config lift_config config)
    as [application|e] eqn:Hparse.
  2:{ rewrite (build_parse_raises _ _ _ _ _ _ _ _ _ _ _ _ _ _ Hparse) in Hrun.
      injection Hrun as <- <-. exists []. rewrite app_nil_r. simpl. auto with lia. }
  destruct (build_events _ _ _ _ _ _ _ _ _ _ _ Hparse Hrun) as (rest & Hev & Hrest).
  eexists. split; [exact Hev |].
  assert (Hwarn : ∀ warnings : list Event,
    warnings = (if truthy_path use_jump && use_platform_suffix
                then narrowing_warnings application
                       (PlatformInfo_create Platform_current application use_platform_suffix)
                else []) →
    filter (fun ev => is_assemble_call ev = true) warnings = [] ∧
    filter (fun ev => is_sandbox_creation ev = true) warnings = [] ∧
    Forall (fun ev => ∀ args, ev = AssembleScies args →
                              arg_dest_dir args = mkdtemp (fs w)) warnings).
  { intros warnings ->. destruct (truthy_path use_jump && use_platform_suffix);
      repeat split; repeat constructor; done. }
  destruct (Hwarn _ eq_refl) as (Hw1 & Hw2 & Hw3).
  rewrite !filter_app, Hw1, Hw2. simpl.
  destruct Hrest as [(-> & _) | (_ & tail & -> & Htail)].
  { simpl. rewrite app_nil_r. auto with lia. }
  assert (Hcalls : filter (fun ev => is_assemble_call ev = true) tail = []).
  { apply filter_nil_Forall. eapply Forall_impl; [exact Htail |].
    intros ev [info Hdel]. apply delivery_event_kind in Hdel as (-> & _). done. }
  assert (Hboxes : filter (fun ev => is_sandbox_creation ev = true) tail = []).
  { apply filter_nil_Forall. eapply Forall_impl; [exact Htail |].
    intros ev [info Hdel]. apply delivery_event_kind in Hdel as (_ & -> & _). done. }
  rewrite !filter_cons. simpl. rewrite Hcalls, Hboxes. simpl.
  split; [lia |]. split; [lia |].
  apply Forall_app. split; [done |].
  constructor; [done |]. constructor; [by intros args [= <-] |].
  eapply Forall_impl; [exact Htail |].
  intros ev [info Hdel]. apply delivery_event_kind in Hdel as (Hcall & _).
  by intros args ->.
Qed.

(** A non-empty [--app-name] reaches the assembler: if the assembler is
    called, the application it is given is the parsed one under the new
    name, and the configuration and hash algorithms are the caller's. *)
Theorem build_assembles_renamed_application (lift_config : LiftConfig)
    (config : BinaryIO) (dest_dir : Path) (use_platform_suffix preserve_sandbox : bool)
    (use_jump : option Path) (hash_functions : list string) (w : State)
    (application : Application) (c : ascii) (new_name : string) :
  parse_config config (io_name config) = Returned application →
  app_name lift_config = Some (String c new_name) →
  ∃ evs,
    events (build' lift_config config dest_dir use_platform_suffix preserve_sandbox
                   use_jump hash_functions w).2 = events w ++ evs ∧
    Forall (fun ev =>
              ∀ args, ev = AssembleScies args →
                      arg_application args = replace_name application (String c new_name) ∧
                      arg_lift_config args = lift_config ∧
                      arg_hash_functions args = hash_functions) evs.
Proof.
  intros Hconfig Hname.
  assert (Hparse : parse_application parse_config lift_config config
                   = Returned (replace_name application (String c new_name))).
  { unfold parse_application. by rewrite Hconfig, Hname. }
  destruct (build' lift_config config dest_dir use_platform_suffix preserve_sandbox
                   use_jump hash_functions w) as [out w'] eqn:Hrun.
  destruct (build_events _ _ _ _ _ _ _ _ _ _ _ Hparse Hrun) as (rest & Hev & Hrest).
  eexists. split; [exact Hev |].
  apply Forall_app. split.
  { destruct (truthy_path use_jump && use_platform_suffix); repeat constructor; done. }
  destruct Hrest as [(-> & _) | (_ & tail & -> & Htail)]; [done |].
  constructor; [done |]. constructor; [by intros args [= <-] |].
  eapply Forall_impl; [exact Htail |].
  intros ev [info Hdel]. apply delivery_event_kind in Hdel as (Hcall & _).
  by intros args ->.
Qed.

End BuildArguments.

(** ** Delivery into the destination directory *)

Section DeliveryProperties.
Import Delivery.

Lemma for_each_app {A} (xs ys : list A) (body : A -> M unit) (w : State) :
  for_each (xs ++ ys) body w =
  match for_each xs body w with
  | (Returned _, w1) => for_each ys body w1
  | (Raised e, w1) => (Raised e, w1)
  end.
Proof.
  revert w. induction xs as [|x xs IH]; intros w; [done |].
  simpl. unfold mbind, M_bind. destruct (body x w) as [[[]|e] w1]; [apply IH | done].
Qed.

(** Without sandbox preservation the two nested loops of [_build] move
    the artifacts one after the other. *)
Lemma scies_loop_flat (dest_dir : Path) (info : AssemblyInfo) (assemblies : list ScieAssembly)
    (w : State) :
  for_each assemblies
    (fun scie_assembly =>
       _ ← move dest_dir (scie scie_assembly);
       _ ← for_each (hashes scie_assembly) (move dest_dir);
       mret tt) w
  = for_each (flat_map (fun scie_assembly => scie scie_assembly :: hashes scie_assembly)
                       assemblies) (move dest_dir) w.
Proof.
  revert w. induction assemblies as [|sa assemblies IH]; intros w; [reflexivity |].
  cbn [flat_map]. rewrite for_each_app. cbn [for_each].
  unfold mbind, M_bind.
  destruct (move dest_dir (scie sa) w) as [[[]|e] w1]; [| done].
  destruct (for_each (hashes sa) (move dest_dir) w1) as [[[]|e] w2]; [| done].
  apply IH.
Qed.

Lemma deliver_flat (dest_dir : Path) (info : AssemblyInfo) (w : State) :
  deliver dest_dir false info w =
  match mkdir_parents_exist_ok dest_dir w with
  | (Returned _, w1) => for_each (artifacts info) (move dest_dir) w1
  | (Raised e, w1) => (Raised e, w1)
  end.
Proof.
  unfold deliver. unfold mbind at 1, M_bind at 1.
  destruct (mkdir_parents_exist_ok dest_dir w) as [[[]|e] w1]; [| done].
  apply (scies_loop_flat dest_dir info).
Qed.

Lemma find_all_false {A} (f : A -> bool) (l : list A) :
  (∀ x, x ∈ l → f x = false) → List.find f l = None.
Proof.
  induction l as [|x l IH]; intros Hall; [done |]. simpl.
  rewrite (Hall x) by (by left). apply IH. intros y Hy. apply Hall. by right.
Qed.

Lemma mkdir_run (dest_dir : Path) (store : FS) (evs : list Event) :
  (∀ q, q ∈ ancestors_or_self dest_dir → fs_files store !! q = None) →
  mkdir_parents_exist_ok dest_dir {| fs := store; events := evs |} =
    (Returned tt,
     {| fs := {| fs_files := fs_files store;
                 fs_dirs := fs_dirs store ∪ list_to_set (ancestors_or_self dest_dir) |};
        events := evs ++ [MakeDirs dest_dir] |}).
Proof.
  intros Hfree. unfold mkdir_parents_exist_ok. cbn [fs events].
  rewrite find_all_false; [done |].
  intros q Hq. apply bool_decide_eq_false. rewrite (Hfree q Hq). by intros [? ?].
Qed.

Lemma move_run (dest_dir a : Path) (store : FS) (evs : list Event) (node : Node) :
  fs_files store !! a = Some node →
  destination dest_dir a ∉ fs_dirs store →
  move dest_dir a {| fs := store; events := evs |} =
    (Returned tt,
     {| fs := {| fs_files := <[destination dest_dir a := node]> (delete a (fs_files store));
                 fs_dirs := fs_dirs store |};
        events := evs ++ [Move a (destination dest_dir a);
                          Echo (path_str (destination dest_dir a))] |}).
Proof.
  intros Hfile Hnodir. unfold move, shutil_move, mbind, M_bind, emit. cbn [fs events].
  fold (destination dest_dir a).
  rewrite (bool_decide_false _ Hnodir). cbn [andb]. rewrite Hfile.
  cbn [fs events]. by rewrite <- (assoc_L (++)).
Qed.


Lemma destination_named (dest_dir a : Path) :
  path_name a ≠ EmptyString → destination dest_dir a = dest_dir ++ [path_name a].
Proof. unfold destination, join_path. by destruct (path_name a). Qed.

Lemma destination_parent (dest_dir a : Path) :
  path_name a ≠ EmptyString → parent (destination dest_dir a) = dest_dir.
Proof.
  intros Hname. rewrite destination_named by done. apply removelast_last.
Qed.

Lemma destination_inj (dest_dir a b : Path) :
  destination dest_dir a = destination dest_dir b → path_name a = path_name b.
Proof. apply join_path_inj. Qed.

Lemma destination_not_ancestor (dest_dir a : Path) :
  path_name a ≠ EmptyString → destination dest_dir a ∉ ancestors_or_self dest_dir.
Proof.
  intros Hname Hin. rewrite destination_named in Hin by done.
  unfold ancestors_or_self in Hin. apply list_elem_of_In, in_map_iff in Hin.
  destruct Hin as (n & Heq & _). apply (f_equal length) in Heq.
  rewrite length_take, length_app in Heq. simpl in Heq. lia.
Qed.

(** Moving a list of artifacts that are files with distinct, non-empty
    names, none of them already in the destination directory. *)
Lemma moves_run (dest_dir : Path) (l : list Path) :
  ∀ (store : FS) (evs : list Event),
  NoDup (path_name <$> l) →
  (∀ a, a ∈ l →
        path_name a ≠ EmptyString ∧ is_Some (fs_files store !! a) ∧
        parent a ≠ dest_dir ∧ destination dest_dir a ∉ fs_dirs store) →
  ∃ store',
    for_each l (move dest_dir) {| fs := store; events := evs |} =
      (Returned tt, {| fs := store'; events := evs ++ move_events dest_dir l |}) ∧
    fs_dirs store' = fs_dirs store ∧
    (∀ a, a ∈ l →
          fs_files store' !! destination dest_dir a = fs_files store !! a ∧
          fs_files store' !! a = None) ∧
    (∀ p, p ∉ l → p ∉ destination dest_dir <$> l →
          fs_files store' !! p = fs_files store !! p).
Proof.
  induction l as [|a l IH]; intros store evs Hnames Hok.
  { exists store. unfold move_events. simpl. rewrite app_nil_r.
    split; [by destruct store |]. split; [done |]. split; [| done].
    intros a Ha. by apply not_elem_of_nil in Ha. }
  rewrite fmap_cons in Hnames. apply NoDup_cons in Hnames as [Hfresh Hnames].
  destruct (Hok a) as (Hname & [node Hfile] & Hparent & Hnodir); [by left |].
  assert (Hself : a ≠ destination dest_dir a).
  { intros Heq. apply Hparent. rewrite Heq at 1. by apply destination_parent. }
  assert (Hdistinct : ∀ b, b ∈ l → b ≠ a ∧ b ≠ destination dest_dir a
                                   ∧ destination dest_dir b ≠ a
                                   ∧ destination dest_dir b ≠ destination dest_dir a).
  { intros b Hb. destruct (Hok b) as (Hbname & _ & Hbparent & _); [by right |].
    assert (Hnb : path_name b ≠ path_name a).
    { intros Heq. apply Hfresh. rewrite <- Heq. by apply list_elem_of_fmap_2. }
    repeat split.
    - by intros ->.
    - intros ->. apply Hbparent. by apply destination_parent.
    - intros Heq. apply Hparent. rewrite <- Heq. by apply destination_parent.
    - intros Heq. by apply destination_inj in Heq. }
  cbn [for_each]. unfold mbind at 1, M_bind at 1.
  rewrite (move_run dest_dir a store evs node Hfile Hnodir).
  set (store1 := {| fs_files := <[destination dest_dir a := node]> (delete a (fs_files store));
                    fs_dirs := fs_dirs store |}).
  assert (Hkeep : ∀ p, p ≠ a → p ≠ destination dest_dir a →
                       fs_files store1 !! p = fs_files store !! p).
  { intros p Hpa Hpd. simpl. rewrite lookup_insert_ne by done.
    by rewrite lookup_delete_ne. }
  destruct (IH store1 (evs ++ [Move a (destination dest_dir a);
                               Echo (path_str (destination dest_dir a))]) Hnames)
    as (store' & Hrun & Hdirs & Hmoved & Hother).
  { intros b Hb. destruct (Hok b) as (Hbname & Hbfile & Hbparent & Hbnodir); [by right |].
    destruct (Hdistinct b Hb) as (Hba & Hbd & _).
    split; [done |]. split; [by rewrite Hkeep |]. split; done. }
  exists store'. split.
  { rewrite Hrun. unfold move_events. simpl. by rewrite <- (assoc_L (++)). }
  split; [done |]. split.
  - intros b [-> | Hb]%elem_of_cons.
    + assert (Hnotl : a ∉ l).
      { intros Hin. by destruct (Hdistinct a Hin) as (Hne & _). }
      assert (Hnotd : a ∉ destination dest_dir <$> l).
      { intros (b & Heq & Hb)%list_elem_of_fmap.
        destruct (Hdistinct b Hb) as (_ & _ & Hne & _). by apply Hne. }
      assert (Hdnotl : destination dest_dir a ∉ l).
      { intros Hin. by destruct (Hdistinct _ Hin) as (_ & Hne & _). }
      assert (Hdnotd : destination dest_dir a ∉ destination dest_dir <$> l).
      { intros (b & Heq & Hb)%list_elem_of_fmap.
        destruct (Hdistinct b Hb) as (_ & _ & _ & Hne). by apply Hne. }
      rewrite (Hother _ Hdnotl Hdnotd), (Hother _ Hnotl Hnotd). simpl.
      rewrite lookup_insert_eq, Hfile. split; [done |].
      rewrite lookup_insert_ne by (by apply not_eq_sym).
      apply lookup_delete_eq.
    + destruct (Hmoved b Hb) as [Hdst Hsrc].
      destruct (Hdistinct b Hb) as (Hba & Hbd & _).
      split; [| done]. by rewrite Hdst, Hkeep.
  - intros p Hp Hpd. apply not_elem_of_cons in Hp as [Hpa Hp].
    rewrite fmap_cons in Hpd. apply not_elem_of_cons in Hpd as [Hpda Hpd].
    by rewrite (Hother p Hp Hpd), Hkeep.
Qed.

Lemma destination_free_after_mkdir (dest_dir a : Path) (store : FS) :
  path_name a ≠ EmptyString →
  destination dest_dir a ∉ fs_dirs store →
  destination dest_dir a ∉ fs_dirs store ∪ list_to_set (ancestors_or_self dest_dir).
Proof.
  intros Hname Hnodir. rewrite elem_of_union, elem_of_list_to_set.
  intros [? | ?]; [done |]. by eapply destination_not_ancestor.
Qed.

(** Delivery without sandbox preservation, when the destination
    directory can be made and every artifact is a file with a name of
    its own that is not yet in the destination directory: it succeeds,
    every artifact ends up under its file name in the destination
    directory and is gone from where it was, nothing else changes, and
    each move is reported in order. *)
Theorem deliver_moves_every_artifact (dest_dir : Path) (info : AssemblyInfo)
    (store : FS) (evs : list Event) :
  (∀ q, q ∈ ancestors_or_self dest_dir → fs_files store !! q = None) →
  NoDup (path_name <$> artifacts info) →
  (∀ a, a ∈ artifacts info →
        path_name a ≠ EmptyString ∧ is_Some (fs_files store !! a) ∧
        parent a ≠ dest_dir ∧ destination dest_dir a ∉ fs_dirs store) →
  ∃ store',
    deliver dest_dir false info {| fs := store; events := evs |} =
      (Returned tt,
       {| fs := store';
          events := evs ++ MakeDirs dest_dir :: move_events dest_dir (artifacts info) |}) ∧
    fs_dirs store' = fs_dirs store ∪ list_to_set (ancestors_or_self dest_dir) ∧
    (∀ a, a ∈ artifacts info →
          fs_files store' !! (dest_dir ++ [path_name a]) = fs_files store !! a ∧
          fs_files store' !! a = None) ∧
    (∀ p, p ∉ artifacts info → p ∉ destination dest_dir <$> artifacts info →
          fs_files store' !! p = fs_files store !! p).
Proof.
  intros Hfree Hnames Hok. rewrite deliver_flat, (mkdir_run _ _ _ Hfree).
  destruct (moves_run dest_dir (artifacts info)
              {| fs_files := fs_files store;
                 fs_dirs := fs_dirs store ∪ list_to_set (ancestors_or_self dest_dir) |}
              (evs ++ [MakeDirs dest_dir]) Hnames)
    as (store' & Hrun & Hdirs & Hmoved & Hother).
  { intros a Ha. destruct (Hok a Ha) as (Hname & Hfile & Hparent & Hnodir).
    repeat split; try done. by apply destination_free_after_mkdir. }
  exists store'. split; [by rewrite Hrun, <- (assoc_L (++)) |].
  split; [done |]. split; [| done].
  intros a Ha. destruct (Hok a Ha) as (Hname & _).
  rewrite <- (destination_named dest_dir a Hname). by apply Hmoved.
Qed.

Lemma deliver_moves_every_artifact_witness :
  ∃ store',
    deliver Examples.dist false MoreExamples.staged_info
            {| fs := MoreExamples.staged_store; events := [] |} =
      (Returned tt,
       {| fs := store';
          events := [] ++ MakeDirs Examples.dist
                    :: move_events Examples.dist (artifacts MoreExamples.staged_info) |}) ∧
    fs_dirs store' = fs_dirs MoreExamples.staged_store
                     ∪ list_to_set (ancestors_or_self Examples.dist) ∧
    (∀ a, a ∈ artifacts MoreExamples.staged_info →
          fs_files store' !! (Examples.dist ++ [path_name a])
            = fs_files MoreExamples.staged_store !! a ∧
          fs_files store' !! a = None) ∧
    (∀ p, p ∉ artifacts MoreExamples.staged_info →
          p ∉ destination Examples.dist <$> artifacts MoreExamples.staged_info →
          fs_files store' !! p = fs_files MoreExamples.staged_store !! p).
Proof.
  apply (deliver_moves_every_artifact Examples.dist MoreExamples.staged_info
           MoreExamples.staged_store []).
  - intros q Hq. cbn in Hq.
    rewrite !elem_of_cons, elem_of_nil in Hq.
    destruct Hq as [-> | [-> | []]]; reflexivity.
  - cbn. repeat (apply NoDup_cons_2;
                   [rewrite ?elem_of_cons, elem_of_nil; intuition discriminate |]).
    apply NoDup_nil_2.
  - intros a Ha. cbn in Ha. rewrite !elem_of_cons, elem_of_nil in Ha.
    destruct Ha as [-> | [-> | []]];
      (split; [discriminate |]; split; [by eexists |]; split; [discriminate |]);
      cbn; rewrite elem_of_singleton; discriminate.
Defined.



(** Delivery does not tell equal file names apart: of two artifacts
    with the same name the second replaces the first in the destination
    directory, and both are gone from where they were. *)
Theorem deliver_same_name_last_wins (dest_dir : Path) (info : AssemblyInfo)
    (store : FS) (evs : list Event) (first second : Path) (node1 node2 : Node) :
  artifacts info = [first; second] →
  first ≠ second →
  path_name first = path_name second →
  path_name first ≠ EmptyString →
  (∀ q, q ∈ ancestors_or_self dest_dir → fs_files store !! q = None) →
  fs_files store !! first = Some node1 →
  fs_files store !! second = Some node2 →
  parent first ≠ dest_dir →
  parent second ≠ dest_dir →
  destination dest_dir first ∉ fs_dirs store →
  ∃ store',
    deliver dest_dir false info {| fs := store; events := evs |} =
      (Returned tt,
       {| fs := store';
          events := evs ++ MakeDirs dest_dir :: move_events dest_dir [first; second] |}) ∧
    fs_files store' !! (dest_dir ++ [path_name first]) = Some node2 ∧
    fs_files store' !! first = None ∧
    fs_files store' !! second = None.
Proof.
  intros Hartifacts Hne Hsame Hname Hfree Hfirst Hsecond Hparent1 Hparent2 Hnodir.
  assert (Hdst : destination dest_dir second = destination dest_dir first)
    by (unfold destination; by rewrite Hsame).
  assert (Hfirst_dst : first ≠ destination dest_dir first).
  { intros Heq. apply Hparent1. rewrite Heq at 1. by apply destination_parent. }
  assert (Hsecond_dst : second ≠ destination dest_dir first).
  { intros Heq. apply Hparent2. rewrite Heq at 1. by apply destination_parent. }
  rewrite deliver_flat, (mkdir_run _ _ _ Hfree), Hartifacts.
  cbn [for_each]. unfold mbind, M_bind.
  rewrite (move_run dest_dir first
             {| fs_files := fs_files store;
                fs_dirs := fs_dirs store ∪ list_to_set (ancestors_or_self dest_dir) |}
             _ node1 Hfirst (destination_free_after_mkdir _ _ _ Hname Hnodir)).
  rewrite (move_run dest_dir second _ _ node2).
  - eexists. split.
    + unfold mret, M_ret, move_events. cbn [flat_map fs_dirs].
      by rewrite <- !(assoc_L (++)).
    + cbn [fs_files]. rewrite Hdst, <- (destination_named dest_dir first Hname).
      split; [apply lookup_insert_eq |]. split.
      * rewrite lookup_insert_ne by (by apply not_eq_sym).
        rewrite lookup_delete_ne by (by apply not_eq_sym).
        rewrite lookup_insert_ne by (by apply not_eq_sym).
        apply lookup_delete_eq.
      * rewrite lookup_insert_ne by (by apply not_eq_sym).
        apply lookup_delete_eq.
  - cbn [fs_files]. rewrite lookup_insert_ne by (by apply not_eq_sym).
    by rewrite lookup_delete_ne.
  - cbn [fs_dirs]. rewrite Hdst. by apply destination_free_after_mkdir.
Qed.

Lemma deliver_same_name_last_wins_witness :
  ∃ store',
    deliver Examples.dist false
            {| native_jump := Examples.sandbox ++ ["scie-jump"];
               scies := [ {| lift_manifest := Examples.sandbox ++ ["linux"; "lift.json"];
                             scie := Examples.sandbox ++ ["linux"; "example"];
                             hashes := [] |};
                          {| lift_manifest := Examples.sandbox ++ ["macos"; "lift.json"];
                             scie := Examples.sandbox ++ ["macos"; "example"];
                             hashes := [] |} ] |}
            {| fs := {| fs_files :=
                          {[ Examples.sandbox ++ ["linux"; "example"] := RegularFile "linux scie";
                             Examples.sandbox ++ ["macos"; "example"] := RegularFile "macos scie" ]};
                        fs_dirs := {[ Examples.sandbox ]} |};
               events := [] |} =
      (Returned tt,
       {| fs := store';
          events := [] ++ MakeDirs Examples.dist
                    :: move_events Examples.dist
                         [Examples.sandbox ++ ["linux"; "example"];
                          Examples.sandbox ++ ["macos"; "example"]] |}) ∧
    fs_files store' !! (Examples.dist ++ [path_name (Examples.sandbox ++ ["linux"; "example"])])
      = Some (RegularFile "macos scie") ∧
    fs_files store' !! (Examples.sandbox ++ ["linux"; "example"]) = None ∧
    fs_files store' !! (Examples.sandbox ++ ["macos"; "example"]) = None.
Proof.
  apply (deliver_same_name_last_wins Examples.dist _ _ []
           (Examples.sandbox ++ ["linux"; "example"])
           (Examples.sandbox ++ ["macos"; "example"])
           (RegularFile "linux scie") (RegularFile "macos scie")).
  - reflexivity.
  - discriminate.
  - reflexivity.
  - discriminate.
  - intros q Hq. cbn in Hq.
    rewrite !elem_of_cons, elem_of_nil in Hq.
    destruct Hq as [-> | [-> | []]]; reflexivity.
  - reflexivity.
  - reflexivity.
  - discriminate.
  - discriminate.
  - cbn. rewrite elem_of_singleton. discriminate.
Defined.

End DeliveryProperties.

(** ** The assembler's arguments on example manifests *)

Section BuildArgumentExamples.
Import Examples MoreExamples.

(** The current platform is Linux, the manifest is for macOS only: the
    forced narrowing still targets the current platform. *)
Lemma build_forced_suffix_with_jump_targets_host_witness :
  ∃ args tail,
    events (_build linux_x86_64 "science" (parses_to macos_app) (fun _ => sandbox)
                   failing_assembler (_lift [] [] false None []) lift_toml dist
                   true false (Some jump_clone) [] start).2
    = events start
      ++ [ LogWarning
             "Cannot use a custom scie jump build with a multi-platform configuration.";
           LogWarning ("Restricting requested platforms of macos-aarch64 to "
                       +:+ value (current (arg_platform_info args))) ]
      ++ SandboxCreated sandbox :: AssembleScies args :: tail ∧
    arg_platforms args = {[ current (arg_platform_info args) ]} ∧
    arg_use_jump args = Some jump_clone ∧
    Forall (fun ev => ¬ is_warning ev) tail.
Proof.
  apply (build_forced_suffix_with_jump_targets_host linux_x86_64 "science"
           (parses_to macos_app) (fun _ => sandbox) failing_assembler
           (_lift [] [] false None []) lift_toml dist false jump_clone [] start macos_app).
  - reflexivity.
  - intros v Hv. discriminate Hv.
Defined.

Lemma build_without_jump_keeps_platforms_witness :
  ∃ evs,
    events (_build linux_x86_64 "science" (parses_to example_app) (fun _ => sandbox)
                   one_scie_assembler (_lift [] [] false None []) lift_toml dist
                   true false None ["sha256"] start).2 = events start ++ evs ∧
    Forall (fun ev =>
              ¬ is_warning ev ∧
              ∀ args, ev = AssembleScies args →
                      arg_platforms args = platforms example_app ∧
                      arg_use_jump args = None) evs.
Proof.
  apply (build_without_jump_keeps_platforms linux_x86_64 "science"
           (parses_to example_app) (fun _ => sandbox) one_scie_assembler
           (_lift [] [] false None []) lift_toml dist true false ["sha256"] start
           example_app).
  reflexivity.
Defined.

Lemma build_assembles_renamed_application_witness :
  ∃ evs,
    events (_build linux_x86_64 "science" (parses_to example_app) (fun _ => sandbox)
                   one_scie_assembler (_lift [] ["cpython"] false (Some "example-thin") [])
                   lift_toml dist false false None ["sha256"] start).2
    = events start ++ evs ∧
    Forall (fun ev =>
              ∀ args, ev = AssembleScies args →
                      arg_application args = replace_name example_app "example-thin" ∧
                      arg_lift_config args
                        = _lift [] ["cpython"] false (Some "example-thin") [] ∧
                      arg_hash_functions args = ["sha256"]) evs.
Proof.
  apply (build_assembles_renamed_application linux_x86_64 "science"
           (parses_to example_app) (fun _ => sandbox) one_scie_assembler
           (_lift [] ["cpython"] false (Some "example-thin") []) lift_toml dist
           false false None ["sha256"] start example_app "e" "xample-thin").
  - reflexivity.
  - reflexivity.
Defined.

End BuildArgumentExamples.

(** ** The lock file of the build automation *)

Section LockProperties.
Import Nox.

Variable BUILD_ROOT : Path.
Variable cache_dir : Path.
Variable sha1_hexdigest : string -> string.
Variable sha256_hexdigest : string -> string.
Variable session_install : list string -> Disk -> Outcome unit * Disk.
Variable session_run : RunCall -> Disk -> Outcome (option string) * Disk.
Variable sorted_glob : string -> Disk -> list Path.
Variable with_suffix : Path -> string -> Path.
Variable decode : string -> Outcome string.
Variable json_loads : string -> Outcome Json.
Variable json_dumps : Json -> string.
Variable format_value : Json -> string.

Abbreviation lock_file := (LOCK_FILE BUILD_ROOT).
Abbreviation checksum_file := (lock_checksum_file BUILD_ROOT).
Abbreviation load := (load_checksums BUILD_ROOT decode json_loads).
Abbreviation decide :=
  (decide_create_lock BUILD_ROOT sha256_hexdigest decode json_loads format_value).
Abbreviation create :=
  (create_lock_file BUILD_ROOT cache_dir sha1_hexdigest sha256_hexdigest
                    session_install session_run json_dumps).
Abbreviation requirements := (all_requirements BUILD_ROOT sorted_glob).
Abbreviation maybe_create :=
  (maybe_create_lock BUILD_ROOT cache_dir sha1_hexdigest sha256_hexdigest
                     session_install session_run sorted_glob with_suffix
                     decode json_loads json_dumps format_value).

Lemma read_bytes_state (p : Path) (st : NoxState) :
  (read_bytes p st).2 = st.
Proof.
  unfold read_bytes. destruct (_ !! _); [done |]. by destruct (bool_decide _).
Qed.

Lemma read_bytes_file (p : Path) (st : NoxState) (data : string) :
  disk_files (disk st) !! p = Some data → read_bytes p st = (Returned data, st).
Proof. unfold read_bytes. by intros ->. Qed.

Lemma load_state (st : NoxState) : (load st).2 = st.
Proof.
  unfold load_checksums, mbind, N_bind, nlift, mret, N_ret.
  pose proof (read_bytes_state checksum_file st) as Hread.
  destruct (read_bytes checksum_file st) as [[bytes|e] st1]; simpl in Hread; subst st1;
    [| done].
  destruct (decode bytes) as [text|e]; [| done].
  destruct (json_loads text) as [data|e]; [| done].
  destruct (subscript data "requirements_checksum") as [v1|e]; [| done].
  by destruct (subscript data "lock_checksum") as [v2|e].
Qed.

(** Deciding whether the lock must be created never changes the disk,
    and it warns exactly once exactly when it decides that it must: no
    warning comes with the answer [False] or with an exception. *)
Theorem decide_create_lock_warns_once (requirements_checksum : string) (st : NoxState) :
  disk (decide requirements_checksum st).2 = disk st ∧
  match (decide requirements_checksum st).1 with
  | Returned true =>
      ∃ msg, log (decide requirements_checksum st).2 = log st ++ [Warn msg]
  | Returned false | Raised _ =>
      log (decide requirements_checksum st).2 = log st
  end.
Proof.
  unfold decide_create_lock.
  destruct (disk_exists (disk st) lock_file && disk_exists (disk st) checksum_file).
  - unfold try_except_else.
    pose proof (load_state st) as Hload.
    destruct (load st) as [[[expected1 expected2]|e] st1]; simpl in Hload; subst st1.
    + cbn [fst snd]. destruct (str_eq_json requirements_checksum expected1).
      * unfold mbind, N_bind.
        pose proof (read_bytes_state lock_file st) as Hread.
        destruct (read_bytes lock_file st) as [[bytes|e] st1]; simpl in Hread;
          subst st1; [| done].
        destruct (str_eq_json (sha256_hexdigest bytes) expected2); [done |].
        simpl. eauto.
      * simpl. eauto.
    + destruct (_ || _); [| done]. simpl. eauto.
  - destruct (disk_exists (disk st) lock_file); simpl; eauto.
Qed.

(** A checksum file that holds valid JSON which is not an object
    makes the decision fail with a [TypeError]: the handler for unreadable
    checksum files covers I/O, value and key errors only, so nothing is
    warned and nothing is regenerated. *)
Theorem decide_create_lock_non_object_checksums (requirements_checksum : string)
    (st : NoxState) (bytes text : string) (value : Json) :
  disk_exists (disk st) lock_file = true →
  disk_files (disk st) !! checksum_file = Some bytes →
  decode bytes = Returned text →
  json_loads text = Returned value →
  match value with
  | JObject _ => False
  | _ => True
  end →
  ∃ msg, decide requirements_checksum st = (Raised (TypeError msg), st).
Proof.
  intros Hlock Hfile Hdecode Hloads Hshape.
  assert (Hex2 : disk_exists (disk st) checksum_file = true)
    by (unfold disk_exists; rewrite Hfile; by rewrite bool_decide_true by eauto).
  unfold decide_create_lock. rewrite Hlock, Hex2. cbn [andb].
  unfold try_except_else, load_checksums, mbind, N_bind, nlift.
  rewrite (read_bytes_file _ _ _ Hfile), Hdecode, Hloads.
  destruct value; try done; simpl; eauto.
Qed.

Lemma read_all_state (paths : list Path) (st : NoxState) : (read_all paths st).2 = st.
Proof.
  induction paths as [|p paths IH]; [done |]. simpl. unfold mbind, N_bind.
  pose proof (read_bytes_state p st) as Hread.
  destruct (read_bytes p st) as [[data|e] st1]; simpl in Hread; subst st1; [| done].
  destruct (read_all paths st) as [[more|e] st1]; simpl in IH; by subst st1.
Qed.

Lemma export_subsets_present (paths : list Path) (st : NoxState) :
  (∀ subset, subset ∈ paths →
     disk_exists (disk st) (with_suffix subset ".windows-amd64.lock.txt") = true) →
  nfor_each paths
    (export_subset BUILD_ROOT cache_dir sha1_hexdigest session_install session_run
                   with_suffix false) st
  = (Returned tt, st).
Proof.
  induction paths as [|p paths IH]; intros Hpresent; [done |].
  simpl. unfold mbind at 1, N_bind at 1.
  unfold export_subset at 1. unfold mbind at 1, N_bind at 1.
  rewrite (Hpresent p) by (by left). simpl.
  apply IH. intros q Hq. apply Hpresent. by right.
Qed.

(** When nothing has changed, [maybe_create_lock] does nothing at all:
    if the requirements files can be read, the lock file and the checksum
    file are there, the recorded checksums are those of the requirements
    and of the lock, and every subset lock exists, then it returns
    [False] and neither the disk nor the log has changed: no warning, no
    command. *)
Theorem maybe_create_lock_up_to_date (st : NoxState)
    (requirements_bytes lock_bytes recorded text : string) (checksum_data : Json) :
  read_all (requirements (disk st)) st = (Returned requirements_bytes, st) →
  disk_files (disk st) !! lock_file = Some lock_bytes →
  disk_files (disk st) !! checksum_file = Some recorded →
  decode recorded = Returned text →
  json_loads text = Returned checksum_data →
  subscript checksum_data "requirements_checksum"
    = Returned (JString (sha256_hexdigest requirements_bytes)) →
  subscript checksum_data "lock_checksum"
    = Returned (JString (sha256_hexdigest lock_bytes)) →
  (∀ subset, subset ∈ requirements (disk st) →
     disk_exists (disk st) (with_suffix subset ".windows-amd64.lock.txt") = true) →
  maybe_create st = (Returned false, st).
Proof.
  intros Hreqs Hlock Hfile Hdecode Hloads Hsub1 Hsub2 Hsubsets.
  unfold maybe_create_lock. unfold mbind at 1, N_bind at 1.
  unfold mbind at 1, N_bind at 1. rewrite Hreqs.
  unfold mbind at 1, N_bind at 1.
  assert (Hdecide : decide (sha256_hexdigest requirements_bytes) st = (Returned false, st)).
  { assert (Hex1 : disk_exists (disk st) lock_file = true)
      by (unfold disk_exists; rewrite Hlock; by rewrite bool_decide_true by eauto).
    assert (Hex2 : disk_exists (disk st) checksum_file = true)
      by (unfold disk_exists; rewrite Hfile; by rewrite bool_decide_true by eauto).
    unfold decide_create_lock. rewrite Hex1, Hex2. cbn [andb].
    unfold try_except_else, load_checksums, mbind, N_bind, nlift.
    rewrite (read_bytes_file _ _ _ Hfile), Hdecode, Hloads, Hsub1, Hsub2.
    unfold mret, N_ret. cbn [fst snd str_eq_json].
    rewrite (bool_decide_true (sha256_hexdigest requirements_bytes = _)) by done.
    cbv beta iota. rewrite (read_bytes_file _ _ _ Hlock). cbv beta iota.
    by rewrite bool_decide_true. }
  rewrite Hdecide. unfold mbind at 1, N_bind at 1. unfold mret at 1, N_ret at 1.
  unfold mbind at 1, N_bind at 1.
  by rewrite (export_subsets_present _ _ Hsubsets).
Qed.

Lemma lock_file_not_checksum_file : checksum_file ≠ lock_file.
Proof.
  unfold lock_checksum_file, NOX_SUPPORT_DIR, LOCK_FILE.
  rewrite <- (assoc_L (++)). intros Heq. by apply app_inv_head in Heq.
Qed.

Lemma decide_current (requirements_checksum : string) (st : NoxState)
    (lock_bytes recorded text : string) (checksum_data : Json) :
  disk_files (disk st) !! lock_file = Some lock_bytes →
  disk_files (disk st) !! checksum_file = Some recorded →
  decode recorded = Returned text →
  json_loads text = Returned checksum_data →
  subscript checksum_data "requirements_checksum"
    = Returned (JString requirements_checksum) →
  subscript checksum_data "lock_checksum"
    = Returned (JString (sha256_hexdigest lock_bytes)) →
  decide requirements_checksum st = (Returned false, st).
Proof.
  intros Hlock Hfile Hdecode Hloads Hsub1 Hsub2.
  assert (Hex1 : disk_exists (disk st) lock_file = true)
    by (unfold disk_exists; rewrite Hlock; by rewrite bool_decide_true by eauto).
  assert (Hex2 : disk_exists (disk st) checksum_file = true)
    by (unfold disk_exists; rewrite Hfile; by rewrite bool_decide_true by eauto).
  unfold decide_create_lock. rewrite Hex1, Hex2. cbn [andb].
  unfold try_except_else, load_checksums, mbind, N_bind, nlift.
  rewrite (read_bytes_file _ _ _ Hfile), Hdecode, Hloads, Hsub1, Hsub2.
  unfold mret, N_ret. cbn [fst snd str_eq_json].
  rewrite (bool_decide_true (requirements_checksum = _)) by done.
  cbv beta iota. rewrite (read_bytes_file _ _ _ Hlock). cbv beta iota.
  by rewrite bool_decide_true.
Qed.

(** What [create_lock_file] records is what the next decision accepts:
    after a successful creation, as long as the recorded checksums load
    back from the file as they were dumped, deciding again for the same
    requirements checksum answers [False] without a warning. *)
Theorem create_then_decide_is_current (reqs : list Path) (requirements_checksum : string)
    (st st1 : NoxState) :
  create reqs requirements_checksum st = (Returned tt, st1) →
  (∀ lock_bytes,
     disk_files (disk st1) !! lock_file = Some lock_bytes →
     ∃ text,
       decode (json_dumps (checksums_object requirements_checksum
                                            (sha256_hexdigest lock_bytes)))
         = Returned text ∧
       json_loads text
         = Returned (checksums_object requirements_checksum
                                      (sha256_hexdigest lock_bytes))) →
  decide requirements_checksum st1 = (Returned false, st1).
Proof.
  intros Hcreate Hcodec. unfold create_lock_file in Hcreate.
  unfold mbind at 1, N_bind at 1 in Hcreate.
  destruct (run_pex _ _ _ _ _ _ _ _ _) as [[o|e] st2]; [| done].
  unfold mbind at 1, N_bind at 1, read_bytes in Hcreate.
  destruct (disk_files (disk st2) !! lock_file) as [lock_bytes|] eqn:Hlock;
    [| by destruct (bool_decide _)].
  unfold write_text in Hcreate.
  destruct (bool_decide (checksum_file ∈ disk_dirs (disk st2))); [done |].
  destruct (bool_decide (parent checksum_file = [] ∨ _));
    [| by destruct (bool_decide _)].
  injection Hcreate as <-.
  assert (Hlock1 : <[checksum_file :=
                       json_dumps (checksums_object requirements_checksum
                                                    (sha256_hexdigest lock_bytes))]>
                     (disk_files (disk st2)) !! lock_file = Some lock_bytes).
  { rewrite lookup_insert_ne by apply lock_file_not_checksum_file. exact Hlock. }
  destruct (Hcodec lock_bytes Hlock1) as (text & Hdecode & Hloads).
  eapply (decide_current _ _ lock_bytes); cbn [disk disk_files].
  - exact Hlock1.
  - apply lookup_insert_eq.
  - exact Hdecode.
  - exact Hloads.
  - reflexivity.
  - reflexivity.
Qed.

End LockProperties.

Section LockExamples.
Import Nox NoxExamples.

Lemma decide_create_lock_non_object_checksums_witness :
  ∃ msg,
    decide_create_lock repo toy_sha toy_decode (fun _ => Returned (JArray [])) toy_format
                       (toy_sha "click") array_checkout
    = (Raised (TypeError msg), array_checkout).
Proof.
  apply (decide_create_lock_non_object_checksums repo toy_sha toy_decode
           (fun _ => Returned (JArray [])) toy_format (toy_sha "click")
           array_checkout "[]" "[]" (JArray [])).
  - reflexivity.
  - reflexivity.
  - reflexivity.
  - reflexivity.
  - exact I.
Defined.

Lemma maybe_create_lock_up_to_date_witness :
  maybe_create_lock repo pex_cache toy_sha toy_sha toy_install toy_run no_glob
                    toy_with_suffix toy_decode toy_loads toy_dumps toy_format
                    current_checkout
  = (Returned false, current_checkout).
Proof.
  apply (maybe_create_lock_up_to_date repo pex_cache toy_sha toy_sha toy_install
           toy_run no_glob toy_with_suffix toy_decode toy_loads toy_dumps toy_format
           current_checkout "click" "locked"
           (toy_sha "locked" +:+ " " +:+ toy_sha "click")
           (toy_sha "locked" +:+ " " +:+ toy_sha "click")
           (checksums_object (toy_sha "click") (toy_sha "locked"))).
  - reflexivity.
  - reflexivity.
  - reflexivity.
  - reflexivity.
  - reflexivity.
  - reflexivity.
  - reflexivity.
  - intros subset Hin. cbn in Hin. apply list_elem_of_singleton in Hin as ->.
    reflexivity.
Defined.

Example created_run_succeeds : created_run.1 = Returned tt.
Proof. vm_compute. reflexivity. Qed.

Lemma create_then_decide_is_current_witness :
  decide_create_lock repo toy_sha toy_decode toy_loads toy_format
                     (toy_sha "click") created_run.2
  = (Returned false, created_run.2).
Proof.
  apply (create_then_decide_is_current repo pex_cache toy_sha toy_sha toy_install
           toy_run toy_decode toy_loads toy_dumps toy_format
           [repo ++ ["requirements.txt"]] (toy_sha "click") fresh_checkout).
  - rewrite (surjective_pairing created_run) at 1.
    by rewrite created_run_succeeds.
  - intros lock_bytes Hlock. vm_compute in Hlock. injection Hlock as <-.
    eexists. split; reflexivity.
Defined.

End LockExamples.

(** ** The Python distribution of the build automation *)

Section DistributionProperties.
Import Nox.

Variable BUILD_ROOT : Path.
Variable sha256_hexdigest : string -> string.
Variable url_read : string -> Outcome string.
Variable decode_strip : string -> Outcome string.
Variable mkdtemp_in : Path -> string -> Disk -> Path.
Variable extractall : string -> Path -> Disk -> Outcome unit * Disk.
Variable dedent : string -> string.

Abbreviation root := (pbs_root BUILD_ROOT).
Abbreviation ensure :=
  (ensure_PBS_python_dist BUILD_ROOT sha256_hexdigest url_read decode_strip
                          mkdtemp_in extractall dedent).

Lemma parent_pbs_root :
  parent root = BUILD_ROOT ++ [".nox"; "PBS"; PBS_RELEASE; PBS_VERSION].
Proof.
  unfold pbs_root, parent.
  change (BUILD_ROOT ++ [".nox"; "PBS"; PBS_RELEASE; PBS_VERSION; PBS_FLAVOR])
    with (BUILD_ROOT ++ [".nox"; "PBS"; PBS_RELEASE; PBS_VERSION] ++ [PBS_FLAVOR]).
  rewrite (assoc_L (++)). apply removelast_last.
Qed.

Lemma pbs_root_not_above_itself (q : Path) :
  q ∈ ancestors_or_self (parent root) → q ≠ root.
Proof.
  intros Hin ->. unfold ancestors_or_self in Hin.
  apply list_elem_of_In, in_map_iff in Hin. destruct Hin as (n & Heq & _).
  apply (f_equal length) in Heq. rewrite length_take, parent_pbs_root in Heq.
  unfold pbs_root in Heq. rewrite !length_app in Heq. simpl in Heq. lia.
Qed.

(** An archive whose SHA-256 is not the published one is refused:
    [ensure_PBS_python_dist] fetches the checksum and the archive and
    raises the [ValueError] whose message is the dedented text holding
    the URL and both hashes.  The archive is never unpacked: the disk
    it leaves is the one in which the parents of the distribution
    directory and the preparation directory were made and the
    preparation directory, the one [tempfile] picked, was removed
    again, and the distribution directory still does not exist. *)
Theorem ensure_PBS_rejects_unexpected_archive (target_triple : string) (st : NoxState)
    (body expected_hash archive : string) :
  let made := {| disk_files := disk_files (disk st);
                 disk_dirs := disk_dirs (disk st)
                              ∪ list_to_set (ancestors_or_self (parent root)) |} in
  let chroot := mkdtemp_in (parent root) "PBS-prepare." made in
  disk_exists (disk st) root = false →
  url_read (pbs_url target_triple +:+ ".sha256") = Returned body →
  decode_strip body = Returned expected_hash →
  (∀ q, q ∈ ancestors_or_self (parent root) → disk_files (disk st) !! q = None) →
  url_read (pbs_url target_triple) = Returned archive →
  expected_hash ≠ sha256_hexdigest archive →
  ensure target_triple st =
    (Raised (ValueError (unexpected_contents dedent (pbs_url target_triple) expected_hash
                                             (sha256_hexdigest archive))),
     {| disk := disk_rmtree chroot
                  {| disk_files := disk_files made;
                     disk_dirs := disk_dirs made ∪ {[ chroot ]} |};
        log := log st ++ [UrlOpened (pbs_url target_triple +:+ ".sha256");
                          UrlOpened (pbs_url target_triple)] |}) ∧
  disk_exists (disk_rmtree chroot
                 {| disk_files := disk_files made;
                    disk_dirs := disk_dirs made ∪ {[ chroot ]} |}) root = false.
Proof.
  intros made chroot Habsent Hsha Hstrip Hfree Harchive Hmismatch.
  unfold ensure_PBS_python_dist. unfold mbind at 1, N_bind at 1.
  rewrite Habsent. cbn [negb]. unfold mbind at 1, N_bind at 1.
  unfold mbind at 1, N_bind at 1, urlopen at 1. rewrite Hsha.
  unfold mbind at 1, N_bind at 1, nlift. rewrite Hstrip.
  unfold mbind at 1, N_bind at 1, disk_mkdir_parents. cbn [disk log].
  rewrite find_all_false.
  2:{ intros q Hq. apply bool_decide_eq_false. rewrite (Hfree q Hq). by intros [? ?]. }
  unfold temporary_directory_in. cbn [disk log disk_files disk_dirs].
  fold made. fold chroot.
  unfold prepare_PBS. unfold mbind at 1, N_bind at 1, urlopen. cbn [disk log].
  rewrite Harchive. unfold mbind at 1, N_bind at 1.
  rewrite (bool_decide_true _ Hmismatch). unfold nraise. cbn [disk log].
  assert (Hnofile : disk_files (disk st) !! root = None).
  { unfold disk_exists in Habsent. apply orb_false_iff in Habsent as [Hf _].
    apply bool_decide_eq_false in Hf. destruct (disk_files (disk st) !! root); [| done].
    by destruct Hf. }
  assert (Hnodir : root ∉ disk_dirs (disk st)).
  { unfold disk_exists in Habsent. apply orb_false_iff in Habsent as [_ Hd].
    by apply bool_decide_eq_false in Hd. }
  split; [by rewrite <- (assoc_L (++)) |].
  unfold disk_exists, disk_rmtree. cbn [disk_files disk_dirs made].
  apply orb_false_iff. split; apply bool_decide_eq_false.
  - rewrite map_lookup_filter_None_2; [by intros [? ?] | by left].
  - rewrite elem_of_filter, !elem_of_union, elem_of_list_to_set, elem_of_singleton.
    intros (Hout & [[Hin | Hin] | Heq]).
    + done.
    + by apply pbs_root_not_above_itself in Hin.
    + apply Hout. by rewrite Heq.
Qed.

End DistributionProperties.

Lemma ensure_PBS_rejects_unexpected_archive_witness :
  Nox.ensure_PBS_python_dist NoxExamples.repo NoxExamples.toy_sha
    NoxExamples.bad_network NoxExamples.toy_strip NoxExamples.toy_mkdtemp
    NoxExamples.toy_extract NoxExamples.toy_dedent "x86_64-unknown-linux-gnu"
    NoxExamples.empty_checkout
  = (Raised (Nox.ValueError
               (Nox.unexpected_contents NoxExamples.toy_dedent
                  (Nox.pbs_url "x86_64-unknown-linux-gnu") "00"
                  (NoxExamples.toy_sha "archive"))),
     {| Nox.disk :=
          Nox.disk_rmtree (parent (Nox.pbs_root NoxExamples.repo) ++ ["PBS-prepare.0"])
            {| Nox.disk_files := ∅;
               Nox.disk_dirs :=
                 {[ NoxExamples.repo ]}
                 ∪ list_to_set (ancestors_or_self (parent (Nox.pbs_root NoxExamples.repo)))
                 ∪ {[ parent (Nox.pbs_root NoxExamples.repo) ++ ["PBS-prepare.0"] ]} |};
        Nox.log := [Nox.UrlOpened (Nox.pbs_url "x86_64-unknown-linux-gnu" +:+ ".sha256");
                    Nox.UrlOpened (Nox.pbs_url "x86_64-unknown-linux-gnu")] |}) ∧
  Nox.disk_exists
    (Nox.disk_rmtree (parent (Nox.pbs_root NoxExamples.repo) ++ ["PBS-prepare.0"])
       {| Nox.disk_files := ∅;
          Nox.disk_dirs :=
            {[ NoxExamples.repo ]}
            ∪ list_to_set (ancestors_or_self (parent (Nox.pbs_root NoxExamples.repo)))
            ∪ {[ parent (Nox.pbs_root NoxExamples.repo) ++ ["PBS-prepare.0"] ]} |})
    (Nox.pbs_root NoxExamples.repo) = false.
Proof.
  refine (ensure_PBS_rejects_unexpected_archive NoxExamples.repo NoxExamples.toy_sha
            NoxExamples.bad_network NoxExamples.toy_strip NoxExamples.toy_mkdtemp
            NoxExamples.toy_extract NoxExamples.toy_dedent "x86_64-unknown-linux-gnu"
            NoxExamples.empty_checkout "00" "00" "archive" _ _ _ _ _ _).
  - reflexivity.
  - reflexivity.
  - reflexivity.
  - intros q Hq. apply lookup_empty.
  - reflexivity.
  - discriminate.
Defined.

(** ** The requirements of a session *)

Section SessionProperties.
Import Nox.

Variable BUILD_ROOT : Path.

Lemma extra_reqs_all_selected (extra_reqs l : list string) (d : Disk) :
  (∀ req, req ∈ l → req ∈ extra_reqs) →
  flat_map (fun req =>
              if bool_decide (req ∈ extra_reqs)
                 || bool_decide (is_Some (disk_files d
                                            !! (NOX_SUPPORT_DIR BUILD_ROOT
                                                ++ [req +:+ "-reqs.txt"])))
              then [NOX_SUPPORT_DIR BUILD_ROOT ++ [req +:+ "-reqs.txt"]] else []) l
  = (fun req => NOX_SUPPORT_DIR BUILD_ROOT ++ [req +:+ "-reqs.txt"]) <$> l.
Proof.
  induction l as [|req l IH]; intros Hsub; [done |]. simpl.
  rewrite bool_decide_true by (apply Hsub; by left). simpl.
  f_equal. apply IH. intros r Hr. apply Hsub. by right.
Qed.

(** The requirements a session installs: the requirements file of
    every extra, in order and whether or not the file exists; before
    them the session's own file, but only if it exists or the session is
    one of its own extras; after them the project requirements when the
    project is included. *)
Theorem session_requirements_selection (name : string) (extra_reqs : list string)
    (include_project : bool) (d : Disk) :
  session_requirements BUILD_ROOT name extra_reqs include_project d =
    (if bool_decide (name ∈ extra_reqs)
        || bool_decide (is_Some (disk_files d
                                   !! (NOX_SUPPORT_DIR BUILD_ROOT
                                       ++ [name +:+ "-reqs.txt"])))
     then [NOX_SUPPORT_DIR BUILD_ROOT ++ [name +:+ "-reqs.txt"]] else [])
    ++ ((fun req => NOX_SUPPORT_DIR BUILD_ROOT ++ [req +:+ "-reqs.txt"]) <$> extra_reqs)
    ++ (if include_project then [BUILD_ROOT ++ ["requirements.txt"]] else []).
Proof.
  unfold session_requirements. cbn [flat_map].
  rewrite (extra_reqs_all_selected extra_reqs extra_reqs d) by done.
  by rewrite <- (assoc_L (++)).
Qed.

End SessionProperties.

(** ** One exported manifest *)

Section ExportOneProperties.
Import ExportCommand.

Lemma not_above_own_parent (p q : Path) :
  q ∈ ancestors_or_self (parent p) → p ≠ [] → q ≠ p.
Proof.
  intros Hin Hne ->. unfold ancestors_or_self in Hin.
  apply list_elem_of_In, in_map_iff in Hin. destruct Hin as (n & Heq & _).
  apply (f_equal length) in Heq. rewrite length_take in Heq.
  destruct (exists_last Hne) as (front & x & ->).
  unfold parent in Heq. rewrite removelast_last, length_app in Heq.
  simpl in Heq. lia.
Qed.

(** With the platform suffix in use, a manifest at a path below the
    sandbox ends up at the same relative path below the destination
    directory: the directories above it are made, the manifest is moved
    there and its new path is echoed. *)
Theorem export_one_keeps_relative_path (dest_dir td : Path) (platform_info : PlatformInfo)
    (platform : Platform) (relative : Path) (node : Node) (store : FS)
    (evs : list Event) :
  use_suffix platform_info = true →
  relative ≠ [] →
  fs_files store !! (td ++ relative) = Some node →
  (∀ q, q ∈ ancestors_or_self (parent (dest_dir ++ relative)) →
        fs_files store !! q = None) →
  dest_dir ++ relative ∉ fs_dirs store →
  export_one dest_dir td platform_info (platform, td ++ relative)
             {| fs := store; events := evs |}
  = (Returned tt,
     {| fs := {| fs_files := <[dest_dir ++ relative := node]>
                               (delete (td ++ relative) (fs_files store));
                 fs_dirs := fs_dirs store
                            ∪ list_to_set (ancestors_or_self
                                             (parent (dest_dir ++ relative))) |};
        events := evs ++ [ MakeDirs (parent (dest_dir ++ relative));
                           Move (td ++ relative) (dest_dir ++ relative);
                           Echo (path_str (dest_dir ++ relative)) ] |}).
Proof.
  intros Hsuffix Hrel Hfile Hfree Hnodir.
  unfold export_one, export_destination, relative_to. cbn [snd].
  rewrite Hsuffix, decide_True by (by apply prefix_app_r).
  rewrite drop_app_length.
  unfold mbind, M_bind, of_outcome.
  rewrite (mkdir_run _ _ _ Hfree).
  unfold os_replace, emit. cbn [fs events fs_files fs_dirs].
  rewrite Hfile, bool_decide_false.
  - cbn [fs events]. by rewrite <- !(assoc_L (++)).
  - rewrite elem_of_union, elem_of_list_to_set. intros [Hin | Hin]; [done |].
    eapply not_above_own_parent; [exact Hin | | done].
    intros Heq. by apply app_eq_nil in Heq as [_ ?].
Qed.

Lemma export_one_keeps_relative_path_witness :
  export_one Examples.dist Examples.sandbox
             {| current := Examples.linux_x86_64; use_suffix := true |}
             (Examples.macos_aarch64, Examples.sandbox ++ ["macos-aarch64"; "lift.json"])
             {| fs := {| fs_files := {[ Examples.sandbox ++ ["macos-aarch64"; "lift.json"]
                                          := RegularFile "{}" ]};
                         fs_dirs := {[ Examples.sandbox ]} |};
                events := [] |}
  = (Returned tt,
     {| fs := {| fs_files :=
                   <[Examples.dist ++ ["macos-aarch64"; "lift.json"] := RegularFile "{}"]>
                     (delete (Examples.sandbox ++ ["macos-aarch64"; "lift.json"])
                        {[ Examples.sandbox ++ ["macos-aarch64"; "lift.json"]
                             := RegularFile "{}" ]});
                 fs_dirs := {[ Examples.sandbox ]}
                            ∪ list_to_set
                                (ancestors_or_self
                                   (parent (Examples.dist ++ ["macos-aarch64"; "lift.json"]))) |};
        events := [] ++ [ MakeDirs (parent (Examples.dist ++ ["macos-aarch64"; "lift.json"]));
                          Move (Examples.sandbox ++ ["macos-aarch64"; "lift.json"])
                               (Examples.dist ++ ["macos-aarch64"; "lift.json"]);
                          Echo (path_str (Examples.dist ++ ["macos-aarch64"; "lift.json"])) ] |}).
Proof.
  apply (export_one_keeps_relative_path Examples.dist Examples.sandbox
           {| current := Examples.linux_x86_64; use_suffix := true |}
           Examples.macos_aarch64 ["macos-aarch64"; "lift.json"] (RegularFile "{}")).
  - reflexivity.
  - discriminate.
  - reflexivity.
  - intros q Hq. cbn in Hq. rewrite !elem_of_cons, elem_of_nil in Hq.
    destruct Hq as [-> | [-> | [-> | []]]]; reflexivity.
  - cbn. rewrite elem_of_singleton. discriminate.
Defined.

End ExportOneProperties.

(** ** Installing the Python distribution *)

Section DistributionInstall.
Import Nox.

Variable BUILD_ROOT : Path.
Variable sha256_hexdigest : string -> string.
Variable url_read : string -> Outcome string.
Variable decode_strip : string -> Outcome string.
Variable mkdtemp_in : Path -> string -> Disk -> Path.
Variable extractall : string -> Path -> Disk -> Outcome unit * Disk.
Variable dedent : string -> string.

Lemma reroot_under (src dst rel : Path) : reroot src dst (src ++ rel) = dst ++ rel.
Proof.
  unfold reroot. rewrite decide_True by (by apply prefix_app_r).
  by rewrite drop_app_length.
Qed.

Lemma reroot_inj_on (src dst : Path) (m : gmap Path string) (x y : Path) :
  (∀ q, dst `prefix_of` q → m !! q = None) →
  is_Some (m !! x) → is_Some (m !! y) →
  reroot src dst x = reroot src dst y → x = y.
Proof.
  intros Hfree [vx Hx] [vy Hy]. unfold reroot.
  destruct (decide (src `prefix_of` x)) as [[kx ->] | _];
    destruct (decide (src `prefix_of` y)) as [[ky ->] | _];
    rewrite ?drop_app_length; intros Heq.
  - by apply app_inv_head in Heq as ->.
  - rewrite (Hfree y) in Hy; [done | by exists kx].
  - rewrite (Hfree x) in Hx; [done | by exists ky].
  - done.
Qed.

Lemma reroot_lookup (src dst rel : Path) (m : gmap Path string) :
  (∀ q, dst `prefix_of` q → m !! q = None) →
  (list_to_map ((fun kv => (reroot src dst kv.1, kv.2)) <$> map_to_list m)
     : gmap Path string) !! (dst ++ rel)
  = m !! (src ++ rel).
Proof.
  intros Hfree. apply option_eq. intros v.
  rewrite <- elem_of_list_to_map.
  - rewrite list_elem_of_fmap. split.
    + intros ([k w] & Heq & Hin). cbn [fst snd] in Heq.
      injection Heq as Hk ->. apply elem_of_map_to_list in Hin.
      unfold reroot in Hk. destruct (decide (src `prefix_of` k)) as [[rest ->] | _].
      * rewrite drop_app_length in Hk. by apply app_inv_head in Hk as ->.
      * rewrite (Hfree k) in Hin; [done | by exists rel].
    + intros Hv. exists (src ++ rel, v). cbn [fst snd].
      rewrite reroot_under. split; [done | by apply elem_of_map_to_list].
  - rewrite <- list_fmap_compose.
    change (fst ∘ (fun kv : Path * string => (reroot src dst kv.1, kv.2)))
      with (reroot src dst ∘ (fst : Path * string → Path)).
    rewrite list_fmap_compose. apply NoDup_fmap_2_strong.
    + intros x y Hx Hy. apply (reroot_inj_on src dst m); [done | |].
      * apply list_elem_of_fmap in Hx as ([? v'] & -> & Hin).
        apply elem_of_map_to_list in Hin. by exists v'.
      * apply list_elem_of_fmap in Hy as ([? v'] & -> & Hin).
        apply elem_of_map_to_list in Hin. by exists v'.
    + apply NoDup_fst_map_to_list.
Qed.

Lemma disk_exists_false (d : Disk) (p : Path) :
  disk_exists d p = false ↔ disk_files d !! p = None ∧ p ∉ disk_dirs d.
Proof.
  unfold disk_exists. rewrite orb_false_iff, !bool_decide_eq_false.
  rewrite <- eq_None_not_Some. done.
Qed.

(** An archive whose SHA-256 is the published one is installed: when
    the distribution directory is absent, the preparation directory is
    made directly inside its parent, and after unpacking nothing exists
    at or below the distribution directory, [ensure_PBS_python_dist]
    returns the distribution directory, which now exists and holds at
    every relative path what the archive put at that path of the
    preparation directory, and the preparation directory is gone. *)
Theorem ensure_PBS_installs_verified_archive (target_triple : string) (st : NoxState)
    (body archive name : string) (unpacked : Disk) :
  let root := pbs_root BUILD_ROOT in
  let made := {| disk_files := disk_files (disk st);
                 disk_dirs := disk_dirs (disk st)
                              ∪ list_to_set (ancestors_or_self (parent root)) |} in
  let chroot := mkdtemp_in (parent root) "PBS-prepare." made in
  disk_exists (disk st) root = false →
  url_read (pbs_url target_triple +:+ ".sha256") = Returned body →
  decode_strip body = Returned (sha256_hexdigest archive) →
  (∀ q, q ∈ ancestors_or_self (parent root) → disk_files (disk st) !! q = None) →
  chroot = parent root ++ [name] →
  url_read (pbs_url target_triple) = Returned archive →
  extractall archive chroot
             {| disk_files := disk_files made;
                disk_dirs := disk_dirs made ∪ {[ chroot ]} |}
    = (Returned tt, unpacked) →
  chroot ∈ disk_dirs unpacked →
  (∀ q, root `prefix_of` q → disk_exists unpacked q = false) →
  ∃ st',
    ensure_PBS_python_dist BUILD_ROOT sha256_hexdigest url_read decode_strip
                           mkdtemp_in extractall dedent target_triple st
      = (Returned root, st') ∧
    log st' = log st ++ [UrlOpened (pbs_url target_triple +:+ ".sha256");
                         UrlOpened (pbs_url target_triple)] ∧
    root ∈ disk_dirs (disk st') ∧
    (∀ relative, disk_files (disk st') !! (root ++ relative)
                 = disk_files unpacked !! (chroot ++ relative)) ∧
    disk_exists (disk st') chroot = false.
Proof.
  intros root made chroot Habsent Hsha Hstrip Hfree Hchroot Harchive Hextract
         Hthere Hempty.
  assert (Hside : ¬ chroot `prefix_of` root).
  { intros Hpre. assert (chroot = root) as Heq.
    { apply prefix_length_eq; [done |]. rewrite Hchroot. subst root.
      rewrite parent_pbs_root. unfold pbs_root. rewrite !length_app. simpl. lia. }
    specialize (Hempty root (reflexivity _)).
    apply disk_exists_false in Hempty as [_ Hno]. apply Hno. by rewrite <- Heq. }
  assert (Hbelow : ∀ relative, ¬ chroot `prefix_of` root ++ relative).
  { intros relative Hpre.
    destruct (prefix_weak_total chroot root (root ++ relative) Hpre
                (prefix_app_r root root relative (reflexivity _))) as [H1 | H2];
      [done |].
    specialize (Hempty chroot H2). by apply disk_exists_false in Hempty as [_ Hno]. }
  assert (Hrootfree : ∀ q, root `prefix_of` q → disk_files unpacked !! q = None).
  { intros q Hq. by apply disk_exists_false, Hempty. }
  unfold ensure_PBS_python_dist. unfold mbind at 1, N_bind at 1.
  fold root. rewrite Habsent. cbn [negb]. unfold mbind at 1, N_bind at 1.
  unfold mbind at 1, N_bind at 1, urlopen at 1. rewrite Hsha.
  unfold mbind at 1, N_bind at 1, nlift. rewrite Hstrip.
  unfold mbind at 1, N_bind at 1, disk_mkdir_parents. cbn [disk log].
  rewrite find_all_false.
  2:{ intros q Hq. apply bool_decide_eq_false. rewrite (Hfree q Hq). by intros [? ?]. }
  unfold temporary_directory_in. cbn [disk log disk_files disk_dirs].
  fold made. fold chroot.
  unfold prepare_PBS. unfold mbind at 1, N_bind at 1, urlopen. cbn [disk log].
  rewrite Harchive. unfold mbind at 1, N_bind at 1.
  rewrite bool_decide_false by (by intros ?). cbn [disk log].
  unfold made in Hextract. cbn [disk_files disk_dirs] in Hextract.
  rewrite Hextract. fold root.
  unfold replace_dir. cbn [disk log].
  rewrite (bool_decide_true _ Hthere). cbn [negb].
  rewrite bool_decide_false.
  2:{ rewrite (Hrootfree root (reflexivity _)). by intros [? ?]. }
  rewrite bool_decide_false.
  2:{ rewrite Exists_exists. intros (q & Hin & Hpre & _).
      specialize (Hempty q Hpre). apply disk_exists_false in Hempty as [Hnf Hnd].
      apply elem_of_app in Hin as [Hin | Hin].
      - apply list_elem_of_fmap in Hin as ([k v] & -> & Hin).
        apply elem_of_map_to_list in Hin. cbn [fst] in Hnf. congruence.
      - by apply elem_of_elements in Hin. }
  eexists. split; [reflexivity |]. cbn [disk log].
  split; [by rewrite <- (assoc_L (++)) |].
  unfold disk_rmtree, disk_exists. cbn [disk_files disk_dirs].
  split; [| split].
  - apply elem_of_filter. split; [done |]. apply elem_of_map. exists chroot.
    split; [| done].
    rewrite <- (app_nil_r chroot) at 2. rewrite reroot_under. by rewrite app_nil_r.
  - intros relative. rewrite <- (reroot_lookup chroot root relative _ Hrootfree).
    apply option_eq. intros v. rewrite map_lookup_filter_Some. cbn [fst].
    split; [by intros [? _] | intros Hv; split; [done | apply Hbelow]].
  - apply orb_false_iff. split; apply bool_decide_eq_false.
    + rewrite map_lookup_filter_None_2; [by intros [? ?] |].
      right. intros v _ Hout. by apply Hout.
    + rewrite elem_of_filter. intros [Hout _]. by apply Hout.
Qed.

End DistributionInstall.

Lemma ensure_PBS_installs_verified_archive_witness :
  ∃ st',
    Nox.ensure_PBS_python_dist NoxExamples.repo NoxExamples.toy_sha
      NoxExamples.good_network NoxExamples.toy_strip NoxExamples.toy_mkdtemp
      NoxExamples.toy_extract NoxExamples.toy_dedent "x86_64-unknown-linux-gnu"
      NoxExamples.empty_checkout
      = (Returned (Nox.pbs_root NoxExamples.repo), st') ∧
    Nox.log st' = Nox.log NoxExamples.empty_checkout
                  ++ [Nox.UrlOpened (Nox.pbs_url "x86_64-unknown-linux-gnu" +:+ ".sha256");
                      Nox.UrlOpened (Nox.pbs_url "x86_64-unknown-linux-gnu")] ∧
    Nox.pbs_root NoxExamples.repo ∈ Nox.disk_dirs (Nox.disk st') ∧
    (∀ relative,
       Nox.disk_files (Nox.disk st') !! (Nox.pbs_root NoxExamples.repo ++ relative)
       = ({[ parent (Nox.pbs_root NoxExamples.repo) ++ ["PBS-prepare.0"; "python"]
               := "archive" ]} : gmap Path string)
           !! ((parent (Nox.pbs_root NoxExamples.repo) ++ ["PBS-prepare.0"]) ++ relative)) ∧
    Nox.disk_exists (Nox.disk st')
                    (parent (Nox.pbs_root NoxExamples.repo) ++ ["PBS-prepare.0"]) = false.
Proof.
  refine (ensure_PBS_installs_verified_archive NoxExamples.repo NoxExamples.toy_sha
           NoxExamples.good_network NoxExamples.toy_strip NoxExamples.toy_mkdtemp
           NoxExamples.toy_extract NoxExamples.toy_dedent "x86_64-unknown-linux-gnu"
           NoxExamples.empty_checkout
           (NoxExamples.toy_sha "archive") "archive" "PBS-prepare.0"
           {| Nox.disk_files :=
                {[ parent (Nox.pbs_root NoxExamples.repo) ++ ["PBS-prepare.0"; "python"]
                     := "archive" ]};
              Nox.disk_dirs :=
                {[ NoxExamples.repo ]}
                ∪ list_to_set (ancestors_or_self (parent (Nox.pbs_root NoxExamples.repo)))
                ∪ {[ parent (Nox.pbs_root NoxExamples.repo) ++ ["PBS-prepare.0"] ]} |}
           _ _ _ _ _ _ _ _ _).
  - reflexivity.
  - reflexivity.
  - reflexivity.
  - intros q Hq. apply lookup_empty.
  - reflexivity.
  - reflexivity.
  - reflexivity.
  - cbn [Nox.disk_dirs]. apply elem_of_union_r, elem_of_singleton. reflexivity.
  - intros q [k ->]. apply disk_exists_false. cbn [Nox.disk_files Nox.disk_dirs]. split.
    + apply lookup_singleton_ne. cbn. discriminate.
    + rewrite !elem_of_union, elem_of_list_to_set, !elem_of_singleton.
      cbn. rewrite !elem_of_cons, elem_of_nil.
      intros [[Heq | Hin] | Heq]; [discriminate | | discriminate].
      repeat (destruct Hin as [Heq | Hin]; [discriminate |]). done.
Defined.
